(** * sora-cli: a shallow embedding of [main.go] and its properties

    The development follows the structure of the program:

    - the pieces of the Go standard library that the program calls on
      strings and paths (the decoding of UTF-8, [strings.ToLower] with the
      case tables of package [unicode], [strings.TrimRight],
      [filepath.Ext], [filepath.Base], [fmt.Sscanf] with the verb [%d],
      [base64.StdEncoding]);
    - the history store ([loadHistory], [saveHistory], [addToHistory],
      [resolveRemixVideoID]) with what [encoding/json] makes of the strings
      it writes and reads;
    - the job client ([createVideoJob], [fetchVideoStatus], [downloadFile])
      and the size text of its progress reports ([humanBytes]);
    - the controller ([main]) as a computation in a small state-and-exit
      monad that records every observable effect in a trace.

    Strings are Go strings, that is byte sequences: [string] holds one
    [ascii] per byte.  File contents and response bodies are [list byte]. *)

From stdpp Require Import base strings list gmap pretty.
From Stdlib Require Import ZArith Lia Ascii.
From Stdlib.Strings Require Import Byte.

Local Open Scope Z_scope.

Abbreviation bytes := (list byte).

(** ** UTF-8

    A Go string holds bytes; where the library reads it as text it decodes
    UTF-8, one rune after the other, and reads a byte that starts no valid
    encoding as [utf8.RuneError] of width one. *)

Section UTF8.

Definition byte_val (c : ascii) : Z := Z.of_N (N_of_ascii c).

Definition byte_chr (b : Z) : ascii := ascii_of_N (Z.to_N b).

Definition between (lo hi b : Z) : bool := (lo <=? b) && (b <=? hi).

(** A continuation byte. *)
Definition is_cont (b : Z) : bool := between 128 191 b.

(** [utf8.RuneError], U+FFFD, and [utf8.MaxRune]. *)
Definition RuneError : Z := 65533.
Definition MaxRune : Z := 1114111.

(** [utf8.ValidRune]: in range and no surrogate half. *)
Definition ValidRune (r : Z) : bool :=
  between 0 55295 r || between 57344 MaxRune r.

(** The encodings of two, three and four bytes that [utf8.DecodeRune]
    accepts: the shortest encoding of a valid rune. *)
Definition accept2 (b0 b1 : Z) : bool := between 194 223 b0 && is_cont b1.

Definition accept3 (b0 b1 b2 : Z) : bool :=
  between 224 239 b0
  && between (if b0 =? 224 then 160 else 128) (if b0 =? 237 then 159 else 191) b1
  && is_cont b2.

Definition accept4 (b0 b1 b2 b3 : Z) : bool :=
  between 240 244 b0
  && between (if b0 =? 240 then 144 else 128) (if b0 =? 244 then 143 else 191) b1
  && is_cont b2 && is_cont b3.

Definition rune2 (b0 b1 : Z) : Z := (b0 - 192) * 64 + (b1 - 128).

Definition rune3 (b0 b1 b2 : Z) : Z :=
  (b0 - 224) * 4096 + (b1 - 128) * 64 + (b2 - 128).

Definition rune4 (b0 b1 b2 b3 : Z) : Z :=
  (b0 - 240) * 262144 + (b1 - 128) * 4096 + (b2 - 128) * 64 + (b3 - 128).

(** [utf8.AppendRune]: a rune that is not valid is written as
    [RuneError]. *)
Definition EncodeRune (r : Z) : string :=
  if between 0 127 r then String (byte_chr r) EmptyString
  else if between 128 2047 r then
    String (byte_chr (192 + r / 64)) (String (byte_chr (128 + r mod 64)) EmptyString)
  else
    let r := if ValidRune r then r else RuneError in
    if r <=? 65535 then
      String (byte_chr (224 + r / 4096))
        (String (byte_chr (128 + r / 64 mod 64))
           (String (byte_chr (128 + r mod 64)) EmptyString))
    else
      String (byte_chr (240 + r / 262144))
        (String (byte_chr (128 + r / 4096 mod 64))
           (String (byte_chr (128 + r / 64 mod 64))
              (String (byte_chr (128 + r mod 64)) EmptyString))).

(** The conversion [[]rune(s)], which is also what [for _, c := range s]
    goes through. *)
Fixpoint runes (s : string) : list Z :=
  match s with
  | EmptyString => []
  | String c0 r0 =>
      let b0 := byte_val c0 in
      if b0 <? 128 then b0 :: runes r0
      else
        match r0 with
        | EmptyString => RuneError :: runes r0
        | String c1 r1 =>
            let b1 := byte_val c1 in
            if accept2 b0 b1 then rune2 b0 b1 :: runes r1
            else
              match r1 with
              | EmptyString => RuneError :: runes r0
              | String c2 r2 =>
                  let b2 := byte_val c2 in
                  if accept3 b0 b1 b2 then rune3 b0 b1 b2 :: runes r2
                  else
                    match r2 with
                    | EmptyString => RuneError :: runes r0
                    | String c3 r3 =>
                        let b3 := byte_val c3 in
                        if accept4 b0 b1 b2 b3 then rune4 b0 b1 b2 b3 :: runes r3
                        else RuneError :: runes r0
                    end
              end
        end
  end.

(** The conversion [string(rs)] of runes to a string. *)
Definition encode_runes (rs : list Z) : string :=
  foldr (fun r acc => EncodeRune r +:+ acc) EmptyString rs.

(** The string with the given bytes. *)
Definition of_bytes (bs : list Z) : string :=
  foldr (fun b acc => String (byte_chr b) acc) EmptyString bs.

End UTF8.

(** ** Strings and paths *)

Section GoStrings.

(** An entry of [unicode.CaseRanges], as far as lower case goes: the code
    points of the range are moved by a fixed amount, or the range
    alternates upper-case and lower-case letters. *)
Inductive CaseDelta : Type :=
  | Delta (d : Z)
  | UpperLower.

(** The lower-case mappings of [unicode.CaseRanges] for the code points
    from U+0080 on (Unicode 15.0.0, the tables of Go 1.22), range by range:
    only the code points that change are listed, so that an entry of the Go
    table that also spans lower-case letters, or a single pair of letters,
    is given here by the upper-case part with its delta. *)
Definition CaseRanges : list (Z * Z * CaseDelta) :=
  [(192, 214, Delta 32); (216, 222, Delta 32); (256, 303, UpperLower);
   (304, 304, Delta (-199)); (306, 311, UpperLower); (313, 328, UpperLower);
   (330, 375, UpperLower); (376, 376, Delta (-121)); (377, 382, UpperLower);
   (385, 385, Delta 210); (386, 389, UpperLower); (390, 390, Delta 206);
   (391, 391, Delta 1); (393, 394, Delta 205); (395, 395, Delta 1);
   (398, 398, Delta 79); (399, 399, Delta 202); (400, 400, Delta 203);
   (401, 401, Delta 1); (403, 403, Delta 205); (404, 404, Delta 207);
   (406, 406, Delta 211); (407, 407, Delta 209); (408, 408, Delta 1);
   (412, 412, Delta 211); (413, 413, Delta 213); (415, 415, Delta 214);
   (416, 421, UpperLower); (422, 422, Delta 218); (423, 423, Delta 1);
   (425, 425, Delta 218); (428, 428, Delta 1); (430, 430, Delta 218);
   (431, 431, Delta 1); (433, 434, Delta 217); (435, 438, UpperLower);
   (439, 439, Delta 219); (440, 440, Delta 1); (444, 444, Delta 1);
   (452, 452, Delta 2); (453, 453, Delta 1); (455, 455, Delta 2); (456, 456, Delta 1);
   (458, 458, Delta 2); (459, 476, UpperLower); (478, 495, UpperLower);
   (497, 497, Delta 2); (498, 501, UpperLower); (502, 502, Delta (-97));
   (503, 503, Delta (-56)); (504, 543, UpperLower); (544, 544, Delta (-130));
   (546, 563, UpperLower); (570, 570, Delta 10795); (571, 571, Delta 1);
   (573, 573, Delta (-163)); (574, 574, Delta 10792); (577, 577, Delta 1);
   (579, 579, Delta (-195)); (580, 580, Delta 69); (581, 581, Delta 71);
   (582, 591, UpperLower); (880, 883, UpperLower); (886, 886, Delta 1);
   (895, 895, Delta 116); (902, 902, Delta 38); (904, 906, Delta 37);
   (908, 908, Delta 64); (910, 911, Delta 63); (913, 929, Delta 32);
   (931, 939, Delta 32); (975, 975, Delta 8); (984, 1007, UpperLower);
   (1012, 1012, Delta (-60)); (1015, 1015, Delta 1); (1017, 1017, Delta (-7));
   (1018, 1018, Delta 1); (1021, 1023, Delta (-130)); (1024, 1039, Delta 80);
   (1040, 1071, Delta 32); (1120, 1153, UpperLower); (1162, 1215, UpperLower);
   (1216, 1216, Delta 15); (1217, 1230, UpperLower); (1232, 1327, UpperLower);
   (1329, 1366, Delta 48); (4256, 4293, Delta 7264); (4295, 4295, Delta 7264);
   (4301, 4301, Delta 7264); (5024, 5103, Delta 38864); (5104, 5109, Delta 8);
   (7312, 7354, Delta (-3008)); (7357, 7359, Delta (-3008)); (7680, 7829, UpperLower);
   (7838, 7838, Delta (-7615)); (7840, 7935, UpperLower); (7944, 7951, Delta (-8));
   (7960, 7965, Delta (-8)); (7976, 7983, Delta (-8)); (7992, 7999, Delta (-8));
   (8008, 8013, Delta (-8)); (8025, 8025, Delta (-8)); (8027, 8027, Delta (-8));
   (8029, 8029, Delta (-8)); (8031, 8031, Delta (-8)); (8040, 8047, Delta (-8));
   (8072, 8079, Delta (-8)); (8088, 8095, Delta (-8)); (8104, 8111, Delta (-8));
   (8120, 8121, Delta (-8)); (8122, 8123, Delta (-74)); (8124, 8124, Delta (-9));
   (8136, 8139, Delta (-86)); (8140, 8140, Delta (-9)); (8152, 8153, Delta (-8));
   (8154, 8155, Delta (-100)); (8168, 8169, Delta (-8)); (8170, 8171, Delta (-112));
   (8172, 8172, Delta (-7)); (8184, 8185, Delta (-128)); (8186, 8187, Delta (-126));
   (8188, 8188, Delta (-9)); (8486, 8486, Delta (-7517)); (8490, 8490, Delta (-8383));
   (8491, 8491, Delta (-8262)); (8498, 8498, Delta 28); (8544, 8559, Delta 16);
   (8579, 8579, Delta 1); (9398, 9423, Delta 26); (11264, 11311, Delta 48);
   (11360, 11360, Delta 1); (11362, 11362, Delta (-10743));
   (11363, 11363, Delta (-3814)); (11364, 11364, Delta (-10727));
   (11367, 11372, UpperLower); (11373, 11373, Delta (-10780));
   (11374, 11374, Delta (-10749)); (11375, 11375, Delta (-10783));
   (11376, 11376, Delta (-10782)); (11378, 11378, Delta 1); (11381, 11381, Delta 1);
   (11390, 11391, Delta (-10815)); (11392, 11491, UpperLower);
   (11499, 11502, UpperLower); (11506, 11506, Delta 1); (42560, 42605, UpperLower);
   (42624, 42651, UpperLower); (42786, 42799, UpperLower); (42802, 42863, UpperLower);
   (42873, 42876, UpperLower); (42877, 42877, Delta (-35332));
   (42878, 42887, UpperLower); (42891, 42891, Delta 1); (42893, 42893, Delta (-42280));
   (42896, 42899, UpperLower); (42902, 42921, UpperLower);
   (42922, 42922, Delta (-42308)); (42923, 42923, Delta (-42319));
   (42924, 42924, Delta (-42315)); (42925, 42925, Delta (-42305));
   (42926, 42926, Delta (-42308)); (42928, 42928, Delta (-42258));
   (42929, 42929, Delta (-42282)); (42930, 42930, Delta (-42261));
   (42931, 42931, Delta 928); (42932, 42947, UpperLower); (42948, 42948, Delta (-48));
   (42949, 42949, Delta (-42307)); (42950, 42950, Delta (-35384));
   (42951, 42954, UpperLower); (42960, 42960, Delta 1); (42966, 42969, UpperLower);
   (42997, 42997, Delta 1); (65313, 65338, Delta 32); (66560, 66599, Delta 40);
   (66736, 66771, Delta 40); (66928, 66938, Delta 39); (66940, 66954, Delta 39);
   (66956, 66962, Delta 39); (66964, 66965, Delta 39); (68736, 68786, Delta 64);
   (71840, 71871, Delta 32); (93760, 93791, Delta 32); (125184, 125217, Delta 34)].

Definition in_case_range (r : Z) (cr : Z * Z * CaseDelta) : bool :=
  between cr.1.1 cr.1.2 r.

(** [unicode.ToLower]. *)
Definition unicode_ToLower (r : Z) : Z :=
  if r <=? 127 then (if between 65 90 r then r + 32 else r)
  else
    match List.find (in_case_range r) CaseRanges with
    | Some (lo, _, Delta d) => r + d
    | Some (lo, _, UpperLower) => lo + Z.lor (Z.land (r - lo) (Z.lnot 1)) 1
    | None => r
    end.

(** [strings.Map]: the runes of [s] are mapped and written one after the
    other; a negative image drops the rune. *)
Definition Map (mapping : Z -> Z) (s : string) : string :=
  encode_runes (List.filter (fun r => 0 <=? r) (mapping <$> runes s)).

Definition is_upper (c : ascii) : bool :=
  let n := N_of_ascii c in (65 <=? n)%N && (n <=? 90)%N.

Definition lower_ascii (c : ascii) : ascii :=
  if is_upper c then ascii_of_N (N_of_ascii c + 32) else c.

(** Every byte is below [utf8.RuneSelf]. *)
Fixpoint isASCII (s : string) : bool :=
  match s with
  | EmptyString => true
  | String c r => (byte_val c <? 128) && isASCII r
  end.

Fixpoint lowerASCII (s : string) : string :=
  match s with
  | EmptyString => EmptyString
  | String c r => String (lower_ascii c) (lowerASCII r)
  end.

(** [strings.ToLower]: a string of ASCII bytes is lowered byte by byte;
    any other string goes through [strings.Map] with [unicode.ToLower],
    which also rewrites its invalid bytes as U+FFFD. *)
Definition ToLower (s : string) : string :=
  if isASCII s then lowerASCII s else Map unicode_ToLower s.

Definition is_slash (c : ascii) : bool := Ascii.eqb c "/".

(** [strings.TrimRight(s, "/")]. *)
Fixpoint TrimRightSlash (s : string) : string :=
  match s with
  | EmptyString => EmptyString
  | String c r =>
      match TrimRightSlash r with
      | EmptyString => if is_slash c then EmptyString else String c EmptyString
      | r' => String c r'
      end
  end.

Definition HasPrefix (s p : string) : bool := String.prefix p s.

(** [strings.TrimPrefix]. *)
Definition TrimPrefix (s p : string) : string :=
  if HasPrefix s p
  then String.substring (String.length p) (String.length s - String.length p) s
  else s.

Fixpoint has_slash (s : string) : bool :=
  match s with
  | EmptyString => false
  | String c r => is_slash c || has_slash r
  end.

(** The text after the last path separator. *)
Fixpoint last_element (s : string) : string :=
  match s with
  | EmptyString => EmptyString
  | String c r =>
      if has_slash r then last_element r
      else if is_slash c then r else s
  end.

(** [filepath.Base] with the separator of Unix (no volume names). *)
Definition Base (path : string) : string :=
  match path with
  | EmptyString => "."
  | _ =>
      match last_element (TrimRightSlash path) with
      | EmptyString => "/"
      | e => e
      end
  end.

(** [filepath.Ext]: the suffix of the last element that starts at its last
    dot, or the empty string. *)
Fixpoint last_dot_suffix (s : string) : option string :=
  match s with
  | EmptyString => None
  | String c r =>
      match last_dot_suffix r with
      | Some e => Some e
      | None => if Ascii.eqb c "." then Some s else None
      end
  end.

Definition Ext (path : string) : string :=
  default EmptyString (last_dot_suffix (last_element path)).

End GoStrings.

(** ** [fmt.Sscanf(s, "%d", &idx)] *)

Section Sscanf.

(** The word size of [int]. *)
Definition intBits : Z := 64.
Definition maxInt : Z := 2 ^ (intBits - 1) - 1.
Definition minInt : Z := - 2 ^ (intBits - 1).

Definition is_digit (c : ascii) : bool :=
  let n := N_of_ascii c in (48 <=? n)%N && (n <=? 57)%N.

Definition digit_val (c : ascii) : Z := Z.of_N (N_of_ascii c) - 48.

(** [isSpace] of package [fmt]: the table [space] of the Unicode white
    space. *)
Definition space : list (Z * Z) :=
  [(9, 13); (32, 32); (133, 133); (160, 160); (5760, 5760); (8192, 8202);
   (8232, 8233); (8239, 8239); (8287, 8287); (12288, 12288)].

Definition isSpace (r : Z) : bool :=
  existsb (fun rng => between rng.1 rng.2 r) space.

(** [SkipSpace]: white space before the number is skipped, one rune at a
    time; a newline stops the scan with an error.  The white space takes
    one, two or three bytes. *)
Fixpoint skip_blanks (s : string) : option string :=
  match s with
  | EmptyString => Some EmptyString
  | String c0 r0 =>
      let b0 := byte_val c0 in
      if b0 =? 10 then None
      else if b0 <? 128 then (if isSpace b0 then skip_blanks r0 else Some s)
      else
        match r0 with
        | EmptyString => Some s
        | String c1 r1 =>
            let b1 := byte_val c1 in
            if accept2 b0 b1 then (if isSpace (rune2 b0 b1) then skip_blanks r1 else Some s)
            else
              match r1 with
              | EmptyString => Some s
              | String c2 r2 =>
                  let b2 := byte_val c2 in
                  if accept3 b0 b1 b2 && isSpace (rune3 b0 b1 b2) then skip_blanks r2
                  else Some s
              end
        end
  end.

(** [scanNumber] with the digits of the verb [%d], ["0123456789"]. *)
Fixpoint number_token (s : string) : string :=
  match s with
  | EmptyString => EmptyString
  | String c r => if is_digit c then String c (number_token r) else EmptyString
  end.

(** [strconv.ParseUint(tok, 10, 64)] without its range check: [None] is a
    syntax error. *)
Fixpoint parse_digits (acc : Z) (tok : string) : option Z :=
  match tok with
  | EmptyString => Some acc
  | String c r => if is_digit c then parse_digits (10 * acc + digit_val c) r else None
  end.

(** The whole scan: blanks, an optional sign, the number token, its
    conversion with the range check of [strconv.ParseInt].  [None] stands
    for every error of [Sscanf]; input left after the number is ignored. *)
Definition Sscanf_d (s : string) : option Z :=
  match skip_blanks s with
  | None | Some EmptyString => None
  | Some (String c r as s') =>
      let neg := Ascii.eqb c "-" in
      let body := if neg || Ascii.eqb c "+" then r else s' in
      match number_token body with
      | EmptyString => None
      | tok =>
          match parse_digits 0 tok with
          | None => None
          | Some un =>
              if neg then (if un <=? - minInt then Some (- un) else None)
              else (if un <=? maxInt then Some un else None)
          end
      end
  end.

End Sscanf.

(** ** [base64.StdEncoding] *)

Section Base64.

Definition encodeStd : string :=
  "ABCDEFGHIJKLMNOPQRSTUVWXYZabcdefghijklmnopqrstuvwxyz0123456789+/".

Definition b64_char (i : N) : ascii :=
  default "="%char (String.get (N.to_nat i) encodeStd).

(** The 6-bit value of a character of the alphabet. *)
Definition b64_index (c : ascii) : option N :=
  let n := N_of_ascii c in
  if (65 <=? n)%N && (n <=? 90)%N then Some (n - 65)%N
  else if (97 <=? n)%N && (n <=? 122)%N then Some (n - 71)%N
  else if (48 <=? n)%N && (n <=? 57)%N then Some (n + 4)%N
  else if (n =? 43)%N then Some 62%N
  else if (n =? 47)%N then Some 63%N
  else None.

Definition pad : ascii := "="%char.

(** [EncodeToString]: three bytes give four characters; a last group of one
    or two bytes is padded with [=]. *)
Fixpoint EncodeToString (src : bytes) : string :=
  match src with
  | [] => EmptyString
  | [a] =>
      let a := Byte.to_N a in
      String (b64_char (a / 4)) (String (b64_char (a mod 4 * 16))
        (String pad (String pad EmptyString)))
  | [a; b] =>
      let a := Byte.to_N a in
      let b := Byte.to_N b in
      String (b64_char (a / 4)) (String (b64_char (a mod 4 * 16 + b / 16))
        (String (b64_char (b mod 16 * 4)) (String pad EmptyString)))
  | a :: b :: c :: rest =>
      let a := Byte.to_N a in
      let b := Byte.to_N b in
      let c := Byte.to_N c in
      String (b64_char (a / 4)) (String (b64_char (a mod 4 * 16 + b / 16))
        (String (b64_char (b mod 16 * 4 + c / 64)) (String (b64_char (c mod 64))
          (EncodeToString rest))))
  end%N.

Definition byte_of_N (n : N) : option byte := Byte.of_N n.

(** [DecodeString] on padded input. *)
Fixpoint DecodeString (s : string) : option bytes :=
  match s with
  | EmptyString => Some []
  | String c0 (String c1 (String c2 (String c3 rest))) =>
      i0 ← b64_index c0;
      i1 ← b64_index c1;
      a ← byte_of_N (i0 * 4 + i1 / 16)%N;
      if Ascii.eqb c2 pad then
        if Ascii.eqb c3 pad then
          match rest with EmptyString => Some [a] | _ => None end
        else None
      else
        i2 ← b64_index c2;
        b ← byte_of_N (i1 mod 16 * 16 + i2 / 4)%N;
        if Ascii.eqb c3 pad then
          match rest with EmptyString => Some [a; b] | _ => None end
        else
          i3 ← b64_index c3;
          c ← byte_of_N (i2 mod 4 * 64 + i3)%N;
          tl ← DecodeString rest;
          Some (a :: b :: c :: tl)
  | _ => None
  end.

End Base64.

(** ** Errors

    The Go code builds its errors from message strings; the embedding keeps
    one constructor per place an error is made, with the data the message
    carries. *)

Inductive error : Type :=
  | ErrHomeDir                          (* getting home directory *)
  | ErrReadHistory                      (* reading history *)
  | ErrParseHistory                     (* parsing history *)
  | ErrMkdirHistory                     (* creating history directory *)
  | ErrWriteHistory                     (* writing history *)
  | ErrLoadingHistory (e : error)       (* loading history: %w *)
  | ErrNoVideos                         (* no videos in history *)
  | ErrInvalidIndex (ref : string)      (* invalid index: %s *)
  | ErrIndexOutOfRange (idx n : Z)      (* index out of range: %d (have %d videos) *)
  | ErrReadStdin                        (* rd.ReadString *)
  | ErrReadFile (path : string)         (* os.ReadFile *)
  | ErrUnsupportedFormat (ext : string) (* unsupported format: %s *)
  | ErrNewRequest                       (* http.NewRequestWithContext *)
  | ErrTransport                        (* c.Do *)
  | ErrAPI (code : Z) (body : string)   (* API %s: %s *)
  | ErrDownloadStatus (code : Z) (body : string) (* download %s: %s *)
  | ErrDecode                           (* json decoding of the response *)
  | ErrMessage (m : string)             (* errors.New(out.Error.Message) *)
  | ErrMissingJobID                     (* missing job id in response *)
  | ErrCopyRead                         (* io.Copy: reading the body *)
  | ErrCopyWrite                        (* io.Copy: writing to the sink *)
  | ErrMkdirAll
  | ErrCreate
  | ErrSync
  | ErrClose
  | ErrRename.

(** A Go result [(A, error)]. *)
Abbreviation result A := (A + error)%type.
Abbreviation Ok := inl.
Abbreviation Err := inr.

(** ** Data model *)

Record createVideoRequest := {
  req_Model : string;
  req_Prompt : string;
  req_Image : option string;
  req_RemixFromVideoID : option string;
  req_Size : option string;
  req_Seconds : option string
}.

Record apiError := {
  Message : string;
  Type_ : string
}.

Record createVideoResponse := {
  cr_ID : string;
  cr_Status : string;
  cr_Error : option apiError
}.

Record videoStatusResponse := {
  vs_ID : string;
  vs_Status : string;
  vs_Error : option apiError;
  vs_Progress : Z
}.

Record videoHistoryEntry := {
  ID : string;
  Prompt : string;
  CreatedAt : string;
  OutputFile : string;
  Model : string;
  ImageInput : option string;
  RemixedFrom : option string
}.

Record history := { Videos : list videoHistoryEntry }.

(** ** The history store

    The history file is a JSON document of the user's home directory.  The
    embedding keeps the document decoded, [HistData h]: the strings of [h]
    are the strings of the file, byte by byte, before they are read as
    text.

    Package [encoding/json] reads and writes text: [json.MarshalIndent]
    writes every byte of a string that starts no valid UTF-8 encoding as
    U+FFFD, and [json.Unmarshal] reads such a byte of the file as U+FFFD.
    Both go through the string rune by rune, which [json_string] does. *)

Definition json_string (s : string) : string := encode_runes (runes s).

Definition json_entry (e : videoHistoryEntry) : videoHistoryEntry :=
  {| ID := json_string (ID e);
     Prompt := json_string (Prompt e);
     CreatedAt := json_string (CreatedAt e);
     OutputFile := json_string (OutputFile e);
     Model := json_string (Model e);
     ImageInput := json_string <$> ImageInput e;
     RemixedFrom := json_string <$> RemixedFrom e |}.

Definition json_history (h : history) : history :=
  {| Videos := json_entry <$> Videos h |}.

(** [utf8.ValidString]: the string is text, no byte of it is read as
    [RuneError] of width one. *)
Fixpoint ValidString (s : string) : bool :=
  match s with
  | EmptyString => true
  | String c0 r0 =>
      let b0 := byte_val c0 in
      if b0 <? 128 then ValidString r0
      else
        match r0 with
        | EmptyString => false
        | String c1 r1 =>
            let b1 := byte_val c1 in
            if accept2 b0 b1 then ValidString r1
            else
              match r1 with
              | EmptyString => false
              | String c2 r2 =>
                  let b2 := byte_val c2 in
                  if accept3 b0 b1 b2 then ValidString r2
                  else
                    match r2 with
                    | EmptyString => false
                    | String c3 r3 =>
                        accept4 b0 b1 b2 (byte_val c3) && ValidString r3
                    end
              end
        end
  end.

Definition valid_option (o : option string) : bool :=
  match o with
  | Some s => ValidString s
  | None => true
  end.

(** Every string of the entry is text. *)
Definition ValidEntry (e : videoHistoryEntry) : bool :=
  ValidString (ID e) && ValidString (Prompt e) && ValidString (CreatedAt e)
  && ValidString (OutputFile e) && ValidString (Model e)
  && valid_option (ImageInput e) && valid_option (RemixedFrom e).

Inductive HistFile : Type :=
  | HistMissing                  (* os.IsNotExist *)
  | HistUnreadable               (* another error of os.ReadFile *)
  | HistCorrupt                  (* json.Unmarshal fails *)
  | HistData (h : history).

(** [os.WriteFile] opens the file with [O_TRUNC] before it writes.  When it
    fails, [failed_write] is what it leaves: [None] when the file could not
    be opened and is as it was, [Some f] when the file was opened and is
    left as [f] (empty or cut short, [HistCorrupt] for a reader). *)
Record Store := {
  home_ok : bool;                (* os.UserHomeDir succeeds *)
  hist_file : HistFile;
  mkdir_ok : bool;               (* os.MkdirAll of the history directory *)
  write_ok : bool;               (* os.WriteFile of the history file *)
  failed_write : option HistFile
}.

Definition set_hist_file (s : Store) (f : HistFile) : Store :=
  {| home_ok := home_ok s; hist_file := f;
     mkdir_ok := mkdir_ok s; write_ok := write_ok s;
     failed_write := failed_write s |}.

Section HistoryStore.

Definition loadHistory (s : Store) : result history :=
  if negb (home_ok s) then Err ErrHomeDir
  else match hist_file s with
       | HistMissing => Ok {| Videos := [] |}
       | HistUnreadable => Err ErrReadHistory
       | HistCorrupt => Err ErrParseHistory
       | HistData h => Ok (json_history h)
       end.

Definition saveHistory (s : Store) (h : history) : Store * option error :=
  if negb (home_ok s) then (s, Some ErrHomeDir)
  else if negb (mkdir_ok s) then (s, Some ErrMkdirHistory)
  else if negb (write_ok s) then
    (match failed_write s with
     | None => s
     | Some f => set_hist_file s f
     end, Some ErrWriteHistory)
  else (set_hist_file s (HistData (json_history h)), None).

Definition addToHistory (s : Store) (entry : videoHistoryEntry)
  : Store * option error :=
  match loadHistory s with
  | Err e => (s, Some e)
  | Ok h =>
      (* Prepend new entry (most recent first) *)
      let vs := entry :: Videos h in
      (* Limit to 100 most recent entries *)
      let vs := if (100 <? length vs)%nat then take 100 vs else vs in
      saveHistory s {| Videos := vs |}
  end.

(** The loop that matches a reference against the recorded output files. *)
Fixpoint matchOutputFile (ref : string) (vs : list videoHistoryEntry)
  : option string :=
  match vs with
  | [] => None
  | v :: rest =>
      if String.eqb (OutputFile v) ref || String.eqb (Base (OutputFile v)) ref
      then Some (ID v)
      else matchOutputFile ref rest
  end.

Definition resolveRemixVideoID (s : Store) (ref : string) : result string :=
  match loadHistory s with
  | Err e => Err (ErrLoadingHistory e)
  | Ok h =>
      match Videos h with
      | [] => Err ErrNoVideos
      | first :: _ =>
          (* Handle @last shortcut *)
          if String.eqb ref "@last" then Ok (ID first)
          (* Handle @N shortcuts *)
          else if HasPrefix ref "@" then
            match Sscanf_d (TrimPrefix ref "@") with
            | None => Err (ErrInvalidIndex ref)
            | Some idx =>
                let n := Z.of_nat (length (Videos h)) in
                if (idx <? 0) || (n <=? idx) then Err (ErrIndexOutOfRange idx n)
                else match Videos h !! Z.to_nat idx with
                     | Some v => Ok (ID v)
                     | None => Err (ErrIndexOutOfRange idx n) (* not reached *)
                     end
            end
          else
            (* Try to match by output filename *)
            match matchOutputFile ref (Videos h) with
            | Some id => Ok id
            | None => Ok ref (* Assume it's a direct video ID *)
            end
      end
  end.

End HistoryStore.

(** ** Effects

    What a run does to its surroundings is recorded as a trace of events, in
    the order of the calls that cause them. *)

(** The text written to standard error, by kind. *)
Inductive Msg : Type :=
  | MInvalidSeconds (s : string)
  | MBothOrientations
  | MListLoadFailed (e : error)
  | MNoVideosInHistory
  | MListing (h : history)
  | MOutputConflict
  | MNoApiKey
  | MPromptReadFailed
  | MPromptEmpty
  | MImageFailed (e : error)
  | MResolveFailed (e : error)
  | MRemixingFrom (id : string)
  | MCreateFailed (e : error)
  | MCreatedJob (id : string)
  | MContextDone
  | MPollError (e : error)
  | MJobError (m : string)
  | MJobFailed
  | MProgressBar (p : Z)
  | MProgressBarFinish
  | MDownloading (written total : Z)
  | MDownloaded (written : Z)
  | MDownloadFailed (e : error)
  | MSaved (path : string)
  | MHistoryWarning (e : error).

(** The HTTP requests of the job client, each with its bearer credential. *)
Inductive Request : Type :=
  | PostVideos (url apiKey : string) (body : createVideoRequest)
  | GetStatus (url apiKey : string)
  | GetContent (url apiKey : string).

(** Operations on the files of the download. *)
Inductive FsOp : Type :=
  | MkdirAll (dir : string)
  | Create (path : string)
  | FWrite (path : string) (data : bytes)
  | Sync (path : string)
  | Close (path : string)
  | Rename (src dst : string)
  | Remove (path : string).

Inductive Event : Type :=
  | Stdout (data : bytes)
  | Stderr (m : Msg)
  | Net (r : Request)
  | Fs (op : FsOp)
  | HistorySaved (h : history).

(** The files of the working directory: path to contents. *)
Abbreviation FileSystem := (gmap string bytes).

(** The effect of an operation that succeeds.  An operation that fails
    causes no event; [os.Remove], whose error the program drops, is taken to
    succeed. *)
Definition fs_apply (op : FsOp) (fs : FileSystem) : FileSystem :=
  match op with
  | Create p => <[p := []]> fs
  | FWrite p data => alter (fun old => old ++ data) p fs
  | Rename src dst =>
      match fs !! src with
      | Some data => <[dst := data]> (delete src fs)
      | None => fs
      end
  | Remove p => delete p fs
  | MkdirAll _ | Sync _ | Close _ => fs
  end.

Definition fs_of_event (e : Event) (fs : FileSystem) : FileSystem :=
  match e with
  | Fs op => fs_apply op fs
  | _ => fs
  end.

(** The file system after the events of a trace, oldest first. *)
Definition replay (tr : list Event) (fs : FileSystem) : FileSystem :=
  foldl (fun fs e => fs_of_event e fs) fs tr.

(** The files and the history store.  The history file is kept apart from
    the other files: a download is taken not to be directed at it. *)
Record State := {
  st_fs : FileSystem;
  st_store : Store
}.

(** ** The monad of the controller: state, trace and [os.Exit]

    A computation takes the state and gives a value or the exit status of
    [os.Exit], the new state, and the events it caused, oldest first. *)

Inductive res (A : Type) : Type :=
  | Val (a : A)
  | Exit (code : Z).
Arguments Val {A} a.
Arguments Exit {A} code.

Definition M (A : Type) : Type := State -> res A * State * list Event.

Definition ret {A} (a : A) : M A := fun st => (Val a, st, []).

Definition bind {A B} (m : M A) (k : A -> M B) : M B :=
  fun st =>
    match m st with
    | (Val a, st', tr) =>
        match k a st' with
        | (r, st'', tr') => (r, st'', tr ++ tr')
        end
    | (Exit c, st', tr) => (Exit c, st', tr)
    end.

Declare Scope go_scope.
Delimit Scope go_scope with go.
Notation "'do' x <- m ; k" := (bind m (fun x => k))
  (at level 10, x name, m at level 100, k at level 200) : go_scope.
Notation "'run' m ; k" := (bind m (fun _ => k))
  (at level 10, m at level 100, k at level 200) : go_scope.
Local Open Scope go_scope.

Definition os_Exit {A} (code : Z) : M A := fun st => (Exit code, st, []).

Definition emit (e : Event) : M unit :=
  fun st =>
    (Val tt, {| st_fs := fs_of_event e (st_fs st); st_store := st_store st |}, [e]).

Definition get_fs : M FileSystem := fun st => (Val (st_fs st), st, []).
Definition get_store : M Store := fun st => (Val (st_store st), st, []).
Definition put_store (s : Store) : M unit :=
  fun st => (Val tt, {| st_fs := st_fs st; st_store := s |}, []).

(** [infof] and the other writes to [os.Stderr]. *)
Definition infof (m : Msg) : M unit := emit (Stderr m).

Definition when (b : bool) (m : M unit) : M unit := if b then m else ret tt.

(** ** The surroundings of a run

    What the network, the clock, the terminal and the file operations answer
    is given from outside, once for a run. *)

(** The outcome of one HTTP exchange whose body is decoded as [A]. *)
Inductive HttpResult (A : Type) : Type :=
  | BadRequest                   (* http.NewRequestWithContext fails: nothing is sent *)
  | TransportError               (* c.Do fails *)
  | Response (code : Z) (text : string) (payload : option A).
      (* status code, body as text, body decoded ([None]: not decodable) *)
Arguments BadRequest {A}.
Arguments TransportError {A}.
Arguments Response {A} code text payload.

(** One turn of the [select] of the polling loop. *)
Inductive Tick : Type :=
  | CtxDone                                       (* <-ctx.Done() *)
  | Poll (r : HttpResult videoStatusResponse).    (* <-time.After(pollInterval) *)

(** How the body of the download ends after the chunks that were copied. *)
Inductive Ending : Type :=
  | EndEOF
  | EndReadError
  | EndWriteError (partial : bytes).   (* the sink took [partial] and failed *)

Record Body := {
  chunks : list bytes;
  ending : Ending
}.

(** The request for the content extends the URL of the status request that
    has just succeeded by ["/content"]: building it is taken to succeed. *)
Inductive DownloadResult : Type :=
  | DlTransportError
  | DlResponse (code : Z) (text : string) (contentLength : Z) (body : Body).

Record World := {
  env_apiKey : string;           (* strings.TrimSpace(os.Getenv("OPENAI_API_KEY")) *)
  stdin_prompt : option string;  (* the trimmed line promptInteractive reads *)
  now : string;                  (* time.Now().UTC().Format(time.RFC3339) *)
  create_result : HttpResult createVideoResponse;
  ticks : list Tick;             (* the turns of the polling loop until the deadline *)
  download_result : DownloadResult;
  output_dir : string;           (* filepath.Dir of the output path *)
  dl_mkdir_ok : bool;
  dl_create_ok : bool;
  dl_sync_ok : bool;
  dl_close_ok : bool;
  dl_rename_ok : bool
}.

(** The command line after [flag.Parse].  The timeout and the polling
    interval act through [ticks]. *)
Record Flags := {
  prompt : string;
  output : string;
  useRemote : bool;
  model : string;
  usePro : bool;
  baseURL : string;
  imageFile : string;
  remixFrom : string;
  listHistory : bool;
  seconds : string;
  portrait : bool;
  landscape : bool
}.

(** ** The job client *)

Definition is_2xx (code : Z) : bool := negb ((code <? 200) || (300 <=? code)).

Definition has_message (e : option apiError) : bool :=
  match e with
  | Some a => negb (String.eqb (Message a) "")
  | None => false
  end.

Definition error_message (e : option apiError) : string :=
  match e with Some a => Message a | None => "" end.

Definition createVideoJob (r : HttpResult createVideoResponse)
    (baseURL apiKey model prompt : string)
    (image remixFromVideoID size seconds : option string) : M (result string) :=
  let body := {| req_Model := model; req_Prompt := prompt; req_Image := image;
                 req_RemixFromVideoID := remixFromVideoID;
                 req_Size := size; req_Seconds := seconds |} in
  let send := emit (Net (PostVideos (TrimRightSlash baseURL +:+ "/videos") apiKey body)) in
  match r with
  | BadRequest => ret (Err ErrNewRequest)
  | TransportError => run send; ret (Err ErrTransport)
  | Response code text payload =>
      run send;
      if negb (is_2xx code) then ret (Err (ErrAPI code text))
      else match payload with
           | None => ret (Err ErrDecode)
           | Some out =>
               if has_message (cr_Error out)
               then ret (Err (ErrMessage (error_message (cr_Error out))))
               else if String.eqb (cr_ID out) "" then ret (Err ErrMissingJobID)
               else ret (Ok (cr_ID out))
           end
  end.

Definition fetchVideoStatus (r : HttpResult videoStatusResponse)
    (baseURL apiKey id : string) : M (result videoStatusResponse) :=
  let send := emit (Net (GetStatus (TrimRightSlash baseURL +:+ "/videos/" +:+ id) apiKey)) in
  match r with
  | BadRequest => ret (Err ErrNewRequest)
  | TransportError => run send; ret (Err ErrTransport)
  | Response code text payload =>
      run send;
      if negb (is_2xx code) then ret (Err (ErrAPI code text))
      else match payload with
           | None => ret (Err ErrDecode)
           | Some out => ret (Ok out)
           end
  end.

(** [io.Copy(io.MultiWriter(sink, pr), resp.Body)]: every chunk goes to the
    sink and then to the progress writer, which reports on standard error. *)
Fixpoint copyChunks (sink : bytes -> Event) (total written : Z)
    (cs : list bytes) : M Z :=
  match cs with
  | [] => ret written
  | c :: rest =>
      run emit (sink c);
      let nw := written + Z.of_nat (length c) in
      run infof (MDownloading nw total);
      copyChunks sink total nw rest
  end.

Definition io_Copy (sink : bytes -> Event) (total : Z) (body : Body)
  : M (Z * option error) :=
  do written <- copyChunks sink total 0 (chunks body);
  match ending body with
  | EndEOF => ret (written, None)
  | EndReadError => ret (written, Some ErrCopyRead)
  | EndWriteError partial => run emit (sink partial); ret (written, Some ErrCopyWrite)
  end.

(** What the part of [downloadFile] after the [defer] leaves behind: the
    value of the variable [err] of the function, which the deferred
    function reads, the error the function returns, and whether [f.Close]
    was called.  Only [io.Copy] assigns [err] there; the errors of [f.Sync]
    and [f.Close] live in variables of their own [if] statements and the
    error of [os.Rename] is returned as it is. *)
Record Deferred := {
  err_var : option error;
  returned : option error;
  closed : bool
}.

Definition writeAndRename (w : World) (total : Z) (body : Body)
    (tmp outPath : string) : M Deferred :=
  do r <- io_Copy (fun data => Fs (FWrite tmp data)) total body;
  match r.2 with
  | Some e => ret {| err_var := Some e; returned := Some e; closed := false |}
  | None =>
      run infof (MDownloaded r.1);
      if negb (dl_sync_ok w)
      then ret {| err_var := None; returned := Some ErrSync; closed := false |}
      else
        run emit (Fs (Sync tmp));
        if negb (dl_close_ok w)
        then ret {| err_var := None; returned := Some ErrClose; closed := true |}
        else
          run emit (Fs (Close tmp));
          if negb (dl_rename_ok w)
          then ret {| err_var := None; returned := Some ErrRename; closed := true |}
          else
            run emit (Fs (Rename tmp outPath));
            ret {| err_var := None; returned := None; closed := true |}
  end.

Definition needs_mkdir (dir : string) : bool :=
  negb (String.eqb dir ".") && negb (String.eqb dir "").

Definition downloadFile (w : World) (apiKey downloadURL outPath : string)
  : M (option error) :=
  let send := emit (Net (GetContent downloadURL apiKey)) in
  match download_result w with
  | DlTransportError => run send; ret (Some ErrTransport)
  | DlResponse code text total body =>
      run send;
      if negb (is_2xx code) then ret (Some (ErrDownloadStatus code text))
      else if String.eqb outPath "-" then
        (* Stream to stdout; only progress to stderr *)
        do r <- io_Copy Stdout total body;
        match r.2 with
        | Some e => ret (Some e)
        | None => run infof (MDownloaded r.1); ret None
        end
      else
        (* Ensure directory exists *)
        let dir := output_dir w in
        if needs_mkdir dir && negb (dl_mkdir_ok w) then ret (Some ErrMkdirAll)
        else
          run when (needs_mkdir dir) (emit (Fs (MkdirAll dir)));
          (* Create temp file then rename for atomicity *)
          let tmp := outPath +:+ ".part" in
          if negb (dl_create_ok w) then ret (Some ErrCreate)
          else
            run emit (Fs (Create tmp));
            do d <- writeAndRename w total body tmp outPath;
            (* the deferred function *)
            run when (negb (closed d)) (emit (Fs (Close tmp)));
            (* best-effort cleanup on error *)
            run when (bool_decide (err_var d <> None)) (emit (Fs (Remove tmp)));
            ret (returned d)
  end.

(** ** Image input *)

Definition mimeTypes : gmap string string :=
  list_to_map [(".jpg", "image/jpeg"); (".jpeg", "image/jpeg"); (".png", "image/png");
               (".gif", "image/gif"); (".webp", "image/webp")].

Definition encodeImageToDataURI (fs : FileSystem) (filePath : string)
  : result string :=
  match fs !! filePath with
  | None => Err (ErrReadFile filePath)
  | Some data =>
      let ext := ToLower (Ext filePath) in
      let mimeType := default "" (mimeTypes !! ext) in
      if String.eqb mimeType "" then Err (ErrUnsupportedFormat ext)
      else Ok ("data:" +:+ mimeType +:+ ";base64," +:+ EncodeToString data)
  end.

(** ** The controller *)

Definition successStatuses : list string :=
  ["succeeded"; "completed"; "complete"; "done"; "ready"].

Definition failureStatuses : list string := ["failed"; "error"].

Definition isSuccess (status : string) : bool :=
  bool_decide (status ∈ successStatuses).

Definition isFailure (status : string) : bool :=
  bool_decide (status ∈ failureStatuses).

(** The polling loop of [main]; it yields the download URL.  When the turns
    given by the surroundings are used up the deadline of the context has
    passed. *)
Fixpoint pollLoop (baseURL apiKey jobID : string) (ts : list Tick) : M string :=
  match ts with
  | [] | CtxDone :: _ =>
      run emit (Stderr MContextDone);
      os_Exit 1
  | Poll r :: rest =>
      do st <- fetchVideoStatus r baseURL apiKey jobID;
      match st with
      | Err e =>
          run emit (Stderr (MPollError e));
          pollLoop baseURL apiKey jobID rest               (* continue *)
      | Ok st =>
          if has_message (vs_Error st) then
            run emit (Stderr (MJobError (error_message (vs_Error st))));
            os_Exit 1
          else
            (* Update progress bar *)
            run when (0 <? vs_Progress st) (emit (Stderr (MProgressBar (vs_Progress st))));
            let status := ToLower (vs_Status st) in
            if isSuccess status then
              run emit (Stderr (MProgressBar 100));
              run emit (Stderr MProgressBarFinish);
              (* Construct the content download URL *)
              ret (TrimRightSlash baseURL +:+ "/videos/" +:+ jobID +:+ "/content")
            else if isFailure status then
              run emit (Stderr MJobFailed);
              os_Exit 1
            else
              pollLoop baseURL apiKey jobID rest           (* keep polling *)
      end
  end.

Definition promptInteractive (w : World) : M (result string) :=
  run emit (Stdout (String.list_byte_of_string "Enter your video prompt: "));
  match stdin_prompt w with
  | None => ret (Err ErrReadStdin)
  | Some line => ret (Ok line)
  end.

(** [addToHistory] on the store of the run; a successful write of the
    history file is an event. *)
Definition recordHistory (entry : videoHistoryEntry) : M (option error) :=
  do s <- get_store;
  let r := addToHistory s entry in
  run put_store r.1;
  match r.2, hist_file r.1 with
  | None, HistData h => run emit (HistorySaved h); ret None
  | e, _ => ret e
  end.

Definition valid_seconds (s : string) : bool :=
  String.eqb s "4" || String.eqb s "8" || String.eqb s "12".

(** The destination of the download once the job has succeeded. *)
Definition destination (fl : Flags) (jobID : string) : string :=
  if String.eqb (output fl) "" then
    if useRemote fl then jobID +:+ ".mp4"      (* Use video ID as filename *)
    else "-"                                   (* curl-like default: write to stdout when no -o/-O *)
  else output fl.

Definition opt_nonempty (s : string) : option string :=
  if String.eqb s "" then None else Some s.

Definition history_entry (fl : Flags) (w : World)
    (jobID prompt model output : string) : videoHistoryEntry :=
  {| ID := jobID;
     Prompt := prompt;
     CreatedAt := now w;
     OutputFile := output;
     Model := model;
     ImageInput := opt_nonempty (imageFile fl);
     RemixedFrom := opt_nonempty (remixFrom fl) |}.

(** [main] once the job has its identifier: polling, download, history. *)
Definition trackJob (fl : Flags) (w : World) (apiKey model prompt jobID : string)
  : M unit :=
  (* Poll for completion *)
  do downloadURL <- pollLoop (baseURL fl) apiKey jobID (ticks w);
  (* DOWNLOAD: *)
  let output := destination fl jobID in
  do err <- downloadFile w apiKey downloadURL output;
  match err with
  | Some e => run emit (Stderr (MDownloadFailed e)); os_Exit 1
  | None =>
      run when (negb (String.eqb output "-")) (infof (MSaved output));
      (* Save to history *)
      do err <- recordHistory (history_entry fl w jobID prompt model output);
      match err with
      | Some e => infof (MHistoryWarning e)    (* Non-fatal: just warn *)
      | None => ret tt
      end
  end.

(** [main] from the submission of the job on. *)
Definition submitAndTrack (fl : Flags) (w : World) (apiKey model prompt : string)
    (imageDataURI remixVideoID sizeParam secondsParam : option string) : M unit :=
  do job <- createVideoJob (create_result w) (baseURL fl) apiKey model prompt
              imageDataURI remixVideoID sizeParam secondsParam;
  match job with
  | Err e => run emit (Stderr (MCreateFailed e)); os_Exit 1
  | Ok jobID =>
      run infof (MCreatedJob jobID);
      trackJob fl w apiKey model prompt jobID
  end.

(** The prompt of the run: the flag, or the line typed when it is empty. *)
Definition readPrompt (fl : Flags) (w : World) : M string :=
  if String.eqb (prompt fl) "" then
    do p <- promptInteractive w;
    match p with
    | Err _ => run emit (Stderr MPromptReadFailed); os_Exit 1
    | Ok p =>
        if String.eqb p "" then run emit (Stderr MPromptEmpty); os_Exit 1
        else ret p
    end
  else ret (prompt fl).

(** Process image file if provided. *)
Definition processImage (fl : Flags) : M (option string) :=
  if negb (String.eqb (imageFile fl) "") then
    do fs <- get_fs;
    match encodeImageToDataURI fs (imageFile fl) with
    | Err e => run emit (Stderr (MImageFailed e)); os_Exit 1
    | Ok dataURI => ret (Some dataURI)
    end
  else ret None.

(** Resolve remix reference if provided. *)
Definition resolveRemix (fl : Flags) : M (option string) :=
  if negb (String.eqb (remixFrom fl) "") then
    do s <- get_store;
    match resolveRemixVideoID s (remixFrom fl) with
    | Err e => run emit (Stderr (MResolveFailed e)); os_Exit 1
    | Ok resolvedID => run infof (MRemixingFrom resolvedID); ret (Some resolvedID)
    end
  else ret None.

(** [main] from the loading of the credential on. *)
Definition generate (fl : Flags) (w : World) (model videoSize : string) : M unit :=
  let apiKey := env_apiKey w in
  if String.eqb apiKey "" then
    run emit (Stderr MNoApiKey); os_Exit 1
  else
    do prompt <- readPrompt fl w;
    do imageDataURI <- processImage fl;
    do remixVideoID <- resolveRemix fl;
    (* Prepare optional parameters *)
    let sizeParam := opt_nonempty videoSize in
    let secondsParam := opt_nonempty (seconds fl) in
    submitAndTrack fl w apiKey model prompt imageDataURI remixVideoID sizeParam secondsParam.

Definition main (fl : Flags) (w : World) : M unit :=
  (* Validate seconds *)
  if negb (valid_seconds (seconds fl)) then
    run emit (Stderr (MInvalidSeconds (seconds fl))); os_Exit 2
  else
    (* Override model if --pro is set *)
    let model := if usePro fl then "sora-2-pro" else model fl in
    (* Determine video size *)
    if portrait fl && landscape fl then
      run emit (Stderr MBothOrientations); os_Exit 2
    else
      let videoSize := if portrait fl then "720x1280" else "1280x720" in
      (* Handle --list command *)
      if listHistory fl then
        do s <- get_store;
        match loadHistory s with
        | Err e => run emit (Stderr (MListLoadFailed e)); os_Exit 1
        | Ok h =>
            if (length (Videos h) =? 0)%nat then
              run emit (Stderr MNoVideosInHistory); os_Exit 0
            else
              run emit (Stderr (MListing h)); os_Exit 0
        end
      (* Disallow combining -o/--output with -O, like curl *)
      else if negb (String.eqb (output fl) "") && useRemote fl then
        run emit (Stderr MOutputConflict); os_Exit 2
      else generate fl w model videoSize.

(** A run from an initial file system and store. *)
Definition initial (fs : FileSystem) (s : Store) : State :=
  {| st_fs := fs; st_store := s |}.


Definition result_of {A} (x : res A * State * list Event) : res A := x.1.1.
Definition state_of {A} (x : res A * State * list Event) : State := x.1.2.
Definition trace_of {A} (x : res A * State * list Event) : list Event := x.2.

Definition run_main (fl : Flags) (w : World) (fs : FileSystem) (s : Store)
  : res unit * State * list Event :=
  main fl w (initial fs s).

(** ** Observations on traces *)

Definition is_net (e : Event) : bool :=
  match e with Net _ => true | _ => false end.

Definition is_download (e : Event) : bool :=
  match e with Net (GetContent _ _) => true | _ => false end.

Definition is_history_write (e : Event) : bool :=
  match e with HistorySaved _ => true | _ => false end.

Definition is_fs (e : Event) : bool :=
  match e with Fs _ => true | _ => false end.

Definition count (p : Event -> bool) (tr : list Event) : nat :=
  length (filter (fun e => p e = true) tr).

(** The bytes written to standard output, in order. *)
Definition stdout_of (tr : list Event) : bytes :=
  concat (omap (fun e => match e with Stdout d => Some d | _ => None end) tr).

(** The requests sent, in order. *)
Definition requests_of (tr : list Event) : list Request :=
  omap (fun e => match e with Net r => Some r | _ => None end) tr.

(** ** Reference tokens *)

(** [ds] is a decimal numeral, without sign, that denotes [n]. *)
Definition numeral (ds : string) (n : Z) : Prop :=
  ds <> EmptyString /\ parse_digits 0 ds = Some n.

(** ** Sample data *)

Definition sample_entry (id out : string) : videoHistoryEntry :=
  {| ID := id; Prompt := "a kite"; CreatedAt := "2025-01-01T00:00:00Z";
     OutputFile := out; Model := "sora-2"; ImageInput := None; RemixedFrom := None |}.

Definition sample_store (f : HistFile) : Store :=
  {| home_ok := true; hist_file := f; mkdir_ok := true; write_ok := true;
     failed_write := Some HistCorrupt |}.

Definition two_videos : history :=
  {| Videos := [sample_entry "video_b" "out/b.mp4"; sample_entry "video_a" "-"] |}.

(** A history whose most recent video was saved under the name ["@1"]. *)
Definition at_named : history :=
  {| Videos := [sample_entry "video_b" "@1"; sample_entry "video_a" "-"] |}.

(** A store that holds 100 entries, the oldest last. *)
Definition full_history : history :=
  {| Videos := replicate 99 (sample_entry "video_kept" "kept.mp4")
               ++ [sample_entry "video_oldest" "oldest.mp4"] |}.

(** ** The statuses and the turns of the polling loop *)

(** The status is a word of the vocabulary once it is in lower case, the
    test of the polling loop. *)
Definition names (status : string) (vocabulary : list string) : Prop :=
  ToLower status ∈ vocabulary.

(** Equality of strings up to the case of the ASCII letters. *)
Fixpoint same_letters (s t : string) : bool :=
  match s, t with
  | EmptyString, EmptyString => true
  | String a s', String b t' =>
      Ascii.eqb (lower_ascii a) (lower_ascii b) && same_letters s' t'
  | _, _ => false
  end.

(** A status with the dotted capital I, U+0130, in place of the letter I:
    the bytes of [FA], of U+0130 and of [LED]. *)
Definition dotted_FAILED : string := of_bytes [70; 65; 196; 176; 76; 69; 68].

(** The exchange brought a status response: a 2xx answer that decodes. *)
Definition answers (r : HttpResult videoStatusResponse) (st : videoStatusResponse) : Prop :=
  exists code text, r = Response code text (Some st) /\ 200 <= code < 300.

(** The poll failed: no request could be built, the transport failed, the
    answer was not 2xx or did not decode. *)
Definition poll_fails (r : HttpResult videoStatusResponse) : Prop :=
  forall st, ~ answers r st.

(** The job-level error field carries a message. *)
Definition reports_error (st : videoStatusResponse) (m : string) : Prop :=
  exists a, vs_Error st = Some a /\ Message a = m /\ m <> "".

Definition no_error_message (st : videoStatusResponse) : Prop :=
  forall a, vs_Error st = Some a -> Message a = "".

(** A turn after which the loop goes on: a failed poll, or a status that is
    in neither vocabulary and has no error message. *)
Definition pending (t : Tick) : Prop :=
  exists r, t = Poll r /\
    (poll_fails r \/
     exists st, answers r st /\ no_error_message st /\
       ~ names (vs_Status st) successStatuses /\ ~ names (vs_Status st) failureStatuses).

(** The outcome of a computation with events put in front of its trace. *)
Definition after_events {A} (tr : list Event) (x : res A * State * list Event)
  : res A * State * list Event :=
  (x.1.1, x.1.2, tr ++ x.2).

Definition is_progress (e : Event) : bool :=
  match e with Stderr (MProgressBar _) => true | _ => false end.

Definition is_stderr (e : Event) : bool :=
  match e with Stderr _ => true | _ => false end.

(** ** Traces, as the properties describe them *)

Fixpoint copy_events (sink : bytes -> Event) (total written : Z) (cs : list bytes)
  : list Event :=
  match cs with
  | [] => []
  | c :: rest =>
      let nw := written + Z.of_nat (length c) in
      sink c :: Stderr (MDownloading nw total) :: copy_events sink total nw rest
  end.

Definition body_size (cs : list bytes) : Z := Z.of_nat (length (concat cs)).

Definition ending_events (sink : bytes -> Event) (e : Ending) : list Event :=
  match e with
  | EndWriteError partial => [sink partial]
  | _ => []
  end.

Definition ending_error (e : Ending) : option error :=
  match e with
  | EndEOF => None
  | EndReadError => Some ErrCopyRead
  | EndWriteError _ => Some ErrCopyWrite
  end.

Definition io_Copy_events (sink : bytes -> Event) (total : Z) (body : Body) : list Event :=
  copy_events sink total 0 (chunks body) ++ ending_events sink (ending body).

Definition with_fs (s : State) (fs : FileSystem) : State :=
  {| st_fs := fs; st_store := st_store s |}.

Definition quiet (e : Event) : Prop := is_net e = false /\ is_history_write e = false.

(** A computation that returns, leaves the history store alone and causes
    only events that satisfy [P]. *)
Definition tame_by (P : Event -> Prop) {A} (m : M A) : Prop :=
  forall s, exists a tr,
    m s = (Val a, with_fs s (replay tr (st_fs s)), tr) /\ Forall P tr.

Abbreviation tame := (tame_by quiet).

(** An event that touches no file but [tmp]. *)
Definition confined (tmp : string) (e : Event) : Prop :=
  match e with
  | Fs (Create p) | Fs (FWrite p _) | Fs (Sync p) | Fs (Close p) | Fs (Remove p) =>
      p = tmp
  | Fs (Rename _ _) => False
  | _ => True
  end.

(** The events of a turn of the polling loop that goes on: status requests
    and text on standard error. *)
Definition polling_only (status_request : Event) (tr : list Event) : Prop :=
  Forall (fun e => e = status_request \/ is_stderr e = true) tr.

Definition bar_events (progress : Z) : list Event :=
  if 0 <? progress then [Stderr (MProgressBar progress)] else [].

Definition is_content (r : Request) : bool :=
  match r with GetContent _ _ => true | _ => false end.

Definition sample_flags : Flags :=
  {| prompt := "a kite over the dunes"; output := ""; useRemote := false;
     model := "sora-2"; usePro := false; baseURL := "https://api.openai.com/v1/";
     imageFile := ""; remixFrom := ""; listHistory := false;
     seconds := "12"; portrait := false; landscape := false |}.

Definition sample_status (status : string) (progress : Z) : videoStatusResponse :=
  {| vs_ID := "video_1"; vs_Status := status; vs_Error := None; vs_Progress := progress |}.

Definition sample_body : Body :=
  {| chunks := [[x00; x00; x00; x18]; [x66; x74; x79; x70]]; ending := EndEOF |}.

Definition sample_world (ts : list Tick) : World :=
  {| env_apiKey := "sk-key";
     stdin_prompt := None;
     now := "2025-01-02T03:04:05Z";
     create_result :=
       Response 200 "" (Some {| cr_ID := "video_1"; cr_Status := "queued"; cr_Error := None |});
     ticks := ts;
     download_result := DlResponse 200 "" 8 sample_body;
     output_dir := ".";
     dl_mkdir_ok := true; dl_create_ok := true; dl_sync_ok := true;
     dl_close_ok := true; dl_rename_ok := true |}.

Definition sample_state : State := initial ∅ (sample_store HistMissing).

(** The download answers with the whole [body] and every file operation
    succeeds. *)
Definition download_succeeds (w : World) (total : Z) (body : Body) : Prop :=
  (exists code text, download_result w = DlResponse code text total body /\
                     200 <= code < 300) /\
  ending body = EndEOF /\
  needs_mkdir (output_dir w) && negb (dl_mkdir_ok w) = false /\
  dl_create_ok w = true /\ dl_sync_ok w = true /\
  dl_close_ok w = true /\ dl_rename_ok w = true.

(** The polling ends with a status of the success vocabulary. *)
Definition polling_succeeds (w : World) : Prop :=
  exists pre r st rest,
    ticks w = pre ++ Poll r :: rest /\ Forall pending pre /\
    answers r st /\ no_error_message st /\ names (vs_Status st) successStatuses.

Definition mkdir_events (dir : string) : list Event :=
  if needs_mkdir dir then [Fs (MkdirAll dir)] else [].

(** The events of a download to a named file in which nothing fails. *)
Definition file_download_events (w : World) (total : Z) (body : Body)
    (outPath : string) : list Event :=
  let tmp := outPath +:+ ".part" in
  mkdir_events (output_dir w)
  ++ Fs (Create tmp) :: io_Copy_events (fun data => Fs (FWrite tmp data)) total body
  ++ [Stderr (MDownloaded (body_size (chunks body)));
      Fs (Sync tmp); Fs (Close tmp); Fs (Rename tmp outPath)].

(** The events of the download by destination, when nothing fails. *)
Definition download_events (w : World) (total : Z) (body : Body) (outPath : string)
  : list Event :=
  if String.eqb outPath "-" then
    io_Copy_events Stdout total body ++ [Stderr (MDownloaded (body_size (chunks body)))]
  else file_download_events w total body outPath.

(** Text on standard error and writes of the history: the events around the
    download. *)
Definition report_only (tr : list Event) : Prop :=
  Forall (fun e => is_stderr e = true \/ is_history_write e = true) tr.

(** ** Image geometry

    The width and height that the header of a PNG file declares: the
    signature, then the IHDR chunk with two big-endian 32-bit numbers. *)

Definition png_signature : bytes := [x89; x50; x4e; x47; x0d; x0a; x1a; x0a].
Definition png_IHDR : bytes := [x49; x48; x44; x52].

Definition be32 (b3 b2 b1 b0 : byte) : Z :=
  Z.of_N (((Byte.to_N b3 * 256 + Byte.to_N b2) * 256 + Byte.to_N b1) * 256 + Byte.to_N b0).

Fixpoint bytes_eqb (a b : bytes) : bool :=
  match a, b with
  | [], [] => true
  | x :: a', y :: b' => Byte.eqb x y && bytes_eqb a' b'
  | _, _ => false
  end.

Definition pngDims (data : bytes) : option (Z * Z) :=
  if bytes_eqb (take 8 data) png_signature
     && bytes_eqb (take 4 (drop 12 data)) png_IHDR
  then match drop 16 data with
       | w3 :: w2 :: w1 :: w0 :: h3 :: h2 :: h1 :: h0 :: _ =>
           Some (be32 w3 w2 w1 w0, be32 h3 h2 h1 h0)
       | _ => None
       end
  else None.

(** A PNG file of one pixel. *)
Definition tiny_png : bytes :=
  [x89; x50; x4e; x47; x0d; x0a; x1a; x0a; x00; x00; x00; x0d; x49; x48; x44; x52;
   x00; x00; x00; x01; x00; x00; x00; x01; x08; x06; x00; x00; x00; x1f; x15; xc4;
   x89; x00; x00; x00; x0b; x49; x44; x41; x54; x78; x9c; x63; x60; x00; x02; x00;
   x00; x05; x00; x01; x7a; x5e; xab; x3f; x00; x00; x00; x00; x49; x45; x4e; x44;
   xae; x42; x60; x82].

Definition tiny_png_base64 : string :=
  "iVBORw0KGgoAAAANSUhEUgAAAAEAAAABCAYAAAAfFcSJAAAAC0lEQVR4nGNgAAIAAAUAAXpeqz8AAAAASUVORK5CYII=".

Definition b64_checks (n : nat) : bool :=
  let i := N.of_nat n in
  match b64_index (b64_char i) with
  | Some j => N.eqb j i
  | None => false
  end && negb (Ascii.eqb (b64_char i) pad).

(** ** The request of [main], as the properties describe it *)

(** The model and the size that [main] derives from the flags. *)
Definition effective_model (fl : Flags) : string :=
  if usePro fl then "sora-2-pro" else model fl.

Definition effective_size (fl : Flags) : string :=
  if portrait fl then "720x1280" else "1280x720".

(** The flag combinations that [main] refuses with status 2. *)
Definition refused_flags (fl : Flags) : Prop :=
  valid_seconds (seconds fl) = false \/
  portrait fl && landscape fl = true \/
  (listHistory fl = false /\ output fl <> "" /\ useRemote fl = true).

(** The checks of [main] before the image and the remix reference: the
    flags are accepted, no listing is asked for, the credential is there,
    and there is a prompt, given or typed. *)
Definition ready (fl : Flags) (w : World) : Prop :=
  valid_seconds (seconds fl) = true /\
  portrait fl && landscape fl = false /\
  listHistory fl = false /\
  negb (String.eqb (output fl) "") && useRemote fl = false /\
  env_apiKey w <> "" /\
  (prompt fl <> "" \/ exists line, stdin_prompt w = Some line /\ line <> "").

(** A computation that causes no request. *)
Definition no_request (tr : list Event) : Prop := requests_of tr = [].

(** ** Downloads that fail after the body is written *)

(** The body is complete in the temporary file and [f.Sync], [f.Close] or
    [os.Rename] fails. *)
Definition fails_after_copy (w : World) (total : Z) (body : Body) : Prop :=
  (exists code text, download_result w = DlResponse code text total body /\
                     200 <= code < 300) /\
  ending body = EndEOF /\
  needs_mkdir (output_dir w) && negb (dl_mkdir_ok w) = false /\
  dl_create_ok w = true /\
  dl_sync_ok w && dl_close_ok w && dl_rename_ok w = false.

(** What follows the copy then: the calls that succeed before the one that
    fails, and the [f.Close] of the deferred function when the file is still
    open. *)
Definition after_copy_events (w : World) (tmp : string) : list Event :=
  if negb (dl_sync_ok w) then [Fs (Close tmp)]
  else if negb (dl_close_ok w) then [Fs (Sync tmp)]
  else [Fs (Sync tmp); Fs (Close tmp)].

Definition after_copy_error (w : World) : error :=
  if negb (dl_sync_ok w) then ErrSync
  else if negb (dl_close_ok w) then ErrClose
  else ErrRename.

Definition unfinished_download_events (w : World) (total : Z) (body : Body)
    (outPath : string) : list Event :=
  let tmp := outPath +:+ ".part" in
  mkdir_events (output_dir w)
  ++ Fs (Create tmp) :: io_Copy_events (fun data => Fs (FWrite tmp data)) total body
  ++ Stderr (MDownloaded (body_size (chunks body))) :: after_copy_events w tmp.

Definition is_remove (e : Event) : bool :=
  match e with Fs (Remove _) => true | _ => false end.

(** The surroundings of the samples with chosen outcomes of [f.Sync],
    [f.Close] and [os.Rename] and a chosen body. *)
Definition download_world (sync_ok close_ok rename_ok : bool) (body : Body) : World :=
  {| env_apiKey := "sk-key";
     stdin_prompt := None;
     now := "2025-01-02T03:04:05Z";
     create_result :=
       Response 200 "" (Some {| cr_ID := "video_1"; cr_Status := "queued"; cr_Error := None |});
     ticks := [];
     download_result := DlResponse 200 "" 8 body;
     output_dir := ".";
     dl_mkdir_ok := true; dl_create_ok := true; dl_sync_ok := sync_ok;
     dl_close_ok := close_ok; dl_rename_ok := rename_ok |}.

(** The events of a download to a named file whose copy fails: the
    deferred function closes the temporary file and removes it. *)
Definition interrupted_download_events (w : World) (total : Z) (body : Body)
    (outPath : string) : list Event :=
  let tmp := outPath +:+ ".part" in
  mkdir_events (output_dir w)
  ++ Fs (Create tmp) :: io_Copy_events (fun data => Fs (FWrite tmp data)) total body
  ++ [Fs (Close tmp); Fs (Remove tmp)].

(** ** Reference tokens and sequences of additions *)

(** A letter of the ASCII alphabet. *)
Definition is_letter (c : ascii) : bool :=
  let n := N_of_ascii c in
  ((65 <=? n)%N && (n <=? 90)%N) || ((97 <=? n)%N && (n <=? 122)%N).

(** The store after [addToHistory] for each entry of [es] in turn. *)
Definition addAll (s : Store) (es : list videoHistoryEntry) : Store :=
  foldl (fun s e => (addToHistory s e).1) s es.

(** The entry recorded matches the reference by its output file. *)
Definition file_matches (ref : string) (v : videoHistoryEntry) : Prop :=
  OutputFile v = ref \/ Base (OutputFile v) = ref.

(** ** The events of a whole run, as the properties describe them *)

Definition prompt_text : bytes :=
  String.list_byte_of_string "Enter your video prompt: ".

(** What asking for the prompt writes: nothing when [--prompt] is given. *)
Definition prompt_events (fl : Flags) : list Event :=
  if String.eqb (prompt fl) "" then [Stdout prompt_text] else [].

(** The prompt of the run: the flag, or the line typed. *)
Definition effective_prompt (fl : Flags) (w : World) : string :=
  if String.eqb (prompt fl) "" then default "" (stdin_prompt w) else prompt fl.

Definition remix_events (remix : option string) : list Event :=
  match remix with
  | Some id => [Stderr (MRemixingFrom id)]
  | None => []
  end.

Definition saved_events (out : string) : list Event :=
  if String.eqb out "-" then [] else [Stderr (MSaved out)].

(** What follows [addToHistory] with result [r]: the write of the history
    when it succeeded, the warning when it failed. *)
Definition history_events (r : Store * option error) : list Event :=
  match r.2, hist_file r.1 with
  | None, HistData h => [HistorySaved h]
  | Some e, _ => [Stderr (MHistoryWarning e)]
  | None, _ => []
  end.

(** The parameters that [main] derives before the submission. *)
Definition image_param (fl : Flags) (fs : FileSystem) : result (option string) :=
  if String.eqb (imageFile fl) "" then Ok None
  else match encodeImageToDataURI fs (imageFile fl) with
       | Ok uri => Ok (Some uri)
       | Err e => Err e
       end.

Definition remix_param (fl : Flags) (st : Store) : result (option string) :=
  if String.eqb (remixFrom fl) "" then Ok None
  else match resolveRemixVideoID st (remixFrom fl) with
       | Ok id => Ok (Some id)
       | Err e => Err e
       end.

(** The submission of [main]. *)
Definition submission (fl : Flags) (w : World) (img remix : option string) : Request :=
  PostVideos (TrimRightSlash (baseURL fl) +:+ "/videos") (env_apiKey w)
    {| req_Model := effective_model fl; req_Prompt := effective_prompt fl w;
       req_Image := img; req_RemixFromVideoID := remix;
       req_Size := Some (effective_size fl); req_Seconds := Some (seconds fl) |}.

(** The submission is answered with the identifier of a job. *)
Definition creation_succeeds (w : World) (jobID : string) : Prop :=
  exists code text out,
    create_result w = Response code text (Some out) /\ 200 <= code < 300 /\
    (forall a, cr_Error out = Some a -> Message a = "") /\
    cr_ID out = jobID /\ jobID <> "".

(** The requests of a job once it is submitted. *)
Definition status_url (fl : Flags) (jobID : string) : string :=
  TrimRightSlash (baseURL fl) +:+ "/videos/" +:+ jobID.

Definition content_url (fl : Flags) (jobID : string) : string :=
  TrimRightSlash (baseURL fl) +:+ "/videos/" +:+ jobID +:+ "/content".

(** Text on standard error, or the prompt text on standard output. *)
Definition is_talk (e : Event) : Prop :=
  is_stderr e = true \/ e = Stdout prompt_text.

(** The run gets as far as sending the submission: the flags are accepted,
    the credential is there, there is a prompt, the image can be encoded,
    the remix reference resolves, and the request can be built. *)
Definition submits (fl : Flags) (w : World) (fs : FileSystem) (st : Store) : Prop :=
  ready fl w /\
  (exists img, image_param fl fs = Ok img) /\
  (exists remix, remix_param fl st = Ok remix) /\
  create_result w <> BadRequest.

(** The flags with another base URL. *)
Definition with_baseURL (fl : Flags) (b : string) : Flags :=
  {| prompt := prompt fl; output := output fl; useRemote := useRemote fl;
     model := model fl; usePro := usePro fl; baseURL := b;
     imageFile := imageFile fl; remixFrom := remixFrom fl;
     listHistory := listHistory fl; seconds := seconds fl;
     portrait := portrait fl; landscape := landscape fl |}.

(** What the sink has taken of a body when the copy ends. *)
Definition copied (body : Body) : bytes :=
  concat (chunks body)
  ++ match ending body with
     | EndWriteError partial => partial
     | _ => []
     end.

(** ** [humanBytes] *)

Section HumanBytes.

(** [float64(n)] for an [int64]: the nearest number with 53 significant
    bits, ties to even.  It is again an integer. *)
Definition float64_of_int64 (n : Z) : Z :=
  let a := Z.abs n in
  let bits := Z.log2 a + 1 in
  if bits <=? 53 then n
  else
    let shift := bits - 53 in
    let q := Z.shiftr a shift in
    let r := a - Z.shiftl q shift in
    let half := 2 ^ (shift - 1) in
    let q' := if (half <? r) || ((r =? half) && Z.odd q) then q + 1 else q in
    Z.sgn n * Z.shiftl q' shift.

Definition units : list string := ["B"; "KiB"; "MiB"; "GiB"; "TiB"].

(** The loop over the units.  The variable [size] holds [num / den], where
    [den] is a power of 1024: dividing a [float64] by 1024 is exact. *)
Fixpoint humanBytes_loop (num den : Z) (us : list string) : Z * Z * string :=
  match us with
  | [] => (num, den, "TiB")
  | unit :: rest =>
      if num <? 1024 * den then (num, den, unit)      (* size < 1024 *)
      else humanBytes_loop num (1024 * den) rest      (* size /= 1024 *)
  end.

(** The nearest integer to [num / den], ties to even. *)
Definition round_half_even (num den : Z) : Z :=
  let q := num / den in
  let r := num mod den in
  if (den <? 2 * r) || ((2 * r =? den) && Z.odd q) then q + 1 else q.

(** The number that [%.1f] prints, in tenths, and the unit beside it. *)
Definition humanBytes_parts (n : Z) : Z * string :=
  match humanBytes_loop (float64_of_int64 n) 1 units with
  | (num, den, unit) => (round_half_even (10 * num) den, unit)
  end.

(** [fmt.Sprintf("%.1f %s", size, unit)]. *)
Definition format_tenths (tenths : Z) (unit : string) : string :=
  (if tenths <? 0 then "-" else "")
  +:+ pretty (Z.to_N (Z.abs tenths / 10)) +:+ "."
  +:+ pretty (Z.to_N (Z.abs tenths mod 10)) +:+ " " +:+ unit.

Definition humanBytes (n : Z) : string :=
  format_tenths (humanBytes_parts n).1 (humanBytes_parts n).2.

(** The tenths [t] are the nearest to [n / scale]. *)
Definition nearest_tenths (t n scale : Z) : Prop :=
  2 * Z.abs (10 * n - t * scale) <= scale.

End HumanBytes.

(** * Properties *)

Example ToLower_ex : ToLower "SucCeeded" = "succeeded".
Proof. reflexivity. Qed.

(** The dotted capital I, U+0130, has the letter [i] as its lower case;
    the Kelvin sign, U+212A, has [k]; a byte that is no text comes out as
    U+FFFD. *)
Example ToLower_unicode_ex :
  (ToLower dotted_FAILED, ToLower (of_bytes [226; 132; 170; 79]),
   ToLower (of_bytes [79; 75; 255]))
  = ("failed", "ko", of_bytes [111; 107; 239; 191; 189]).
Proof. vm_compute. reflexivity. Qed.

Example TrimRightSlash_ex : TrimRightSlash "https://api/v1//" = "https://api/v1".
Proof. reflexivity. Qed.

Example Base_ex :
  (Base "out/clip.mp4", Base "clip.mp4", Base "a/b/", Base "", Base "///")
  = ("clip.mp4", "clip.mp4", "b", ".", "/").
Proof. reflexivity. Qed.

Example Ext_ex :
  (Ext "a/b.tar.GZ", Ext "a.b/c", Ext "photo.png", Ext ".png")
  = (".GZ", "", ".png", ".png").
Proof. reflexivity. Qed.

(** The scan stops at the first character that is no digit, an underscore
    included. *)
Example Sscanf_d_ex :
  (Sscanf_d "12", Sscanf_d " +7x", Sscanf_d "-3", Sscanf_d "", Sscanf_d "x1",
   Sscanf_d "1_0", Sscanf_d "9223372036854775807", Sscanf_d "9223372036854775808")
  = (Some 12, Some 7, Some (-3), None, None, Some 1, Some 9223372036854775807, None).
Proof. vm_compute. reflexivity. Qed.

(** The no-break space, U+00A0, and the ideographic space, U+3000, are
    skipped before the number; a newline is an error. *)
Example Sscanf_d_space_ex :
  (Sscanf_d (of_bytes [194; 160; 49]), Sscanf_d (of_bytes [227; 128; 128; 32; 50]),
   Sscanf_d (of_bytes [10; 49]), Sscanf_d (of_bytes [13; 51]))
  = (Some 1, Some 2, None, Some 3).
Proof. vm_compute. reflexivity. Qed.

(** A byte that is no text is written to the history as U+FFFD. *)
Example json_string_ex :
  (json_string "kite", json_string (of_bytes [99; 97; 102; 233]),
   json_string (of_bytes [99; 97; 102; 195; 169]))
  = ("kite", of_bytes [99; 97; 102; 239; 191; 189], of_bytes [99; 97; 102; 195; 169]).
Proof. vm_compute. reflexivity. Qed.

(** ** UTF-8 *)

Section UTF8Properties.

Lemma byte_val_range c : 0 <= byte_val c < 256.
Proof.
  unfold byte_val. pose proof (N_ascii_bounded c) as H. lia.
Qed.

Lemma byte_val_chr b : 0 <= b < 256 -> byte_val (byte_chr b) = b.
Proof.
  intros Hb. unfold byte_val, byte_chr.
  rewrite N_ascii_embedding by lia. lia.
Qed.

Lemma byte_chr_val c : byte_chr (byte_val c) = c.
Proof.
  unfold byte_val, byte_chr. rewrite N2Z.id. apply ascii_N_embedding.
Qed.

Lemma between_spec lo hi b : between lo hi b = true <-> lo <= b <= hi.
Proof. unfold between. rewrite andb_true_iff, !Z.leb_le. done. Qed.

Lemma between_false lo hi b : between lo hi b = false <-> b < lo \/ hi < b.
Proof.
  unfold between. rewrite andb_false_iff, !Z.leb_gt. tauto.
Qed.

Lemma ValidRune_spec r :
  ValidRune r = true <-> 0 <= r <= 55295 \/ 57344 <= r <= MaxRune.
Proof. unfold ValidRune. rewrite orb_true_iff, !between_spec. done. Qed.

Lemma string_app_cons a s t : String a s +:+ t = String a (s +:+ t).
Proof. reflexivity. Qed.

Lemma string_app_nil t : EmptyString +:+ t = t.
Proof. reflexivity. Qed.

(** The step of [runes] at each of the encodings. *)
Lemma runes_1 c0 r0 :
  byte_val c0 < 128 -> runes (String c0 r0) = byte_val c0 :: runes r0.
Proof.
  intros H. cbn [runes]. cbv zeta.
  destruct (Z.ltb_spec (byte_val c0) 128); [done | lia].
Qed.

Lemma runes_2 c0 c1 r1 :
  accept2 (byte_val c0) (byte_val c1) = true ->
  runes (String c0 (String c1 r1)) = rune2 (byte_val c0) (byte_val c1) :: runes r1.
Proof.
  intros H. cbn [runes]. cbv zeta. rewrite H.
  destruct (Z.ltb_spec (byte_val c0) 128) as [Hlt|]; [| done].
  unfold accept2 in H. apply andb_true_iff in H as [H _].
  apply between_spec in H. lia.
Qed.

Lemma runes_3 c0 c1 c2 r2 :
  accept3 (byte_val c0) (byte_val c1) (byte_val c2) = true ->
  runes (String c0 (String c1 (String c2 r2)))
  = rune3 (byte_val c0) (byte_val c1) (byte_val c2) :: runes r2.
Proof.
  intros H. cbn [runes]. cbv zeta. rewrite H.
  assert (H0 : 224 <= byte_val c0 <= 239).
  { unfold accept3 in H. rewrite !andb_true_iff in H. apply between_spec. tauto. }
  destruct (Z.ltb_spec (byte_val c0) 128) as [Hlt|]; [lia |].
  assert (H2 : accept2 (byte_val c0) (byte_val c1) = false).
  { unfold accept2. apply andb_false_iff. left. apply between_false. lia. }
  by rewrite H2.
Qed.

Lemma runes_4 c0 c1 c2 c3 r3 :
  accept4 (byte_val c0) (byte_val c1) (byte_val c2) (byte_val c3) = true ->
  runes (String c0 (String c1 (String c2 (String c3 r3))))
  = rune4 (byte_val c0) (byte_val c1) (byte_val c2) (byte_val c3) :: runes r3.
Proof.
  intros H. cbn [runes]. cbv zeta. rewrite H.
  assert (H0 : 240 <= byte_val c0 <= 244).
  { unfold accept4 in H. rewrite !andb_true_iff in H. apply between_spec. tauto. }
  destruct (Z.ltb_spec (byte_val c0) 128) as [Hlt|]; [lia |].
  assert (H2 : accept2 (byte_val c0) (byte_val c1) = false).
  { unfold accept2. apply andb_false_iff. left. apply between_false. lia. }
  assert (H3 : accept3 (byte_val c0) (byte_val c1) (byte_val c2) = false).
  { unfold accept3. rewrite !andb_false_iff. left. left. apply between_false. lia. }
  by rewrite H2, H3.
Qed.

(** The runes that decoding accepts are valid. *)
Lemma rune2_valid b0 b1 : accept2 b0 b1 = true -> 128 <= rune2 b0 b1 <= 2047.
Proof.
  unfold accept2, is_cont, rune2. rewrite andb_true_iff, !between_spec. lia.
Qed.

Lemma rune3_valid b0 b1 b2 :
  accept3 b0 b1 b2 = true ->
  2048 <= rune3 b0 b1 b2 <= 65535 /\ ValidRune (rune3 b0 b1 b2) = true.
Proof.
  unfold accept3, is_cont, rune3. rewrite !andb_true_iff, !between_spec.
  rewrite ValidRune_spec. unfold MaxRune.
  intros ((H0 & H1) & H2).
  destruct (Z.eqb_spec b0 224), (Z.eqb_spec b0 237); lia.
Qed.

Lemma rune4_valid b0 b1 b2 b3 :
  accept4 b0 b1 b2 b3 = true -> 65536 <= rune4 b0 b1 b2 b3 <= MaxRune.
Proof.
  unfold accept4, is_cont, rune4, MaxRune. rewrite !andb_true_iff, !between_spec.
  intros (((H0 & H1) & H2) & H3).
  destruct (Z.eqb_spec b0 240), (Z.eqb_spec b0 244); lia.
Qed.

(** What [runes] takes from the front of a string. *)
Lemma runes_step c0 r0 :
  exists r rest,
    runes (String c0 r0) = r :: runes rest /\ ValidRune r = true /\
    (String.length rest <= String.length r0)%nat.
Proof.
  cbn [runes]. cbv zeta.
  destruct (Z.ltb_spec (byte_val c0) 128) as [Hlt | Hge].
  { exists (byte_val c0), r0. split; [done |]. split; [| lia].
    apply ValidRune_spec. pose proof (byte_val_range c0). lia. }
  assert (Herr : exists r rest, RuneError :: runes r0 = r :: runes rest /\
            ValidRune r = true /\ (String.length rest <= String.length r0)%nat).
  { exists RuneError, r0. split; [done |]. split; [done | lia]. }
  destruct r0 as [| c1 r1]; [exact Herr |].
  destruct (accept2 (byte_val c0) (byte_val c1)) eqn:H2.
  { eexists _, r1. split; [done |]. split; [| simpl; lia].
    apply rune2_valid in H2. apply ValidRune_spec. lia. }
  destruct r1 as [| c2 r2]; [exact Herr |].
  destruct (accept3 (byte_val c0) (byte_val c1) (byte_val c2)) eqn:H3.
  { eexists _, r2. split; [done |]. split; [| simpl; lia].
    by apply rune3_valid in H3 as [_ ?]. }
  destruct r2 as [| c3 r3]; [exact Herr |].
  destruct (accept4 (byte_val c0) (byte_val c1) (byte_val c2) (byte_val c3)) eqn:H4.
  { eexists _, r3. split; [done |]. split; [| simpl; lia].
    apply rune4_valid in H4. apply ValidRune_spec. unfold MaxRune in *. lia. }
  exact Herr.
Qed.

Lemma runes_valid s : Forall (fun r => ValidRune r = true) (runes s).
Proof.
  remember (String.length s) as n eqn:Hn.
  revert s Hn. induction (lt_wf n) as [n _ IH]. intros s ->.
  destruct s as [| c0 r0]; [constructor |].
  destruct (runes_step c0 r0) as (r & rest & -> & Hv & Hlen).
  constructor; [done |].
  apply (IH (String.length rest)); [simpl; lia | done].
Qed.

(** Decoding undoes the encoding of a valid rune. *)
Lemma runes_EncodeRune r t :
  ValidRune r = true -> runes (EncodeRune r +:+ t) = r :: runes t.
Proof.
  intros Hv. unfold EncodeRune. rewrite Hv.
  apply ValidRune_spec in Hv. unfold MaxRune in Hv.
  destruct (between 0 127 r) eqn:H1.
  { apply between_spec in H1. rewrite !string_app_cons, string_app_nil.
    rewrite runes_1; rewrite byte_val_chr; (done || lia). }
  apply between_false in H1.
  destruct (between 128 2047 r) eqn:H2.
  { apply between_spec in H2. rewrite !string_app_cons, string_app_nil.
    pose proof (Z.div_mod r 64 ltac:(lia)) as Hdm.
    pose proof (Z.mod_pos_bound r 64 ltac:(lia)) as Hm.
    assert (Hq : 2 <= r / 64 <= 31).
    { lia. }
    rewrite runes_2; rewrite !byte_val_chr by lia.
    - f_equal. unfold rune2. lia.
    - unfold accept2, is_cont. rewrite andb_true_iff, !between_spec. lia. }
  apply between_false in H2.
  cbv zeta.
  pose proof (Z.div_mod r 64 ltac:(lia)) as Hdm.
  pose proof (Z.mod_pos_bound r 64 ltac:(lia)) as Hm.
  pose proof (Z.div_mod (r / 64) 64 ltac:(lia)) as Hdm'.
  pose proof (Z.mod_pos_bound (r / 64) 64 ltac:(lia)) as Hm'.
  assert (Hqq : r / 4096 = r / 64 / 64) by (rewrite Z.div_div by lia; done).
  destruct (Z.leb_spec r 65535) as [Hle | Hgt].
  { rewrite !string_app_cons, string_app_nil.
    assert (Hq : 0 <= r / 4096 <= 15) by lia.
    assert (Hacc : accept3 (224 + r / 4096) (128 + r / 64 mod 64) (128 + r mod 64) = true).
    { unfold accept3, is_cont. rewrite !andb_true_iff, !between_spec.
      destruct (Z.eqb_spec (224 + r / 4096) 224), (Z.eqb_spec (224 + r / 4096) 237); lia. }
    rewrite runes_3; rewrite !byte_val_chr by lia; [| done].
    f_equal. unfold rune3. lia. }
  rewrite !string_app_cons, string_app_nil.
  pose proof (Z.div_mod (r / 64 / 64) 64 ltac:(lia)) as Hdm''.
  pose proof (Z.mod_pos_bound (r / 64 / 64) 64 ltac:(lia)) as Hm''.
  assert (Hqqq : r / 262144 = r / 64 / 64 / 64) by (rewrite !Z.div_div by lia; done).
  assert (Hq : 0 <= r / 262144 <= 4) by lia.
  rewrite Hqq.
  assert (Hacc : accept4 (240 + r / 262144) (128 + r / 64 / 64 mod 64)
                   (128 + r / 64 mod 64) (128 + r mod 64) = true).
  { unfold accept4, is_cont. rewrite !andb_true_iff, !between_spec.
    destruct (Z.eqb_spec (240 + r / 262144) 240), (Z.eqb_spec (240 + r / 262144) 244); lia. }
  rewrite runes_4; rewrite !byte_val_chr by lia; [| done].
  f_equal. unfold rune4. lia.
Qed.

Lemma runes_encode_runes rs :
  Forall (fun r => ValidRune r = true) rs -> runes (encode_runes rs) = rs.
Proof.
  induction 1 as [| r rs Hr _ IH]; [done |].
  cbn [encode_runes foldr]. fold (encode_runes rs).
  by rewrite runes_EncodeRune, IH.
Qed.

(** Text that went through [encoding/json] once goes through unchanged. *)
Lemma json_string_idemp s : json_string (json_string s) = json_string s.
Proof.
  unfold json_string. by rewrite runes_encode_runes by apply runes_valid.
Qed.

(** Encoding undoes the decoding of an accepted sequence. *)
Lemma EncodeRune_1 c : byte_val c < 128 -> EncodeRune (byte_val c) = String c EmptyString.
Proof.
  intros H. unfold EncodeRune. pose proof (byte_val_range c) as Hb.
  assert (H1 : between 0 127 (byte_val c) = true) by (apply between_spec; lia).
  by rewrite H1, byte_chr_val.
Qed.

Lemma EncodeRune_2 c0 c1 :
  accept2 (byte_val c0) (byte_val c1) = true ->
  EncodeRune (rune2 (byte_val c0) (byte_val c1)) = String c0 (String c1 EmptyString).
Proof.
  intros Hacc. pose proof (rune2_valid _ _ Hacc) as Hr.
  unfold accept2, is_cont in Hacc. rewrite andb_true_iff, !between_spec in Hacc.
  unfold EncodeRune.
  assert (H1 : between 0 127 (rune2 (byte_val c0) (byte_val c1)) = false)
    by (apply between_false; lia).
  assert (H2 : between 128 2047 (rune2 (byte_val c0) (byte_val c1)) = true)
    by (apply between_spec; lia).
  rewrite H1, H2.
  assert (Hq : rune2 (byte_val c0) (byte_val c1) / 64 = byte_val c0 - 192).
  { symmetry. apply (Z.div_unique _ _ _ (byte_val c1 - 128)); unfold rune2; lia. }
  assert (Hm : rune2 (byte_val c0) (byte_val c1) mod 64 = byte_val c1 - 128).
  { symmetry. apply (Z.mod_unique _ _ (byte_val c0 - 192)); unfold rune2; lia. }
  rewrite Hq, Hm.
  replace (192 + (byte_val c0 - 192)) with (byte_val c0) by lia.
  replace (128 + (byte_val c1 - 128)) with (byte_val c1) by lia.
  by rewrite !byte_chr_val.
Qed.

Lemma EncodeRune_3 c0 c1 c2 :
  accept3 (byte_val c0) (byte_val c1) (byte_val c2) = true ->
  EncodeRune (rune3 (byte_val c0) (byte_val c1) (byte_val c2))
  = String c0 (String c1 (String c2 EmptyString)).
Proof.
  intros Hacc. pose proof (rune3_valid _ _ _ Hacc) as [Hr Hv].
  unfold accept3, is_cont in Hacc. rewrite !andb_true_iff, !between_spec in Hacc.
  destruct Hacc as ((H0 & H1) & H2).
  assert (H1' : 128 <= byte_val c1 <= 191).
  { destruct (Z.eqb_spec (byte_val c0) 224), (Z.eqb_spec (byte_val c0) 237); lia. }
  unfold EncodeRune. rewrite Hv.
  set (r := rune3 (byte_val c0) (byte_val c1) (byte_val c2)) in *.
  assert (Hb1 : between 0 127 r = false) by (apply between_false; lia).
  assert (Hb2 : between 128 2047 r = false) by (apply between_false; lia).
  rewrite Hb1, Hb2. cbv zeta.
  destruct (Z.leb_spec r 65535) as [_ |]; [| lia].
  assert (Hm : r mod 64 = byte_val c2 - 128).
  { symmetry.
    apply (Z.mod_unique _ _ ((byte_val c0 - 224) * 64 + (byte_val c1 - 128)));
      subst r; unfold rune3; lia. }
  assert (Hq : r / 64 = (byte_val c0 - 224) * 64 + (byte_val c1 - 128)).
  { symmetry. apply (Z.div_unique _ _ _ (byte_val c2 - 128)); subst r; unfold rune3; lia. }
  assert (Hm' : r / 64 mod 64 = byte_val c1 - 128).
  { rewrite Hq. symmetry. apply (Z.mod_unique _ _ (byte_val c0 - 224)); lia. }
  assert (Hq' : r / 4096 = byte_val c0 - 224).
  { change 4096 with (64 * 64). rewrite <- Z.div_div by lia. rewrite Hq.
    symmetry. apply (Z.div_unique _ _ _ (byte_val c1 - 128)); lia. }
  rewrite Hm, Hm', Hq'.
  replace (224 + (byte_val c0 - 224)) with (byte_val c0) by lia.
  replace (128 + (byte_val c1 - 128)) with (byte_val c1) by lia.
  replace (128 + (byte_val c2 - 128)) with (byte_val c2) by lia.
  by rewrite !byte_chr_val.
Qed.

Lemma EncodeRune_4 c0 c1 c2 c3 :
  accept4 (byte_val c0) (byte_val c1) (byte_val c2) (byte_val c3) = true ->
  EncodeRune (rune4 (byte_val c0) (byte_val c1) (byte_val c2) (byte_val c3))
  = String c0 (String c1 (String c2 (String c3 EmptyString))).
Proof.
  intros Hacc. pose proof (rune4_valid _ _ _ _ Hacc) as Hr. unfold MaxRune in Hr.
  unfold accept4, is_cont in Hacc. rewrite !andb_true_iff, !between_spec in Hacc.
  destruct Hacc as (((H0 & H1) & H2) & H3).
  assert (H1' : 128 <= byte_val c1 <= 191).
  { destruct (Z.eqb_spec (byte_val c0) 240), (Z.eqb_spec (byte_val c0) 244); lia. }
  unfold EncodeRune.
  set (r := rune4 (byte_val c0) (byte_val c1) (byte_val c2) (byte_val c3)) in *.
  assert (Hv : ValidRune r = true) by (apply ValidRune_spec; unfold MaxRune; lia).
  rewrite Hv.
  assert (Hb1 : between 0 127 r = false) by (apply between_false; lia).
  assert (Hb2 : between 128 2047 r = false) by (apply between_false; lia).
  rewrite Hb1, Hb2. cbv zeta.
  destruct (Z.leb_spec r 65535) as [| _]; [lia |].
  set (q1 := (byte_val c0 - 240) * 4096 + (byte_val c1 - 128) * 64 + (byte_val c2 - 128)).
  set (q2 := (byte_val c0 - 240) * 64 + (byte_val c1 - 128)).
  assert (Hm : r mod 64 = byte_val c3 - 128).
  { symmetry. apply (Z.mod_unique _ _ q1); subst r q1; unfold rune4; lia. }
  assert (Hq : r / 64 = q1).
  { symmetry. apply (Z.div_unique _ _ _ (byte_val c3 - 128)); subst r q1; unfold rune4; lia. }
  assert (Hm' : r / 64 mod 64 = byte_val c2 - 128).
  { rewrite Hq. symmetry. apply (Z.mod_unique _ _ q2); subst q1 q2; lia. }
  assert (Hq' : r / 4096 = q2).
  { change 4096 with (64 * 64). rewrite <- Z.div_div by lia. rewrite Hq.
    symmetry. apply (Z.div_unique _ _ _ (byte_val c2 - 128)); subst q1 q2; lia. }
  assert (Hm'' : r / 4096 mod 64 = byte_val c1 - 128).
  { rewrite Hq'. symmetry. apply (Z.mod_unique _ _ (byte_val c0 - 240)); subst q2; lia. }
  assert (Hq'' : r / 262144 = byte_val c0 - 240).
  { change 262144 with (4096 * 64). rewrite <- Z.div_div by lia. rewrite Hq'.
    symmetry. apply (Z.div_unique _ _ _ (byte_val c1 - 128)); subst q2; lia. }
  rewrite Hm, Hm', Hm'', Hq''.
  replace (240 + (byte_val c0 - 240)) with (byte_val c0) by lia.
  replace (128 + (byte_val c1 - 128)) with (byte_val c1) by lia.
  replace (128 + (byte_val c2 - 128)) with (byte_val c2) by lia.
  replace (128 + (byte_val c3 - 128)) with (byte_val c3) by lia.
  by rewrite !byte_chr_val.
Qed.

Lemma json_string_cons r rs :
  encode_runes (r :: rs) = EncodeRune r +:+ encode_runes rs.
Proof. reflexivity. Qed.

(** Text goes through [encoding/json] unchanged. *)
Lemma json_string_valid s : ValidString s = true -> json_string s = s.
Proof.
  unfold json_string.
  remember (String.length s) as n eqn:Hn.
  revert s Hn. induction (lt_wf n) as [n _ IH]. intros s -> Hv.
  destruct s as [| c0 r0]; [done |].
  cbn [ValidString] in Hv. cbv zeta in Hv.
  destruct (Z.ltb_spec (byte_val c0) 128) as [Hlt | Hge].
  { rewrite runes_1, json_string_cons, EncodeRune_1 by done.
    rewrite string_app_cons, string_app_nil. f_equal.
    apply (IH (String.length r0)); [simpl; lia | done | done]. }
  destruct r0 as [| c1 r1]; [discriminate |].
  destruct (accept2 (byte_val c0) (byte_val c1)) eqn:H2.
  { rewrite runes_2, json_string_cons, EncodeRune_2 by done.
    rewrite !string_app_cons, string_app_nil. do 2 f_equal.
    apply (IH (String.length r1)); [simpl; lia | done | done]. }
  destruct r1 as [| c2 r2]; [discriminate |].
  destruct (accept3 (byte_val c0) (byte_val c1) (byte_val c2)) eqn:H3.
  { rewrite runes_3, json_string_cons, EncodeRune_3 by done.
    rewrite !string_app_cons, string_app_nil. do 3 f_equal.
    apply (IH (String.length r2)); [simpl; lia | done | done]. }
  destruct r2 as [| c3 r3]; [discriminate |].
  apply andb_true_iff in Hv as [H4 Hv].
  rewrite runes_4, json_string_cons, EncodeRune_4 by done.
  rewrite !string_app_cons, string_app_nil. do 4 f_equal.
  apply (IH (String.length r3)); [simpl; lia | done | done].
Qed.

Lemma isASCII_valid s : isASCII s = true -> ValidString s = true.
Proof.
  induction s as [| c r IH]; [done |].
  cbn [isASCII ValidString]. intros [Hc Hr]%andb_true_iff.
  cbv zeta. rewrite Hc. by apply IH.
Qed.

End UTF8Properties.

(** ** The text of the history file *)

Section JsonProperties.

Lemma json_entry_idemp e : json_entry (json_entry e) = json_entry e.
Proof.
  destruct e as [id prompt created out model [image |] [remix |]];
    unfold json_entry; cbn -[json_string]; by rewrite !json_string_idemp.
Qed.

Lemma json_entry_valid e : ValidEntry e = true -> json_entry e = e.
Proof.
  destruct e as [id prompt created out model image remix].
  unfold ValidEntry, json_entry. cbn -[json_string ValidString].
  rewrite !andb_true_iff. intros ((((((H1 & H2) & H3) & H4) & H5) & H6) & H7).
  rewrite !json_string_valid by done.
  destruct image, remix; cbn -[json_string ValidString] in *;
    by rewrite ?json_string_valid.
Qed.

Lemma json_history_idemp h : json_history (json_history h) = json_history h.
Proof.
  unfold json_history. cbn. f_equal.
  rewrite <- list_fmap_compose. apply list_fmap_ext. intros _ e _. apply json_entry_idemp.
Qed.

End JsonProperties.

(** ** The history store *)

Section HistoryProperties.

Lemma loadHistory_home s h : loadHistory s = Ok h -> home_ok s = true.
Proof. unfold loadHistory. destruct (home_ok s); [done | discriminate]. Qed.

Lemma loadHistory_set_hist_file s h :
  home_ok s = true -> loadHistory (set_hist_file s (HistData h)) = Ok (json_history h).
Proof. intros Hh. unfold loadHistory. simpl. by rewrite Hh. Qed.

(** A history that was loaded holds text: the file format leaves it as it
    is. *)
Lemma loadHistory_json s h : loadHistory s = Ok h -> json_history h = h.
Proof.
  unfold loadHistory. destruct (negb (home_ok s)); [discriminate |].
  destruct (hist_file s) as [| | | h0]; try discriminate.
  - by intros [= <-].
  - intros [= <-]. apply json_history_idemp.
Qed.

Lemma loadHistory_entries s h :
  loadHistory s = Ok h -> json_entry <$> Videos h = Videos h.
Proof.
  intros Hl. apply loadHistory_json in Hl. unfold json_history in Hl.
  destruct h as [vs]. cbn in *. congruence.
Qed.

(** What [addToHistory] writes when loading and saving succeed. *)
Lemma addToHistory_saves s e h :
  loadHistory s = Ok h -> mkdir_ok s = true -> write_ok s = true ->
  addToHistory s e
  = (set_hist_file s (HistData {| Videos := take 100 (json_entry e :: Videos h) |}), None).
Proof.
  intros Hl Hm Hw. unfold addToHistory, saveHistory.
  rewrite Hl, (loadHistory_home _ _ Hl), Hm, Hw. simpl negb. cbv iota.
  do 3 f_equal.
  assert (Hvs : (if (100 <? length (e :: Videos h))%nat
                 then take 100 (e :: Videos h) else e :: Videos h)
                = take 100 (e :: Videos h)).
  { destruct (100 <? length (e :: Videos h))%nat eqn:Hlt; [done |].
    apply Nat.ltb_ge in Hlt. by rewrite take_ge. }
  rewrite Hvs. unfold json_history. cbn [Videos]. f_equal.
  rewrite fmap_take, fmap_cons. by rewrite (loadHistory_entries _ _ Hl).
Qed.

(** What is read back after [addToHistory]. *)
Lemma addToHistory_loads s e h :
  loadHistory s = Ok h -> mkdir_ok s = true -> write_ok s = true ->
  loadHistory (addToHistory s e).1
  = Ok {| Videos := take 100 (json_entry e :: Videos h) |}.
Proof.
  intros Hl Hm Hw. rewrite (addToHistory_saves _ _ _ Hl Hm Hw). cbn [fst].
  rewrite loadHistory_set_hist_file by apply (loadHistory_home _ _ Hl).
  f_equal. unfold json_history. cbn [Videos]. f_equal.
  rewrite fmap_take, fmap_cons, json_entry_idemp.
  by rewrite (loadHistory_entries _ _ Hl).
Qed.

Lemma addToHistory_load_error s e err :
  loadHistory s = Err err -> addToHistory s e = (s, Some err).
Proof. intros Hl. unfold addToHistory. by rewrite Hl. Qed.

(** A write that fails after the file was opened leaves a file that no
    longer parses; one that fails at the opening leaves the history. *)
Example saveHistory_failed_write_ex :
  let cut := {| home_ok := true; hist_file := HistData two_videos; mkdir_ok := true;
                write_ok := false; failed_write := Some HistCorrupt |} in
  let shut := {| home_ok := true; hist_file := HistData two_videos; mkdir_ok := true;
                 write_ok := false; failed_write := None |} in
  let e := sample_entry "video_c" "c.mp4" in
  (addToHistory cut e).2 = Some ErrWriteHistory /\
  loadHistory (addToHistory cut e).1 = Err ErrParseHistory /\
  (addToHistory shut e).2 = Some ErrWriteHistory /\
  loadHistory (addToHistory shut e).1 = Ok two_videos.
Proof. vm_compute. repeat split. Qed.

End HistoryProperties.

(** C4, as stated, fails on an entry whose prompt holds a byte that is no
    UTF-8 text (here [caf] followed by the byte 233): the addition succeeds
    and the entry at position 0 afterwards is another one, its prompt ends
    in U+FFFD. *)
Lemma addToHistory_rewrites_invalid_text :
  let e := {| ID := "video_new"; Prompt := of_bytes [99; 97; 102; 233];
              CreatedAt := "2025-01-01T00:00:00Z"; OutputFile := "new.mp4";
              Model := "sora-2"; ImageInput := None; RemixedFrom := None |} in
  let s := sample_store (HistData two_videos) in
  (addToHistory s e).2 = None /\
  exists h' e',
    loadHistory (addToHistory s e).1 = Ok h' /\
    Videos h' !! 0%nat = Some e' /\ e' <> e /\
    Prompt e' = of_bytes [99; 97; 102; 239; 191; 189].
Proof.
  intros e s. split; [reflexivity |].
  eexists _, _. split; [vm_compute; reflexivity |].
  split; [reflexivity |]. split; [| reflexivity].
  intros H. apply (f_equal Prompt) in H. vm_compute in H. discriminate.
Qed.

(** C4.  Appending to the history prepends and bounds: when the store can be
    read and written, the entry added is at position 0 in the form the file
    format gives it, every byte of its strings that is no UTF-8 text
    replaced by U+FFFD, and as it was given when its strings are text; every
    entry kept is the old entry of the position before it, unchanged,
    nothing is kept from position 100 on, and on a store of 100 entries
    exactly 100 remain, the new one followed by the old ones without the
    last. *)
Theorem addToHistory_front_and_bound (s : Store) (e : videoHistoryEntry) (h : history) :
  loadHistory s = Ok h -> mkdir_ok s = true -> write_ok s = true ->
  exists h',
    addToHistory s e = (set_hist_file s (HistData h'), None) /\
    loadHistory (addToHistory s e).1 = Ok h' /\
    Videos h' !! 0%nat = Some (json_entry e) /\
    (ValidEntry e = true -> Videos h' !! 0%nat = Some e) /\
    (forall i, (S i < 100)%nat -> Videos h' !! S i = Videos h !! i) /\
    (forall i, (100 <= i)%nat -> Videos h' !! i = None) /\
    length (Videos h') = Nat.min 100 (S (length (Videos h))) /\
    (length (Videos h) = 100%nat ->
       length (Videos h') = 100%nat /\
       exists kept oldest,
         Videos h = kept ++ [oldest] /\ Videos h' = json_entry e :: kept).
Proof.
  intros Hl Hm Hw.
  exists {| Videos := take 100 (json_entry e :: Videos h) |}.
  rewrite (addToHistory_loads _ _ _ Hl Hm Hw).
  rewrite (addToHistory_saves _ _ _ Hl Hm Hw). cbn [fst Videos].
  split; [done |].
  split; [done |].
  split; [done |].
  split.
  { intros Hv. by rewrite (json_entry_valid _ Hv). }
  split.
  { intros i Hi. rewrite lookup_take_lt by lia. done. }
  split.
  { intros i Hi. by apply lookup_take_ge. }
  assert (Hlen : length (take 100 (json_entry e :: Videos h))
                 = Nat.min 100 (S (length (Videos h)))).
  { rewrite length_take. done. }
  split; [exact Hlen |].
  intros H100. split; [rewrite Hlen, H100; done |].
  destruct (Videos h) as [|v vs _] using rev_ind; [discriminate |].
  exists vs, v. split; [done |].
  rewrite length_app in H100. simpl in H100.
  change (take 100 (json_entry e :: vs ++ [v]))
    with (json_entry e :: take 99 (vs ++ [v])).
  f_equal. rewrite take_app_le by lia. apply take_ge. lia.
Qed.

Lemma addToHistory_front_and_bound_witness :
  let s := sample_store (HistData full_history) in
  let e := sample_entry "video_new" "new.mp4" in
  exists h',
    loadHistory (addToHistory s e).1 = Ok h' /\
    Videos h' !! 0%nat = Some e /\
    length (Videos h') = 100%nat /\
    Videos h' = e :: replicate 99 (sample_entry "video_kept" "kept.mp4").
Proof.
  intros s e.
  destruct (addToHistory_front_and_bound s e full_history eq_refl eq_refl eq_refl)
    as (h' & _ & Hload & _ & Hfront & _ & _ & _ & Hfull).
  destruct (Hfull eq_refl) as (Hlen & kept & oldest & Hsplit & Hnew).
  exists h'. repeat split; try assumption.
  - exact (Hfront eq_refl).
  - rewrite Hnew. f_equal.
    unfold full_history in Hsplit. cbn [Videos] in Hsplit.
    by apply app_inj_tail in Hsplit as [<- _].
Defined.

(** ** Reading an index *)

Section SscanfProperties.

Lemma parse_digits_token acc s n :
  parse_digits acc s = Some n -> number_token s = s.
Proof.
  revert acc. induction s as [|c r IH]; intros acc H; [done |].
  simpl in *.
  destruct (is_digit c); [| discriminate].
  simpl. f_equal. by eapply IH.
Qed.

Lemma digit_val_nonneg c : is_digit c = true -> 0 <= digit_val c.
Proof.
  unfold is_digit, digit_val. intros H.
  apply andb_prop in H as [H _]. apply N.leb_le in H. lia.
Qed.

Lemma parse_digits_nonneg acc s n :
  0 <= acc -> parse_digits acc s = Some n -> 0 <= n.
Proof.
  revert acc. induction s as [|c r IH]; intros acc Hacc H; simpl in H.
  - by injection H as <-.
  - destruct (is_digit c) eqn:Hd; [| discriminate].
    eapply IH; [| exact H]. pose proof (digit_val_nonneg c Hd). lia.
Qed.

Lemma is_digit_byte c : is_digit c = true -> 48 <= byte_val c <= 57.
Proof.
  unfold is_digit, byte_val. intros H.
  apply andb_prop in H as [H1 H2]. apply N.leb_le in H1, H2. lia.
Qed.

Lemma is_digit_inv c :
  is_digit c = true ->
  Ascii.eqb c "-" = false /\ Ascii.eqb c "+" = false /\ Ascii.eqb c "l" = false.
Proof.
  intros H. apply is_digit_byte in H.
  repeat split; apply Ascii.eqb_neq; intros ->; unfold byte_val in H; simpl in H; lia.
Qed.

(** A character of one byte that is no white space stops [SkipSpace]. *)
Lemma skip_blanks_stop c r :
  byte_val c < 128 -> byte_val c <> 10 -> isSpace (byte_val c) = false ->
  skip_blanks (String c r) = Some (String c r).
Proof.
  intros Hlt Hnl Hsp. cbn [skip_blanks]. cbv zeta.
  destruct (Z.eqb_spec (byte_val c) 10); [done |].
  destruct (Z.ltb_spec (byte_val c) 128); [| lia].
  by rewrite Hsp.
Qed.

Lemma isSpace_false b : 32 < b < 133 -> isSpace b = false.
Proof.
  intros Hb. unfold isSpace, space. cbn [existsb fst snd].
  repeat (apply orb_false_intro); try done; apply between_false; lia.
Qed.

Lemma skip_blanks_digit c r :
  is_digit c = true -> skip_blanks (String c r) = Some (String c r).
Proof.
  intros H. apply is_digit_byte in H.
  apply skip_blanks_stop; [lia | lia | apply isSpace_false; lia].
Qed.


(** A numeral within the range of [int] is read as the number it denotes. *)
Lemma Sscanf_d_numeral ds n :
  numeral ds n -> n <= maxInt -> Sscanf_d ds = Some n.
Proof.
  intros [Hne Hp] Hmax. destruct ds as [|c r]; [done |].
  pose proof (parse_digits_token _ _ _ Hp) as Htok.
  assert (Hd : is_digit c = true).
  { simpl in Hp. destruct (is_digit c); [done | discriminate]. }
  destruct (is_digit_inv c Hd) as (Hm & Hpl & _).
  unfold Sscanf_d. rewrite (skip_blanks_digit c r Hd). cbv beta iota zeta.
  rewrite Hm, Hpl. cbn [orb]. cbv iota. rewrite Htok, Hp.
  destruct (n <=? maxInt) eqn:Hle; [done |]. apply Z.leb_gt in Hle. lia.
Qed.

(** A numeral beyond the range of [int] is not read: [strconv.ParseInt]
    reports a range error. *)
Lemma Sscanf_d_overflow ds n :
  numeral ds n -> maxInt < n -> Sscanf_d ds = None.
Proof.
  intros [Hne Hp] Hbig. destruct ds as [|c r]; [done |].
  pose proof (parse_digits_token _ _ _ Hp) as Htok.
  assert (Hd : is_digit c = true).
  { simpl in Hp. destruct (is_digit c); [done | discriminate]. }
  destruct (is_digit_inv c Hd) as (Hm & Hpl & _).
  unfold Sscanf_d. rewrite (skip_blanks_digit c r Hd). cbv beta iota zeta.
  rewrite Hm, Hpl. cbn [orb]. cbv iota. rewrite Htok, Hp.
  destruct (n <=? maxInt) eqn:Hle; [apply Z.leb_le in Hle; lia | done].
Qed.


Lemma substring_all s : String.substring 0 (String.length s) s = s.
Proof. induction s as [|c r IH]; [done |]. simpl. by rewrite IH. Qed.

Lemma TrimPrefix_at s : TrimPrefix (String "@" s) "@" = s.
Proof.
  unfold TrimPrefix, HasPrefix. simpl.
  replace (String.length s - 0)%nat with (String.length s) by lia.
  destruct s; [done |]. apply substring_all.
Qed.

Lemma HasPrefix_at s : HasPrefix (String "@" s) "@" = true.
Proof. unfold HasPrefix. simpl. by destruct s. Qed.

End SscanfProperties.

(** ** Resolving a remix reference *)

Section ResolveProperties.

Lemma resolve_empty s h ref :
  loadHistory s = Ok h -> Videos h = [] ->
  resolveRemixVideoID s ref = Err ErrNoVideos.
Proof. intros Hl Hv. unfold resolveRemixVideoID. by rewrite Hl, Hv. Qed.

Lemma resolve_last s h first rest :
  loadHistory s = Ok h -> Videos h = first :: rest ->
  resolveRemixVideoID s "@last" = Ok (ID first).
Proof. intros Hl Hv. unfold resolveRemixVideoID. by rewrite Hl, Hv. Qed.

(** The branch of the references that start with ["@"] and are not
    ["@last"], on a history that is not empty. *)
Lemma resolve_at s h tok :
  loadHistory s = Ok h -> Videos h <> [] -> tok <> "last" ->
  resolveRemixVideoID s (String "@" tok)
  = match Sscanf_d tok with
    | None => Err (ErrInvalidIndex (String "@" tok))
    | Some idx =>
        let n := Z.of_nat (length (Videos h)) in
        if (idx <? 0) || (n <=? idx) then Err (ErrIndexOutOfRange idx n)
        else match Videos h !! Z.to_nat idx with
             | Some v => Ok (ID v)
             | None => Err (ErrIndexOutOfRange idx n)
             end
    end.
Proof.
  intros Hl Hv Htok. unfold resolveRemixVideoID. rewrite Hl.
  destruct (Videos h) as [|first rest] eqn:Hvs; [done |].
  assert (String.eqb (String "@" tok) "@last" = false) as ->.
  { apply String.eqb_neq. congruence. }
  by rewrite HasPrefix_at, TrimPrefix_at.
Qed.

Lemma numeral_not_last ds n : numeral ds n -> ds <> "last".
Proof. intros [_ Hp] ->. discriminate. Qed.

Lemma matchOutputFile_none ref vs :
  (forall v, v ∈ vs -> OutputFile v <> ref /\ Base (OutputFile v) <> ref) ->
  matchOutputFile ref vs = None.
Proof.
  induction vs as [|v vs IH]; intros H; [done |]. simpl.
  destruct (H v ltac:(left)) as [H1 H2].
  apply String.eqb_neq in H1, H2. rewrite H1, H2. simpl.
  apply IH. intros v' Hv'. apply H. by right.
Qed.

End ResolveProperties.

(** C5, as stated, fails on an index that is out of range because it is
    beyond the values of [int]: [Sscanf] fails on it and the error is the
    one of an invalid index, not the index-out-of-range error. *)
Lemma resolve_index_beyond_int :
  let s := sample_store (HistData two_videos) in
  numeral "9223372036854775808" 9223372036854775808 /\
  resolveRemixVideoID s "@9223372036854775808"
  = Err (ErrInvalidIndex "@9223372036854775808") /\
  (forall idx n, resolveRemixVideoID s "@9223372036854775808"
                 <> Err (ErrIndexOutOfRange idx n)).
Proof.
  intros s.
  assert (H : resolveRemixVideoID s "@9223372036854775808"
              = Err (ErrInvalidIndex "@9223372036854775808"))
    by (vm_compute; reflexivity).
  split; [split; [discriminate | vm_compute; reflexivity] |].
  split; [exact H |].
  intros idx n. rewrite H. discriminate.
Qed.

(** C5, amended.  On a history that can be loaded, with [len] entries:
    ["@last"] gives the id of the entry at position 0 when there is one;
    ["@N"], for a numeral [N] below [len], gives the id of the entry at
    position [N]; for [N] from [len] on it fails, with the
    index-out-of-range error that reports [N] and [len] when [N] is a value
    of [int], with the invalid-index error that quotes the reference when
    [N] is beyond; and on an empty history every reference fails with the
    empty-history error. *)
Theorem resolve_last_and_index (s : Store) (h : history) :
  loadHistory s = Ok h ->
  Z.of_nat (length (Videos h)) <= maxInt ->
  (forall first rest, Videos h = first :: rest ->
     resolveRemixVideoID s "@last" = Ok (ID first)) /\
  (forall ds n v, numeral ds n -> Videos h !! Z.to_nat n = Some v ->
     resolveRemixVideoID s ("@" +:+ ds) = Ok (ID v)) /\
  (forall ds n, numeral ds n -> Videos h <> [] ->
     Z.of_nat (length (Videos h)) <= n ->
     resolveRemixVideoID s ("@" +:+ ds)
     = if n <=? maxInt
       then Err (ErrIndexOutOfRange n (Z.of_nat (length (Videos h))))
       else Err (ErrInvalidIndex ("@" +:+ ds))) /\
  (Videos h = [] ->
     forall ref, resolveRemixVideoID s ref = Err ErrNoVideos).
Proof.
  intros Hl Hlen. repeat split.
  - intros first rest Hv. by eapply resolve_last.
  - intros ds n v Hnum Hv.
    pose proof (lookup_lt_Some _ _ _ Hv) as Hlt.
    pose proof (parse_digits_nonneg 0 ds n ltac:(lia) (proj2 Hnum)) as Hn.
    assert (Hne : Videos h <> []) by (intros E; rewrite E in Hv; done).
    change ("@" +:+ ds) with (String "@" ds).
    rewrite (resolve_at _ _ _ Hl Hne (numeral_not_last _ _ Hnum)).
    rewrite (Sscanf_d_numeral _ _ Hnum) by lia. cbv zeta.
    assert ((n <? 0) || (Z.of_nat (length (Videos h)) <=? n) = false) as ->.
    { apply orb_false_intro; [apply Z.ltb_ge | apply Z.leb_gt]; lia. }
    by rewrite Hv.
  - intros ds n Hnum Hne Hge.
    change ("@" +:+ ds) with (String "@" ds).
    rewrite (resolve_at _ _ _ Hl Hne (numeral_not_last _ _ Hnum)).
    destruct (Z.leb_spec n maxInt) as [Hmax | Hbig].
    + rewrite (Sscanf_d_numeral _ _ Hnum) by lia. cbv zeta.
      assert ((n <? 0) || (Z.of_nat (length (Videos h)) <=? n) = true) as ->; [| done].
      apply orb_true_intro. right. apply Z.leb_le. lia.
    + by rewrite (Sscanf_d_overflow _ _ Hnum Hbig).
  - intros Hv ref. by eapply resolve_empty.
Qed.

Lemma resolve_last_and_index_witness :
  let s := sample_store (HistData two_videos) in
  resolveRemixVideoID s "@last" = Ok "video_b" /\
  resolveRemixVideoID s "@1" = Ok "video_a" /\
  resolveRemixVideoID s "@2" = Err (ErrIndexOutOfRange 2 2) /\
  resolveRemixVideoID s "@9223372036854775808"
  = Err (ErrInvalidIndex "@9223372036854775808") /\
  resolveRemixVideoID (sample_store HistMissing) "@0" = Err ErrNoVideos.
Proof.
  intros s.
  assert (Hlen : forall n, (n <= 2)%nat -> Z.of_nat n <= maxInt).
  { intros n Hn. unfold maxInt, intBits. lia. }
  assert (H1 : numeral "1" 1) by (split; [discriminate | reflexivity]).
  assert (H2 : numeral "2" 2) by (split; [discriminate | reflexivity]).
  assert (H3 : numeral "9223372036854775808" 9223372036854775808)
    by (split; [discriminate | vm_compute; reflexivity]).
  destruct (resolve_last_and_index s two_videos eq_refl (Hlen 2%nat (le_n 2)))
    as (Hlast & Hin & Hout & _).
  destruct (resolve_last_and_index (sample_store HistMissing) {| Videos := [] |}
              eq_refl (Hlen 0%nat (Nat.le_0_l 2))) as (_ & _ & _ & Hempty).
  split; [exact (Hlast _ _ eq_refl) |].
  split; [exact (Hin "1" 1 _ H1 eq_refl) |].
  split; [| split; [| exact (Hempty eq_refl "@0")]].
  - exact (Hout "2" 2 H2 ltac:(discriminate) ltac:(simpl length; lia)).
  - exact (Hout "9223372036854775808" 9223372036854775808 H3
             ltac:(discriminate) ltac:(simpl length; lia)).
Defined.

(** C6, as stated, fails on a history without entries: a literal job
    identifier, which is neither ["@last"] nor an index token and matches no
    recorded output file, is not passed through but fails with the
    empty-history error. *)
Lemma resolve_literal_on_empty_history :
  let s := sample_store HistMissing in
  let ref := "video_6901abc123def456" in
  ref <> "@last" /\ HasPrefix ref "@" = false /\
  (forall h, loadHistory s = Ok h -> matchOutputFile ref (Videos h) = None) /\
  resolveRemixVideoID s ref = Err ErrNoVideos /\
  resolveRemixVideoID s ref <> Ok ref.
Proof.
  repeat split; try done.
  intros h [= <-]. reflexivity.
Qed.

(** C6, amended.  On a history that is not empty a reference that does not
    start with ["@"] and equals no recorded output file, nor the base name
    of one, is returned as it is; on an empty history every reference
    fails with the empty-history error, a literal identifier too. *)
Theorem resolve_passes_literal_through (s : Store) (h : history) (ref : string) :
  loadHistory s = Ok h ->
  (Videos h <> [] ->
   HasPrefix ref "@" = false ->
   (forall v, v ∈ Videos h -> OutputFile v <> ref /\ Base (OutputFile v) <> ref) ->
   resolveRemixVideoID s ref = Ok ref) /\
  (Videos h = [] -> resolveRemixVideoID s ref = Err ErrNoVideos).
Proof.
  intros Hl. split.
  - intros Hne Hat Hfiles. unfold resolveRemixVideoID. rewrite Hl.
    destruct (Videos h) as [|first rest] eqn:Hv; [done |].
    assert (String.eqb ref "@last" = false) as ->.
    { apply String.eqb_neq. intros ->. discriminate. }
    rewrite Hat. by rewrite (matchOutputFile_none _ _ Hfiles).
  - intros Hv. by eapply resolve_empty.
Qed.

Lemma resolve_passes_literal_through_witness :
  resolveRemixVideoID (sample_store (HistData two_videos)) "video_6901abc123def456"
  = Ok "video_6901abc123def456" /\
  resolveRemixVideoID (sample_store HistMissing) "video_6901abc123def456"
  = Err ErrNoVideos.
Proof.
  split.
  - apply (resolve_passes_literal_through (sample_store (HistData two_videos))
             two_videos "video_6901abc123def456" eq_refl); [done | done |].
    intros v Hv. unfold two_videos in Hv. simpl in Hv.
    apply elem_of_cons in Hv as [-> | Hv];
      [| apply elem_of_cons in Hv as [-> | Hv]; [| by apply elem_of_nil in Hv]];
      split; discriminate.
  - by apply (resolve_passes_literal_through (sample_store HistMissing)
                {| Videos := [] |} "video_6901abc123def456" eq_refl).
Defined.

(** ** Case folding *)

Section FoldProperties.

Lemma same_letters_lowerASCII s t :
  same_letters s t = true <-> lowerASCII s = lowerASCII t.
Proof.
  revert t. induction s as [|a s IH]; intros [|b t]; simpl; try done.
  rewrite andb_true_iff, IH, Ascii.eqb_eq. split.
  - by intros [-> ->].
  - by intros [= -> ->].
Qed.

Lemma ToLower_ascii s : isASCII s = true -> ToLower s = lowerASCII s.
Proof. intros H. unfold ToLower. by rewrite H. Qed.

Lemma vocabulary_lower word :
  word ∈ successStatuses ++ failureStatuses -> lowerASCII word = word.
Proof.
  unfold successStatuses, failureStatuses. simpl. intros H.
  repeat (apply elem_of_cons in H as [-> | H]; [reflexivity |]).
  by apply elem_of_nil in H.
Qed.

(** On a status of ASCII bytes the test of the loop is equality with a word
    of the vocabulary up to the case of the letters. *)
Lemma names_ascii status vocabulary :
  (forall word, word ∈ vocabulary -> lowerASCII word = word) ->
  isASCII status = true ->
  names status vocabulary
  <-> exists word, word ∈ vocabulary /\ same_letters status word = true.
Proof.
  intros Hlow Hascii. unfold names. rewrite (ToLower_ascii _ Hascii). split.
  - intros Hin. exists (lowerASCII status). split; [done |].
    apply same_letters_lowerASCII. symmetry. by apply Hlow.
  - intros (word & Hin & Hfold). apply same_letters_lowerASCII in Hfold.
    by rewrite Hfold, (Hlow _ Hin).
Qed.

(** The test of the [switch] is membership of the lowered status. *)
Lemma isSuccess_names status :
  isSuccess (ToLower status) = true <-> names status successStatuses.
Proof. unfold isSuccess, names. by rewrite bool_decide_eq_true. Qed.

Lemma isFailure_names status :
  isFailure (ToLower status) = true <-> names status failureStatuses.
Proof. unfold isFailure, names. by rewrite bool_decide_eq_true. Qed.

Lemma not_both_vocabularies status :
  isSuccess status = true -> isFailure status = false.
Proof.
  unfold isSuccess, isFailure, successStatuses, failureStatuses.
  rewrite bool_decide_eq_true, bool_decide_eq_false. intros H.
  repeat (apply elem_of_cons in H as [-> | H];
          [intros H'; repeat (apply elem_of_cons in H' as [H' | H']; [discriminate |]);
           by apply elem_of_nil in H' |]).
  by apply elem_of_nil in H.
Qed.

End FoldProperties.

(** ** The monad and its traces *)

Section MonadProperties.

Lemma is_2xx_iff code : is_2xx code = true <-> 200 <= code < 300.
Proof. unfold is_2xx. rewrite negb_true_iff, orb_false_iff, Z.ltb_ge, Z.leb_gt. lia. Qed.

(** Events that are not file operations leave the state as it is. *)
Lemma emit_quiet e s : is_fs e = false -> emit e s = (Val tt, s, [e]).
Proof. destruct s, e; try done. Qed.

Lemma has_message_true e :
  has_message e = true <-> exists a, e = Some a /\ Message a <> "".
Proof.
  destruct e as [a|]; simpl.
  - rewrite negb_true_iff, String.eqb_neq. split; [eauto | by intros (? & [= <-] & ?)].
  - split; [done | by intros (? & ? & ?)].
Qed.

Lemma has_message_false st :
  no_error_message st <-> has_message (vs_Error st) = false.
Proof.
  unfold no_error_message. destruct (vs_Error st) as [a|]; simpl.
  - rewrite negb_false_iff, String.eqb_eq. split; [eauto | by intros ? ? [= <-]].
  - split; [done | discriminate].
Qed.

Lemma requests_of_app tr1 tr2 :
  requests_of (tr1 ++ tr2) = requests_of tr1 ++ requests_of tr2.
Proof. apply omap_app. Qed.

Lemma requests_of_net r tr : requests_of (Net r :: tr) = r :: requests_of tr.
Proof. done. Qed.

Lemma requests_of_other e tr : is_net e = false -> requests_of (e :: tr) = requests_of tr.
Proof. by destruct e. Qed.

Lemma requests_of_quiet tr : Forall quiet tr -> requests_of tr = [].
Proof.
  induction 1 as [|e tr [He _] _ IH]; [done |]. by rewrite requests_of_other.
Qed.

Lemma count_app p tr1 tr2 : count p (tr1 ++ tr2) = (count p tr1 + count p tr2)%nat.
Proof. unfold count. by rewrite filter_app, length_app. Qed.

Lemma count_cons p e tr :
  count p (e :: tr) = ((if p e then 1 else 0) + count p tr)%nat.
Proof.
  unfold count. destruct (p e) eqn:He.
  - by rewrite filter_cons_True.
  - rewrite filter_cons_False; [done | congruence].
Qed.

Lemma count_quiet_history tr : Forall quiet tr -> count is_history_write tr = 0%nat.
Proof.
  induction 1 as [|e tr [_ He] _ IH]; [done |]. by rewrite count_cons, He, IH.
Qed.

Lemma count_quiet_download tr : Forall quiet tr -> count is_download tr = 0%nat.
Proof.
  induction 1 as [|e tr [He _] _ IH]; [done |]. rewrite count_cons, IH.
  by destruct e.
Qed.

Lemma stdout_of_app tr1 tr2 : stdout_of (tr1 ++ tr2) = stdout_of tr1 ++ stdout_of tr2.
Proof. unfold stdout_of. by rewrite omap_app, concat_app. Qed.

End MonadProperties.

(** ** Copying the body *)

Section CopyProperties.

Lemma replay_app tr1 tr2 fs : replay (tr1 ++ tr2) fs = replay tr2 (replay tr1 fs).
Proof. unfold replay. apply foldl_app. Qed.

Lemma with_fs_id s : with_fs s (st_fs s) = s.
Proof. by destruct s. Qed.

Lemma copyChunks_run sink total written cs s :
  copyChunks sink total written cs s
  = (Val (written + body_size cs),
     with_fs s (replay (copy_events sink total written cs) (st_fs s)),
     copy_events sink total written cs).
Proof.
  revert written s. induction cs as [|c rest IH]; intros written s.
  - simpl. unfold ret, body_size. simpl. by rewrite Z.add_0_r, with_fs_id.
  - cbn [copyChunks copy_events]. unfold bind, emit, infof, emit. cbn [st_fs st_store].
    rewrite IH. cbn [st_fs st_store with_fs]. unfold body_size. simpl concat.
    rewrite length_app, Nat2Z.inj_add, Z.add_assoc. reflexivity.
Qed.

Lemma io_Copy_run sink total body s :
  io_Copy sink total body s
  = (Val (body_size (chunks body), ending_error (ending body)),
     with_fs s (replay (io_Copy_events sink total body) (st_fs s)),
     io_Copy_events sink total body).
Proof.
  unfold io_Copy, io_Copy_events, bind. rewrite copyChunks_run.
  rewrite replay_app.
  destruct (ending body); simpl; unfold with_fs; simpl; by rewrite ?app_nil_r.
Qed.

Lemma copy_events_quiet sink total written cs :
  (forall d, quiet (sink d)) ->
  Forall quiet (copy_events sink total written cs).
Proof.
  intros Hs. revert written. induction cs as [|c rest IH]; intros written; simpl.
  - constructor.
  - constructor; [apply Hs |]. constructor; [done |]. apply IH.
Qed.

Lemma io_Copy_events_quiet sink total body :
  (forall d, quiet (sink d)) -> Forall quiet (io_Copy_events sink total body).
Proof.
  intros Hs. apply Forall_app. split; [by apply copy_events_quiet |].
  destruct (ending body); simpl;
    [constructor | constructor | constructor; [apply Hs | constructor]].
Qed.

End CopyProperties.

(** ** The polling loop *)

Section PollProperties.

Context (baseURL apiKey jobID : string).

Let statusURL := TrimRightSlash baseURL +:+ "/videos/" +:+ jobID.
Let contentURL := TrimRightSlash baseURL +:+ "/videos/" +:+ jobID +:+ "/content".
Let status_request := Net (GetStatus statusURL apiKey).

Lemma fetch_answers r st s :
  answers r st ->
  fetchVideoStatus r baseURL apiKey jobID s = (Val (Ok st), s, [status_request]).
Proof.
  intros (code & text & -> & Hc). apply is_2xx_iff in Hc.
  unfold fetchVideoStatus, bind. rewrite emit_quiet by done.
  by rewrite Hc.
Qed.

Lemma fetch_fails r s :
  poll_fails r ->
  exists e sent,
    fetchVideoStatus r baseURL apiKey jobID s = (Val (Err e), s, sent) /\
    (sent = [] \/ sent = [status_request]).
Proof.
  intros Hf. unfold fetchVideoStatus, bind.
  destruct r as [| |code text payload].
  - by exists ErrNewRequest, []; auto.
  - rewrite emit_quiet by done. by exists ErrTransport, [status_request]; auto.
  - rewrite emit_quiet by done.
    destruct (is_2xx code) eqn:Hc; simpl.
    + destruct payload as [st|].
      * exfalso. apply (Hf st). exists code, text. by rewrite <- is_2xx_iff.
      * by exists ErrDecode, [status_request]; auto.
    + by exists (ErrAPI code text), [status_request]; auto.
Qed.

(** A failed poll is reported and the loop goes on with the next turn. *)
Lemma pollLoop_retry r rest s :
  poll_fails r ->
  exists e sent,
    pollLoop baseURL apiKey jobID (Poll r :: rest) s
    = after_events (sent ++ [Stderr (MPollError e)])
        (pollLoop baseURL apiKey jobID rest s) /\
    (sent = [] \/ sent = [status_request]).
Proof.
  intros Hf. destruct (fetch_fails r s Hf) as (e & sent & Hfetch & Hsent).
  exists e, sent. split; [| done].
  cbn [pollLoop]. unfold bind at 1. rewrite Hfetch.
  unfold bind at 1. rewrite emit_quiet by done.
  unfold after_events.
  destruct (pollLoop baseURL apiKey jobID rest s) as [[x s'] tr]. simpl.
  by rewrite <- app_assoc.
Qed.

(** An error message in the status ends the run at once. *)
Lemma pollLoop_job_error r st m rest s :
  answers r st -> reports_error st m ->
  pollLoop baseURL apiKey jobID (Poll r :: rest) s
  = (Exit 1, s, [status_request; Stderr (MJobError m)]).
Proof.
  intros Ha (a & He & Hm & Hne).
  cbn [pollLoop]. unfold bind at 1. rewrite (fetch_answers _ _ _ Ha).
  assert (has_message (vs_Error st) = true) as ->.
  { apply has_message_true. exists a. by subst. }
  unfold bind, os_Exit. rewrite emit_quiet by done.
  rewrite He. simpl. by subst.
Qed.

Lemma bar_when progress s :
  when (0 <? progress) (emit (Stderr (MProgressBar progress))) s
  = (Val tt, s, bar_events progress).
Proof.
  unfold when, bar_events. destruct (0 <? progress); [| done].
  by rewrite emit_quiet.
Qed.

(** A status in neither vocabulary: the loop goes on with the next turn. *)
Lemma pollLoop_other r st rest s :
  answers r st -> no_error_message st ->
  ~ names (vs_Status st) successStatuses ->
  ~ names (vs_Status st) failureStatuses ->
  pollLoop baseURL apiKey jobID (Poll r :: rest) s
  = after_events (status_request :: bar_events (vs_Progress st))
      (pollLoop baseURL apiKey jobID rest s).
Proof.
  intros Ha Hno Hs Hf.
  cbn [pollLoop]. unfold bind at 1. rewrite (fetch_answers _ _ _ Ha).
  apply has_message_false in Hno. rewrite Hno.
  unfold bind at 1. rewrite bar_when.
  rewrite <- isSuccess_names in Hs. rewrite <- isFailure_names in Hf.
  apply not_true_is_false in Hs, Hf. rewrite Hs, Hf.
  unfold after_events.
  by destruct (pollLoop baseURL apiKey jobID rest s) as [[x s'] tr].
Qed.

(** A status of the success vocabulary ends the loop with the URL of the
    content. *)
Lemma pollLoop_success r st rest s :
  answers r st -> no_error_message st ->
  names (vs_Status st) successStatuses ->
  pollLoop baseURL apiKey jobID (Poll r :: rest) s
  = (Val contentURL, s,
     status_request :: bar_events (vs_Progress st)
       ++ [Stderr (MProgressBar 100); Stderr MProgressBarFinish]).
Proof.
  intros Ha Hno Hs.
  cbn [pollLoop]. unfold bind at 1. rewrite (fetch_answers _ _ _ Ha).
  apply has_message_false in Hno. rewrite Hno.
  unfold bind at 1. rewrite bar_when.
  apply isSuccess_names in Hs. rewrite Hs.
  unfold bind, ret. by rewrite !emit_quiet by done.
Qed.

(** A status of the failure vocabulary ends the run. *)
Lemma pollLoop_failure r st rest s :
  answers r st -> no_error_message st ->
  names (vs_Status st) failureStatuses ->
  pollLoop baseURL apiKey jobID (Poll r :: rest) s
  = (Exit 1, s, status_request :: bar_events (vs_Progress st) ++ [Stderr MJobFailed]).
Proof.
  intros Ha Hno Hf.
  cbn [pollLoop]. unfold bind at 1. rewrite (fetch_answers _ _ _ Ha).
  apply has_message_false in Hno. rewrite Hno.
  unfold bind at 1. rewrite bar_when.
  apply isFailure_names in Hf. rewrite Hf.
  destruct (isSuccess (ToLower (vs_Status st))) eqn:Hs.
  { apply not_both_vocabularies in Hs. congruence. }
  unfold bind, os_Exit. by rewrite emit_quiet by done.
Qed.

Lemma after_events_app {A} tr1 tr2 (x : res A * State * list Event) :
  after_events tr1 (after_events tr2 x) = after_events (tr1 ++ tr2) x.
Proof. unfold after_events. simpl. by rewrite app_assoc. Qed.

Lemma bar_events_stderr progress :
  Forall (fun e => e = status_request \/ is_stderr e = true) (bar_events progress).
Proof.
  unfold bar_events.
  destruct (0 <? progress); [constructor; [by right | constructor] | constructor].
Qed.

(** The turns after which the loop goes on only add polling events. *)
Lemma pollLoop_pending pre ts s :
  Forall pending pre ->
  exists tr,
    pollLoop baseURL apiKey jobID (pre ++ ts) s
    = after_events tr (pollLoop baseURL apiKey jobID ts s) /\
    polling_only status_request tr.
Proof.
  induction 1 as [|t pre Ht Hpre (tr & IH & Hpoll)].
  - exists []. split; [| constructor]. unfold after_events.
    change ([] ++ ts) with ts.
    by destruct (pollLoop baseURL apiKey jobID ts s) as [[x s'] tr].
  - destruct Ht as (r & -> & [Hf | (st & Ha & Hno & Hs & Hfl)]).
    + destruct (pollLoop_retry r (pre ++ ts) s Hf) as (e & sent & Hstep & Hsent).
      exists ((sent ++ [Stderr (MPollError e)]) ++ tr). split.
      * change ((Poll r :: pre) ++ ts) with (Poll r :: pre ++ ts).
        by rewrite Hstep, IH, after_events_app.
      * apply Forall_app. split; [| done]. apply Forall_app. split.
        -- destruct Hsent as [-> | ->]; [constructor | constructor; [by left | constructor]].
        -- constructor; [by right | constructor].
    + exists ((status_request :: bar_events (vs_Progress st)) ++ tr). split.
      * change ((Poll r :: pre) ++ ts) with (Poll r :: pre ++ ts).
        by rewrite (pollLoop_other r st _ s Ha Hno Hs Hfl), IH, after_events_app.
      * apply Forall_app. split; [| done].
        constructor; [by left | apply bar_events_stderr].
Qed.

Lemma polling_only_requests tr :
  polling_only status_request tr ->
  exists k, requests_of tr = replicate k (GetStatus statusURL apiKey).
Proof.
  induction 1 as [|e tr He _ (k & IH)]; [by exists 0%nat |].
  destruct He as [-> | He].
  - exists (S k). unfold status_request. by rewrite requests_of_net, IH.
  - exists k. rewrite requests_of_other; [done | by destruct e].
Qed.

Lemma polling_only_counts tr :
  polling_only status_request tr ->
  count is_download tr = 0%nat /\ count is_history_write tr = 0%nat /\
  count is_fs tr = 0%nat /\ stdout_of tr = [].
Proof.
  induction 1 as [|e tr He _ (IH1 & IH2 & IH3 & IH4)]; [done |].
  rewrite !count_cons, IH1, IH2, IH3.
  change (e :: tr) with ([e] ++ tr). rewrite stdout_of_app, IH4.
  destruct He as [-> | He]; [done | by destruct e].
Qed.

End PollProperties.

(** ** The download *)

Section DownloadProperties.

Context (w : World) (apiKey downloadURL : string).

Let content_request := Net (GetContent downloadURL apiKey).

(** Streaming to standard output: the events are the request, the chunks on
    standard output with the progress on standard error, and the closing
    message; the file system is not touched. *)
Lemma downloadFile_stream code text total body s :
  download_result w = DlResponse code text total body ->
  is_2xx code = true ->
  downloadFile w apiKey downloadURL "-" s
  = (Val (ending_error (ending body)), s,
     content_request :: io_Copy_events Stdout total body
       ++ match ending_error (ending body) with
          | None => [Stderr (MDownloaded (body_size (chunks body)))]
          | Some _ => []
          end).
Proof.
  intros Hr Hc. unfold downloadFile. rewrite Hr.
  unfold bind at 1. rewrite emit_quiet by done. rewrite Hc. cbn [negb].
  change (String.eqb "-" "-") with true. cbv iota.
  unfold bind at 1. rewrite io_Copy_run. cbn [snd fst].
  assert (Hfs : replay (io_Copy_events Stdout total body) (st_fs s) = st_fs s).
  { unfold io_Copy_events. rewrite replay_app.
    assert (Hc' : forall n cs fs, replay (copy_events Stdout total n cs) fs = fs).
    { intros n cs. revert n. induction cs as [|c cs IH]; intros n fs; [done |].
      simpl. apply IH. }
    rewrite Hc'. by destruct (ending body). }
  rewrite Hfs, with_fs_id.
  destruct (ending_error (ending body)) eqn:He.
  - unfold ret. simpl. by rewrite ?app_nil_r.
  - unfold bind, infof, ret. rewrite emit_quiet by done. simpl. by rewrite ?app_nil_r.
Qed.

End DownloadProperties.

Section Tame.

Context (P : Event -> Prop).

Lemma tame_ret {A} (a : A) : tame_by P (ret a).
Proof. intros s. exists a, []. split; [| constructor]. unfold ret. simpl. by rewrite with_fs_id. Qed.

Lemma tame_emit e : P e -> tame_by P (emit e).
Proof. intros He s. exists tt, [e]. split; [done | by constructor]. Qed.

Lemma tame_bind {A B} (m : M A) (k : A -> M B) :
  tame_by P m -> (forall a, tame_by P (k a)) -> tame_by P (bind m k).
Proof.
  intros Hm Hk s. destruct (Hm s) as (a & tr1 & Em & Q1).
  destruct (Hk a (with_fs s (replay tr1 (st_fs s)))) as (b & tr2 & Ek & Q2).
  exists b, (tr1 ++ tr2). split; [| by apply Forall_app].
  unfold bind. rewrite Em, Ek. by rewrite replay_app.
Qed.

Lemma tame_when b m : tame_by P m -> tame_by P (when b m).
Proof. intros Hm. destruct b; [done | apply tame_ret]. Qed.

Lemma tame_io_Copy sink total body :
  (forall d, P (sink d)) -> (forall m, P (Stderr m)) ->
  tame_by P (io_Copy sink total body).
Proof.
  intros Hs Hm s. eexists _, _. split; [apply io_Copy_run |].
  unfold io_Copy_events. apply Forall_app. split.
  - generalize 0. induction (chunks body) as [|c cs IH]; intros n; simpl.
    + constructor.
    + constructor; [apply Hs |]. constructor; [apply Hm | apply IH].
  - destruct (ending body); simpl; [constructor | constructor |].
    constructor; [apply Hs | constructor].
Qed.

Lemma quiet_fs op : quiet (Fs op).
Proof. done. Qed.

Lemma quiet_stderr m : quiet (Stderr m).
Proof. done. Qed.

Lemma quiet_stdout d : quiet (Stdout d).
Proof. done. Qed.

End Tame.

Ltac tame_step :=
  first
    [ apply tame_io_Copy; intros ?; done
    | apply tame_ret
    | apply tame_emit; done
    | apply tame_when
    | apply tame_bind; [| intros ?]
    | match goal with |- tame_by _ (if ?b then _ else _) => destruct b end
    | match goal with |- tame_by _ (match ?x with _ => _ end) => destruct x end ].

Section DownloadTame.

Lemma tame_writeAndRename w total body tmp outPath :
  tame (writeAndRename w total body tmp outPath).
Proof. unfold writeAndRename, infof. repeat tame_step. Qed.

(** Whatever happens, [downloadFile] returns to its caller, sends the one
    request for the content, and leaves the history store alone. *)
Lemma downloadFile_tame w apiKey downloadURL outPath s :
  exists r tr,
    downloadFile w apiKey downloadURL outPath s
    = (Val r, with_fs s (replay tr (st_fs s)), Net (GetContent downloadURL apiKey) :: tr)
    /\ Forall quiet tr.
Proof.
  unfold downloadFile.
  assert (Hsend : forall (k : M (option error)), tame k ->
    exists r tr,
      bind (emit (Net (GetContent downloadURL apiKey))) (fun _ => k) s
      = (Val r, with_fs s (replay tr (st_fs s)), Net (GetContent downloadURL apiKey) :: tr)
      /\ Forall quiet tr).
  { intros k Hk. unfold bind. rewrite emit_quiet by done.
    destruct (Hk s) as (r & tr & -> & Q). by exists r, tr. }
  destruct (download_result w); apply Hsend; unfold infof; repeat tame_step.
Qed.

End DownloadTame.

(** ** From the polling to the history *)

Section TrackProperties.

Context (fl : Flags) (w : World) (apiKey model prompt jobID : string).

Let statusURL := TrimRightSlash (baseURL fl) +:+ "/videos/" +:+ jobID.
Let contentURL := TrimRightSlash (baseURL fl) +:+ "/videos/" +:+ jobID +:+ "/content".
Let status_request := Net (GetStatus statusURL apiKey).
Let content_request := Net (GetContent contentURL apiKey).

Lemma recordHistory_run entry s :
  exists err s' tr,
    recordHistory entry s = (Val err, s', tr) /\
    st_fs s' = st_fs s /\
    (tr = [] \/ exists h, tr = [HistorySaved h]).
Proof.
  unfold recordHistory, bind, get_store, put_store, ret. simpl.
  destruct (addToHistory (st_store s) entry) as [s' [e|]] eqn:Ha; simpl.
  - eexists _, _, _. split; [reflexivity |]. auto.
  - destruct (hist_file s') as [| | |h].
    1-3: eexists _, _, _; split; [reflexivity |]; auto.
    eexists _, _, _. split; [reflexivity |]. simpl. eauto.
Qed.

(** What follows the polling loop: one request for the content, then events
    that are no requests. *)
Lemma after_polling s :
  let rest :=
    (fun downloadURL : string =>
       let output := destination fl jobID in
       do err <- downloadFile w apiKey downloadURL output;
       match err with
       | Some e => run emit (Stderr (MDownloadFailed e)); os_Exit 1
       | None =>
           run when (negb (String.eqb output "-")) (infof (MSaved output));
           do err <- recordHistory (history_entry fl w jobID prompt model output);
           match err with
           | Some e => infof (MHistoryWarning e)
           | None => ret tt
           end
       end) in
  exists r s' tr,
    rest contentURL s = (r, s', content_request :: tr) /\
    requests_of tr = [] /\ count is_download tr = 0%nat.
Proof.
  intros rest. unfold rest. cbv zeta.
  destruct (downloadFile_tame w apiKey contentURL (destination fl jobID) s)
    as (err & tr & Hd & Q).
  unfold bind at 1. rewrite Hd.
  pose proof (requests_of_quiet _ Q) as Hq.
  pose proof (count_quiet_download _ Q) as Hc.
  destruct err as [e|].
  - unfold bind, os_Exit, emit. simpl.
    eexists _, _, _. split; [reflexivity |].
    rewrite requests_of_app, count_app, Hq, Hc. done.
  - unfold bind at 1.
    assert (Hsaved : exists s1 tr1,
      when (negb (String.eqb (destination fl jobID) "-"))
        (infof (MSaved (destination fl jobID)))
        (with_fs s (replay tr (st_fs s))) = (Val tt, s1, tr1) /\
      requests_of tr1 = [] /\ count is_download tr1 = 0%nat).
    { unfold when, infof, emit, ret. destruct (negb _); eexists _, _; eauto. }
    destruct Hsaved as (s1 & tr1 & -> & Hq1 & Hc1).
    unfold bind at 1.
    destruct (recordHistory_run (history_entry fl w jobID prompt model (destination fl jobID)) s1)
      as (err & s2 & tr2 & -> & _ & Htr2).
    assert (requests_of tr2 = [] /\ count is_download tr2 = 0%nat) as [Hq2 Hc2].
    { by destruct Htr2 as [-> | (h & ->)]. }
    destruct err as [e|]; unfold infof, emit, ret; simpl;
      (eexists _, _, _; split; [reflexivity |]);
      rewrite !requests_of_app, !count_app, Hq, Hq1, Hq2, Hc, Hc1, Hc2; done.
Qed.

End TrackProperties.

Lemma count_download_requests tr :
  count is_download tr
  = length (filter (fun r => is_content r = true) (requests_of tr)).
Proof.
  induction tr as [|e tr IH]; [done |]. rewrite count_cons, IH.
  destruct e as [| |r| |]; try done. rewrite requests_of_net.
  destruct r; [rewrite filter_cons_False by done | rewrite filter_cons_False by done
               | rewrite filter_cons_True by done]; done.
Qed.

Lemma status_requests_no_content k url key :
  filter (fun r => is_content r = true) (replicate k (GetStatus url key)) = [].
Proof.
  induction k as [|k IH]; [done |]. cbn [replicate].
  rewrite filter_cons_False; [exact IH | done].
Qed.

(** C2, as stated, fails on a status response whose error object has an
    empty message: with the status "queued" the run does not end there but
    polls again, and goes on to the download when the next status is a
    success. *)
Lemma error_field_with_empty_message_polls_on :
  let errored := {| vs_ID := "video_1"; vs_Status := "queued";
                    vs_Error := Some {| Message := ""; Type_ := "server_error" |};
                    vs_Progress := 0 |} in
  let finished := {| vs_ID := "video_1"; vs_Status := "succeeded";
                     vs_Error := None; vs_Progress := 100 |} in
  let s := initial ∅ (sample_store HistMissing) in
  vs_Error errored <> None /\
  pollLoop "https://api.openai.com/v1" "sk-key" "video_1"
    [Poll (Response 200 "" (Some errored)); Poll (Response 200 "" (Some finished))] s
  = (Val "https://api.openai.com/v1/videos/video_1/content", s,
     [Net (GetStatus "https://api.openai.com/v1/videos/video_1" "sk-key");
      Net (GetStatus "https://api.openai.com/v1/videos/video_1" "sk-key");
      Stderr (MProgressBar 100); Stderr (MProgressBar 100); Stderr MProgressBarFinish]).
Proof. split; [done | reflexivity]. Qed.

(** C2, amended.  In the polling loop a poll that fails is reported and
    retried on the next turn; a status response whose error field carries a
    message that is not empty ends the run with status 1 whatever turns
    would follow; a status is matched through its lower case
    ([strings.ToLower]): one whose lower case is in neither vocabulary
    keeps the loop polling; when the first status that ends the loop has
    its lower case in the success vocabulary, the requests of the run from
    the polling on are status requests followed by exactly one request for
    the content, the last of all; when it has it in the failure vocabulary
    the run ends with status 1 without any download and without any write
    of the history.  On a status of ASCII bytes the match is equality with
    a word of the vocabulary up to the case of the letters; beyond ASCII
    the lower case is that of Unicode, so that [FA], U+0130, [LED] is a
    failure status. *)
Theorem polling_outcomes (fl : Flags) (w : World)
    (apiKey model prompt jobID : string) (s : State) :
  let statusURL := TrimRightSlash (baseURL fl) +:+ "/videos/" +:+ jobID in
  let contentURL := TrimRightSlash (baseURL fl) +:+ "/videos/" +:+ jobID +:+ "/content" in
  let poll := pollLoop (baseURL fl) apiKey jobID in
  let track := trackJob fl w apiKey model prompt jobID in
  (forall r rest, poll_fails r ->
     exists e sent,
       poll (Poll r :: rest) s
       = after_events (sent ++ [Stderr (MPollError e)]) (poll rest s) /\
       (sent = [] \/ sent = [Net (GetStatus statusURL apiKey)])) /\
  (forall r st m rest, answers r st -> reports_error st m ->
     poll (Poll r :: rest) s
     = (Exit 1, s, [Net (GetStatus statusURL apiKey); Stderr (MJobError m)])) /\
  (forall r st rest, answers r st -> no_error_message st ->
     ~ names (vs_Status st) successStatuses ->
     ~ names (vs_Status st) failureStatuses ->
     poll (Poll r :: rest) s
     = after_events (Net (GetStatus statusURL apiKey) :: bar_events (vs_Progress st))
         (poll rest s)) /\
  (forall pre r st rest,
     ticks w = pre ++ Poll r :: rest -> Forall pending pre ->
     answers r st -> no_error_message st ->
     names (vs_Status st) successStatuses ->
     (exists k, requests_of (trace_of (track s))
                = replicate k (GetStatus statusURL apiKey)
                  ++ [GetStatus statusURL apiKey; GetContent contentURL apiKey]) /\
     count is_download (trace_of (track s)) = 1%nat) /\
  (forall pre r st rest,
     ticks w = pre ++ Poll r :: rest -> Forall pending pre ->
     answers r st -> no_error_message st ->
     names (vs_Status st) failureStatuses ->
     exists tr, track s = (Exit 1, s, tr) /\
       count is_download tr = 0%nat /\ count is_history_write tr = 0%nat) /\
  (forall status vocabulary,
     vocabulary = successStatuses \/ vocabulary = failureStatuses ->
     isASCII status = true ->
     names status vocabulary
     <-> exists word, word ∈ vocabulary /\ same_letters status word = true) /\
  names dotted_FAILED failureStatuses.
Proof.
  intros statusURL contentURL poll track.
  assert (Hmatch : (forall status vocabulary,
     vocabulary = successStatuses \/ vocabulary = failureStatuses ->
     isASCII status = true ->
     names status vocabulary
     <-> exists word, word ∈ vocabulary /\ same_letters status word = true) /\
    names dotted_FAILED failureStatuses).
  { split.
    - intros status vocabulary Hv Hascii. apply names_ascii; [| done].
      intros word Hin. apply vocabulary_lower, elem_of_app.
      destruct Hv as [-> | ->]; [by left | by right].
    - apply isFailure_names. vm_compute. reflexivity. }
  split; [intros r rest; apply pollLoop_retry |].
  split; [intros r st m rest; apply pollLoop_job_error |].
  split; [intros r st rest; apply pollLoop_other |].
  split.
  - intros pre r st rest Ht Hpre Ha Hno Hs.
    assert (Hreq : exists k, requests_of (trace_of (track s))
                = replicate k (GetStatus statusURL apiKey)
                  ++ [GetStatus statusURL apiKey; GetContent contentURL apiKey]).
    { unfold track, trackJob. rewrite Ht.
      destruct (pollLoop_pending (baseURL fl) apiKey jobID pre (Poll r :: rest) s Hpre)
        as (tr0 & Hskip & Hpoll).
      destruct (polling_only_requests _ _ _ _ Hpoll) as (k & Hk).
      exists k. unfold bind at 1. rewrite Hskip.
      rewrite (pollLoop_success _ _ _ r st rest s Ha Hno Hs).
      unfold after_events. cbn [fst snd].
      destruct (after_polling fl w apiKey model prompt jobID s)
        as (x & s' & tr & Hrest & Hq & _).
      cbv zeta in Hrest. rewrite Hrest. unfold trace_of. cbn [snd].
      rewrite !requests_of_app, Hk, requests_of_net, requests_of_app.
      rewrite (requests_of_quiet (bar_events _)).
      2:{ unfold bar_events. destruct (0 <? vs_Progress st); by repeat constructor. }
      rewrite requests_of_net, Hq. cbn [app requests_of omap].
      by rewrite <- app_assoc. }
    split; [exact Hreq |].
    destruct Hreq as (k & Hk). rewrite count_download_requests, Hk.
    rewrite filter_app, length_app.
    rewrite status_requests_no_content.
    rewrite filter_cons_False by done. by rewrite filter_cons_True.
  - split; [| exact Hmatch].
    intros pre r st rest Ht Hpre Ha Hno Hf.
    unfold track, trackJob. rewrite Ht.
    destruct (pollLoop_pending (baseURL fl) apiKey jobID pre (Poll r :: rest) s Hpre)
      as (tr0 & Hskip & Hpoll).
    destruct (polling_only_counts _ _ _ _ Hpoll) as (Hd & Hh & _).
    unfold bind at 1. rewrite Hskip.
    rewrite (pollLoop_failure _ _ _ r st rest s Ha Hno Hf).
    unfold after_events. cbn [fst snd].
    eexists. split; [reflexivity |].
    rewrite !count_app, Hd, Hh, !count_cons, !count_app.
    unfold bar_events. by destruct (0 <? vs_Progress st).
Qed.

Section SampleTurns.

Lemma answers_intro code text st :
  200 <= code < 300 -> answers (Response code text (Some st)) st.
Proof. intros H. by exists code, text. Defined.

Lemma poll_fails_transport : poll_fails TransportError.
Proof. intros st (code & text & H & _). discriminate. Defined.

Lemma no_error_message_none st : vs_Error st = None -> no_error_message st.
Proof. intros H a Ha. rewrite H in Ha. discriminate. Defined.

Lemma pending_transport : pending (Poll TransportError).
Proof. exists TransportError. split; [done |]. left. apply poll_fails_transport. Defined.

Lemma pending_status code text status progress :
  200 <= code < 300 ->
  isSuccess (ToLower status) = false -> isFailure (ToLower status) = false ->
  pending (Poll (Response code text (Some (sample_status status progress)))).
Proof.
  intros Hc Hs Hf. eexists. split; [done |]. right.
  exists (sample_status status progress).
  split; [by apply answers_intro |].
  split; [by apply no_error_message_none |].
  split; intros H; [apply isSuccess_names in H | apply isFailure_names in H];
    simpl in H; congruence.
Defined.

End SampleTurns.

Lemma polling_outcomes_witness :
  let queued := Poll (Response 200 "" (Some (sample_status "queued" 0))) in
  let w := sample_world [Poll TransportError; queued;
                         Poll (Response 200 "" (Some (sample_status "SUCCEEDED" 100)))] in
  let w' := sample_world [queued; Poll (Response 200 "" (Some (sample_status "Failed" 40)))] in
  let w'' := sample_world [Poll (Response 200 "" (Some (sample_status dotted_FAILED 40)))] in
  count is_download
    (trace_of (trackJob sample_flags w "sk-key" "sora-2" "a kite" "video_1" sample_state))
  = 1%nat /\
  (exists tr,
     trackJob sample_flags w' "sk-key" "sora-2" "a kite" "video_1" sample_state
     = (Exit 1, sample_state, tr) /\
     count is_download tr = 0%nat /\ count is_history_write tr = 0%nat) /\
  (exists tr,
     trackJob sample_flags w'' "sk-key" "sora-2" "a kite" "video_1" sample_state
     = (Exit 1, sample_state, tr) /\
     count is_download tr = 0%nat /\ count is_history_write tr = 0%nat) /\
  (names "Done" successStatuses
   <-> exists word, word ∈ successStatuses /\ same_letters "Done" word = true).
Proof.
  intros queued w w' w''.
  assert (H200 : 200 <= 200 < 300) by lia.
  assert (Hq : pending queued) by (by apply pending_status).
  split; [| split; [| split]].
  - destruct (polling_outcomes sample_flags w "sk-key" "sora-2" "a kite" "video_1"
                sample_state) as (_ & _ & _ & Hsuccess & _).
    refine (proj2 (Hsuccess [Poll TransportError; queued]
                     (Response 200 "" (Some (sample_status "SUCCEEDED" 100)))
                     (sample_status "SUCCEEDED" 100) [] _ _ _ _ _)).
    + reflexivity.
    + repeat constructor; [apply pending_transport | exact Hq].
    + by apply answers_intro.
    + by apply no_error_message_none.
    + apply isSuccess_names. reflexivity.
  - destruct (polling_outcomes sample_flags w' "sk-key" "sora-2" "a kite" "video_1"
                sample_state) as (_ & _ & _ & _ & Hfailure & _).
    refine (Hfailure [queued] (Response 200 "" (Some (sample_status "Failed" 40)))
              (sample_status "Failed" 40) [] _ _ _ _ _).
    + reflexivity.
    + repeat constructor. exact Hq.
    + by apply answers_intro.
    + by apply no_error_message_none.
    + apply isFailure_names. reflexivity.
  - destruct (polling_outcomes sample_flags w'' "sk-key" "sora-2" "a kite" "video_1"
                sample_state) as (_ & _ & _ & _ & Hfailure & _ & Hdotted).
    refine (Hfailure [] (Response 200 "" (Some (sample_status dotted_FAILED 40)))
              (sample_status dotted_FAILED 40) [] _ _ _ _ Hdotted).
    + reflexivity.
    + constructor.
    + by apply answers_intro.
    + by apply no_error_message_none.
  - destruct (polling_outcomes sample_flags w "sk-key" "sora-2" "a kite" "video_1"
                sample_state) as (_ & _ & _ & _ & _ & Hascii & _).
    exact (Hascii "Done" successStatuses (or_introl eq_refl) eq_refl).
Defined.

(** ** Error objects without a message *)

Section CreateProperties.

Context (baseURL apiKey model prompt : string)
        (image remixFromVideoID size seconds : option string).

Let create_request :=
  Net (PostVideos (TrimRightSlash baseURL +:+ "/videos") apiKey
         {| req_Model := model; req_Prompt := prompt; req_Image := image;
            req_RemixFromVideoID := remixFromVideoID;
            req_Size := size; req_Seconds := seconds |}).

(** What [createVideoJob] makes of a 2xx answer that decodes. *)
Lemma createVideoJob_answer code text out s :
  200 <= code < 300 ->
  createVideoJob (Response code text (Some out)) baseURL apiKey model prompt
    image remixFromVideoID size seconds s
  = (Val (if has_message (cr_Error out) then Err (ErrMessage (error_message (cr_Error out)))
          else if String.eqb (cr_ID out) "" then Err ErrMissingJobID
          else Ok (cr_ID out)),
     s, [create_request]).
Proof.
  intros Hc. apply is_2xx_iff in Hc.
  unfold createVideoJob, bind. rewrite emit_quiet by done. rewrite Hc. cbn [negb].
  destruct (has_message (cr_Error out)); [done |].
  by destruct (String.eqb (cr_ID out) "").
Qed.

(** Every outcome of [createVideoJob]: it returns, leaves the state alone,
    and has sent its one request unless the request could not be built. *)
Lemma createVideoJob_run r s :
  exists job sent,
    createVideoJob r baseURL apiKey model prompt image remixFromVideoID size seconds s
    = (Val job, s, sent) /\
    (sent = [] \/ sent = [create_request]).
Proof.
  unfold createVideoJob, bind. destruct r as [| |code text payload].
  - eexists _, _. split; [reflexivity | by left].
  - rewrite emit_quiet by done. eexists _, _. split; [reflexivity | by right].
  - rewrite emit_quiet by done.
    destruct (negb (is_2xx code)); [eexists _, _; split; [reflexivity | by right] |].
    destruct payload as [out|]; [| eexists _, _; split; [reflexivity | by right]].
    destruct (has_message (cr_Error out)); [eexists _, _; split; [reflexivity | by right] |].
    destruct (String.eqb (cr_ID out) ""); eexists _, _; (split; [reflexivity | by right]).
Qed.

End CreateProperties.

(** C10.  An error object whose message is empty counts as no error object:
    the polling loop does on it what it does on the same status without the
    error field, so it polls on when the status is in neither vocabulary;
    [createVideoJob] does on a 2xx answer with it what it does without it,
    so it returns the job identifier when there is one.  An error object
    with a message that is not empty ends the polling with status 1 and
    makes [createVideoJob] fail with that message. *)
Theorem empty_error_message_ignored (ty : string) (s : State) :
  let empty := Some {| Message := ""; Type_ := ty |} in
  (forall baseURL apiKey jobID code text id status progress rest,
     let response e :=
       Poll (Response code text
               (Some {| vs_ID := id; vs_Status := status; vs_Error := e;
                        vs_Progress := progress |})) in
     pollLoop baseURL apiKey jobID (response empty :: rest) s
     = pollLoop baseURL apiKey jobID (response None :: rest) s /\
     (200 <= code < 300 ->
      ~ names status successStatuses -> ~ names status failureStatuses ->
      pollLoop baseURL apiKey jobID (response empty :: rest) s
      = after_events
          (Net (GetStatus (TrimRightSlash baseURL +:+ "/videos/" +:+ jobID) apiKey)
             :: bar_events progress)
          (pollLoop baseURL apiKey jobID rest s)) /\
     (forall a, 200 <= code < 300 -> Message a <> "" ->
      pollLoop baseURL apiKey jobID (response (Some a) :: rest) s
      = (Exit 1, s,
         [Net (GetStatus (TrimRightSlash baseURL +:+ "/videos/" +:+ jobID) apiKey);
          Stderr (MJobError (Message a))]))) /\
  (forall baseURL apiKey model prompt image remix size seconds code text id status,
     let create e :=
       createVideoJob
         (Response code text (Some {| cr_ID := id; cr_Status := status; cr_Error := e |}))
         baseURL apiKey model prompt image remix size seconds s in
     create empty = create None /\
     (200 <= code < 300 -> id <> "" -> result_of (create empty) = Val (Ok id)) /\
     (forall a, 200 <= code < 300 -> Message a <> "" ->
      result_of (create (Some a)) = Val (Err (ErrMessage (Message a))))).
Proof.
  intros empty. split.
  - intros baseURL apiKey jobID code text id status progress rest response.
    split.
    { unfold response. cbn [pollLoop]. unfold fetchVideoStatus, bind.
      rewrite emit_quiet by done. by destruct (negb (is_2xx code)). }
    split.
    + intros Hc Hs Hf.
      apply (pollLoop_other baseURL apiKey jobID _
               {| vs_ID := id; vs_Status := status; vs_Error := empty;
                  vs_Progress := progress |}); try done.
      * by apply answers_intro.
      * by intros a [= <-].
    + intros a Hc Ha.
      apply (pollLoop_job_error baseURL apiKey jobID _
               {| vs_ID := id; vs_Status := status; vs_Error := Some a;
                  vs_Progress := progress |}).
      * by apply answers_intro.
      * by exists a.
  - intros baseURL apiKey model prompt image remix size seconds code text id status create.
    split.
    { unfold create, createVideoJob, bind. rewrite emit_quiet by done.
      by destruct (negb (is_2xx code)). }
    split.
    + intros Hc Hid. unfold create. rewrite createVideoJob_answer by done.
      unfold result_of. simpl. apply String.eqb_neq in Hid. by rewrite Hid.
    + intros a Hc Ha. unfold create. rewrite createVideoJob_answer by done.
      unfold result_of. simpl. apply String.eqb_neq in Ha. by rewrite Ha.
Qed.

Lemma empty_error_message_ignored_witness :
  let empty := Some {| Message := ""; Type_ := "server_error" |} in
  let refused := {| Message := "content policy"; Type_ := "invalid_request" |} in
  let status e := {| vs_ID := "video_1"; vs_Status := "in_progress"; vs_Error := e;
                     vs_Progress := 30 |} in
  let created e := {| cr_ID := "video_1"; cr_Status := "queued"; cr_Error := e |} in
  pollLoop "https://api.openai.com/v1" "sk-key" "video_1"
    [Poll (Response 200 "" (Some (status empty)))] sample_state
  = (Exit 1, sample_state,
     [Net (GetStatus "https://api.openai.com/v1/videos/video_1" "sk-key");
      Stderr (MProgressBar 30); Stderr MContextDone]) /\
  pollLoop "https://api.openai.com/v1" "sk-key" "video_1"
    [Poll (Response 200 "" (Some (status (Some refused))))] sample_state
  = (Exit 1, sample_state,
     [Net (GetStatus "https://api.openai.com/v1/videos/video_1" "sk-key");
      Stderr (MJobError "content policy")]) /\
  result_of
    (createVideoJob (Response 200 "" (Some (created empty)))
       "https://api.openai.com/v1" "sk-key" "sora-2" "a kite" None None
       (Some "1280x720") (Some "12") sample_state)
  = Val (Ok "video_1") /\
  result_of
    (createVideoJob (Response 200 "" (Some (created (Some refused))))
       "https://api.openai.com/v1" "sk-key" "sora-2" "a kite" None None
       (Some "1280x720") (Some "12") sample_state)
  = Val (Err (ErrMessage "content policy")).
Proof.
  intros empty refused status created.
  assert (H200 : 200 <= 200 < 300) by lia.
  destruct (empty_error_message_ignored "server_error" sample_state) as [Hpoll Hcreate].
  destruct (Hpoll "https://api.openai.com/v1" "sk-key" "video_1" 200 "" "video_1"
              "in_progress" 30 []) as (_ & Hon & Hfatal).
  destruct (Hcreate "https://api.openai.com/v1" "sk-key" "sora-2" "a kite" None None
              (Some "1280x720") (Some "12") 200 "" "video_1" "queued")
    as (_ & Hid & Hmsg).
  split.
  { unfold status, empty. rewrite Hon; [reflexivity | exact H200 | |].
    - intros H. apply isSuccess_names in H. discriminate.
    - intros H. apply isFailure_names in H. discriminate. }
  split; [exact (Hfatal refused H200 ltac:(discriminate)) |].
  split; [exact (Hid H200 ltac:(discriminate)) |].
  exact (Hmsg refused H200 ltac:(discriminate)).
Defined.

(** ** Downloads to a named file *)

Section FileDownload.

Context (w : World) (apiKey downloadURL outPath : string).

Let tmp := outPath +:+ ".part".
Let content_request := Net (GetContent downloadURL apiKey).

(** The state after [downloadFile] is the state before with the file
    operations of its trace applied. *)
Lemma downloadFile_state s r s' tr :
  downloadFile w apiKey downloadURL outPath s = (r, s', tr) ->
  exists tr', tr = content_request :: tr' /\ s' = with_fs s (replay tr' (st_fs s)) /\
              Forall quiet tr' /\ exists err, r = Val err.
Proof.
  destruct (downloadFile_tame w apiKey downloadURL outPath s) as (err & tr' & -> & Q).
  intros [= <- <- <-]. exists tr'. eauto.
Qed.

Lemma tmp_not_final : tmp <> outPath.
Proof.
  unfold tmp. intros H. apply (f_equal String.length) in H.
  revert H. generalize outPath. intros p. induction p as [|c p IH]; simpl.
  - discriminate.
  - intros [= H]. by apply IH.
Qed.

(** A download to a named file in which nothing fails. *)
Lemma downloadFile_file_ok total body s :
  download_succeeds w total body -> outPath <> "-" ->
  downloadFile w apiKey downloadURL outPath s
  = (Val None,
     with_fs s (replay (file_download_events w total body outPath) (st_fs s)),
     content_request :: file_download_events w total body outPath).
Proof.
  intros ((code & text & Hr & Hc) & Hend & Hmk & Hcr & Hsy & Hcl & Hrn) Hout.
  destruct (downloadFile w apiKey downloadURL outPath s) as [[r s'] tr] eqn:Hrun.
  destruct (downloadFile_state _ _ _ _ Hrun) as (tr' & -> & -> & _ & (err & ->)).
  revert Hrun. unfold downloadFile. rewrite Hr.
  unfold bind at 1. rewrite emit_quiet by done.
  apply is_2xx_iff in Hc. rewrite Hc. cbn [negb].
  apply String.eqb_neq in Hout. rewrite Hout.
  rewrite Hmk, Hcr. cbn [negb].
  unfold writeAndRename.
  unfold bind at 1. 
  assert (Hmkdir : forall s0, when (needs_mkdir (output_dir w)) (emit (Fs (MkdirAll (output_dir w)))) s0
                   = (Val tt, s0, mkdir_events (output_dir w))).
  { intros s0. unfold when, mkdir_events, emit, ret.
    destruct (needs_mkdir (output_dir w)); [| done]. simpl. by destruct s0. }
  rewrite Hmkdir. unfold bind at 1. unfold emit at 1.
  unfold bind at 1. unfold bind at 1. rewrite io_Copy_run. cbn [fst snd].
  rewrite Hend. cbn [ending_error]. rewrite Hsy, Hcl, Hrn. cbn [negb].
  unfold bind, infof, emit, when, ret. cbn.
  intros [= <- _ <-]. unfold file_download_events. fold tmp.
  by rewrite !app_nil_r.
Qed.

(** The file system after the writes of [io.Copy] to the temporary file. *)
Lemma replay_writes total n cs (fs : FileSystem) :
  replay (copy_events (fun data => Fs (FWrite tmp data)) total n cs) fs
  = alter (fun old => old ++ concat cs) tmp fs.
Proof.
  revert n fs. induction cs as [|c cs IH]; intros n fs.
  - simpl. symmetry. apply alter_id. intros x _. apply app_nil_r.
  - cbn [copy_events]. unfold replay in *. cbn [foldl fs_of_event fs_apply].
    rewrite IH. apply map_eq. intros p.
    destruct (decide (tmp = p)) as [<- | Hp].
    + rewrite !lookup_alter_eq. destruct (fs !! tmp); [simpl | reflexivity].
      by rewrite <- app_assoc.
    + by rewrite !lookup_alter_ne.
Qed.

(** After a download to a named file in which nothing fails the file holds
    the body, the temporary file is gone and the other files are as they
    were. *)
Lemma file_download_result total body (fs : FileSystem) :
  ending body = EndEOF ->
  let fs' := replay (file_download_events w total body outPath) fs in
  fs' !! outPath = Some (concat (chunks body)) /\
  fs' !! tmp = None /\
  (forall p, p <> outPath -> p <> tmp -> fs' !! p = fs !! p).
Proof.
  intros Hend fs'. pose proof tmp_not_final as Hne.
  assert (Hfs : fs' = <[outPath := concat (chunks body)]> (delete tmp fs)).
  { unfold fs', file_download_events. fold tmp. rewrite replay_app.
    assert (replay (mkdir_events (output_dir w)) fs = fs) as ->.
    { unfold mkdir_events. by destruct (needs_mkdir _). }
    change (Fs (Create tmp) :: ?l) with ([Fs (Create tmp)] ++ l).
    rewrite !replay_app. unfold io_Copy_events. rewrite Hend, app_nil_r, replay_writes.
    unfold replay. cbn [foldl fs_of_event fs_apply].
    rewrite lookup_alter_eq, lookup_insert_eq. simpl.
    f_equal. apply map_eq. intros p.
    destruct (decide (tmp = p)) as [<- | Hp].
    - by rewrite !lookup_delete_eq.
    - by rewrite !lookup_delete_ne, lookup_alter_ne, lookup_insert_ne. }
  rewrite Hfs. split; [apply lookup_insert_eq |]. split.
  - rewrite lookup_insert_ne by done. apply lookup_delete_eq.
  - intros p Hp Hp'. by rewrite lookup_insert_ne, lookup_delete_ne.
Qed.

End FileDownload.

(** ** Runs that succeed *)

Section TrackSuccess.

Context (fl : Flags) (w : World) (apiKey model prompt jobID : string).

Let statusURL := TrimRightSlash (baseURL fl) +:+ "/videos/" +:+ jobID.
Let contentURL := TrimRightSlash (baseURL fl) +:+ "/videos/" +:+ jobID +:+ "/content".
Let status_request := Net (GetStatus statusURL apiKey).
Let content_request := Net (GetContent contentURL apiKey).

Lemma recordHistory_store entry s :
  exists tr,
    recordHistory entry s
    = (Val (addToHistory (st_store s) entry).2,
       {| st_fs := st_fs s; st_store := (addToHistory (st_store s) entry).1 |}, tr) /\
    report_only tr.
Proof.
  unfold recordHistory, bind, get_store, put_store, ret. simpl.
  destruct (addToHistory (st_store s) entry) as [s' [e|]] eqn:Ha; simpl.
  - eexists. split; [reflexivity | constructor].
  - destruct (hist_file s') as [| | |h];
      (eexists; split; [reflexivity |]);
      [constructor | constructor | constructor | constructor; [by right | constructor]].
Qed.

(** A run in which the polling ends in success and the download does not
    fail: polling events, the request for the content, the events of the
    download, and reports. *)
Lemma trackJob_success total body s :
  polling_succeeds w -> download_succeeds w total body ->
  let out := destination fl jobID in
  let entry := history_entry fl w jobID prompt model out in
  let tr_dl := download_events w total body out in
  exists tr_poll tr_end,
    trackJob fl w apiKey model prompt jobID s
    = (Val tt,
       {| st_fs := replay tr_dl (st_fs s);
          st_store := (addToHistory (st_store s) entry).1 |},
       tr_poll ++ content_request :: tr_dl ++ tr_end) /\
    polling_only status_request tr_poll /\ report_only tr_end.
Proof.
  intros (pre & r & st & rest & Ht & Hpre & Ha & Hno & Hs) Hdl out entry tr_dl.
  destruct (pollLoop_pending (baseURL fl) apiKey jobID pre (Poll r :: rest) s Hpre)
    as (tr0 & Hskip & Hpoll).
  exists (tr0 ++ status_request :: bar_events (vs_Progress st)
            ++ [Stderr (MProgressBar 100); Stderr MProgressBarFinish]).
  assert (Hdown : exists tr1,
    downloadFile w apiKey contentURL out s
    = (Val None, with_fs s (replay tr_dl (st_fs s)), content_request :: tr_dl) /\
    when (negb (String.eqb out "-")) (infof (MSaved out))
      (with_fs s (replay tr_dl (st_fs s)))
    = (Val tt, with_fs s (replay tr_dl (st_fs s)), tr1) /\ report_only tr1).
  { unfold tr_dl, download_events. destruct (String.eqb out "-") eqn:Hout.
    - apply String.eqb_eq in Hout. rewrite Hout.
      destruct Hdl as ((code & text & Hr & Hc) & Hend & _).
      apply is_2xx_iff in Hc.
      rewrite (downloadFile_stream w apiKey contentURL code text total body s Hr Hc).
      rewrite Hend. cbn [ending_error].
      assert (replay (io_Copy_events Stdout total body ++
                      [Stderr (MDownloaded (body_size (chunks body)))]) (st_fs s)
              = st_fs s) as ->.
      { rewrite replay_app. unfold io_Copy_events. rewrite Hend, app_nil_r.
        generalize 0. generalize (st_fs s).
        induction (chunks body) as [|c cs IH]; intros fs n; [done |]. apply IH. }
      rewrite with_fs_id. exists []. split; [done |]. split; [done | constructor].
    - apply String.eqb_neq in Hout.
      rewrite (downloadFile_file_ok w apiKey contentURL out total body s Hdl Hout).
      eexists. split; [done |]. unfold when, infof, emit. cbn [negb].
      split; [reflexivity |]. constructor; [by left | constructor]. }
  destruct Hdown as (tr1 & Hdown & Hsaved & Hrep1).
  destruct (recordHistory_store entry (with_fs s (replay tr_dl (st_fs s))))
    as (tr2 & Hrec & Hrep2).
  assert (Hwarn : exists tr3,
    match (addToHistory (st_store s) entry).2 with
    | Some e => infof (MHistoryWarning e)
    | None => ret tt
    end {| st_fs := replay tr_dl (st_fs s);
           st_store := (addToHistory (st_store s) entry).1 |}
    = (Val tt, {| st_fs := replay tr_dl (st_fs s);
                  st_store := (addToHistory (st_store s) entry).1 |}, tr3) /\
    report_only tr3).
  { destruct ((addToHistory (st_store s) entry).2).
    - eexists. unfold infof. rewrite emit_quiet by done.
      split; [reflexivity |]. constructor; [by left | constructor].
    - exists []. split; [done | constructor]. }
  destruct Hwarn as (tr3 & Hwarn & Hrep3).
  exists (tr1 ++ tr2 ++ tr3). split; [| split].
  - unfold trackJob. rewrite Ht. unfold bind at 1. rewrite Hskip.
    rewrite (pollLoop_success _ _ _ r st rest s Ha Hno Hs).
    unfold after_events. cbn [fst snd].
    fold out. unfold bind at 1. fold contentURL. rewrite Hdown.
    unfold bind at 1. rewrite Hsaved.
    unfold bind at 1. fold entry. rewrite Hrec. cbn [with_fs st_fs st_store] in *.
    rewrite Hwarn. fold status_request.
    f_equal; rewrite <- ?app_assoc; simpl; by rewrite <- ?app_assoc.
  - apply Forall_app. split; [done |]. constructor; [by left |].
    apply Forall_app. split; [apply bar_events_stderr |].
    constructor; [by right |]. constructor; [by right | constructor].
  - unfold report_only in *. by rewrite !Forall_app.
Qed.

End TrackSuccess.

Section DownloadObservations.

Lemma stdout_of_copy_stream total n cs :
  stdout_of (copy_events Stdout total n cs) = concat cs.
Proof.
  revert n. induction cs as [|c cs IH]; intros n; [done |].
  cbn [copy_events]. unfold stdout_of in *. simpl. by rewrite IH.
Qed.

Lemma count_fs_copy_stream total n cs :
  count is_fs (copy_events Stdout total n cs) = 0%nat.
Proof.
  revert n. induction cs as [|c cs IH]; intros n; [done |].
  cbn [copy_events]. by rewrite !count_cons, IH.
Qed.

Lemma stdout_of_copy_file tmp total n cs :
  stdout_of (copy_events (fun data => Fs (FWrite tmp data)) total n cs) = [].
Proof.
  revert n. induction cs as [|c cs IH]; intros n; [done |].
  cbn [copy_events]. unfold stdout_of in *. simpl. by rewrite IH.
Qed.

Lemma polling_only_stdout req tr : polling_only (Net req) tr -> stdout_of tr = [].
Proof.
  induction 1 as [|e tr He _ IH]; [done |].
  change (e :: tr) with ([e] ++ tr). rewrite stdout_of_app, IH.
  destruct He as [-> | He]; [done | by destruct e].
Qed.

Lemma polling_only_fs req tr : polling_only (Net req) tr -> count is_fs tr = 0%nat.
Proof.
  induction 1 as [|e tr He _ IH]; [done |]. rewrite count_cons, IH.
  destruct He as [-> | He]; [done | by destruct e].
Qed.

Lemma report_only_stdout tr : report_only tr -> stdout_of tr = [].
Proof.
  induction 1 as [|e tr He _ IH]; [done |].
  change (e :: tr) with ([e] ++ tr). rewrite stdout_of_app, IH.
  by destruct He as [He | He]; destruct e.
Qed.

Lemma report_only_fs tr : report_only tr -> count is_fs tr = 0%nat.
Proof.
  induction 1 as [|e tr He _ IH]; [done |]. rewrite count_cons, IH.
  by destruct He as [He | He]; destruct e.
Qed.

(** Streaming: the bytes of the body on standard output, no file
    operation. *)
Lemma download_events_stream w total body :
  ending body = EndEOF ->
  let tr := download_events w total body "-" in
  stdout_of tr = concat (chunks body) /\ count is_fs tr = 0%nat /\
  forall fs, replay tr fs = fs.
Proof.
  intros Hend tr. unfold tr, download_events, io_Copy_events.
  change (String.eqb "-" "-") with true. cbv iota. rewrite Hend, app_nil_r.
  rewrite stdout_of_app, count_app, stdout_of_copy_stream, count_fs_copy_stream.
  split; [by rewrite app_nil_r |]. split; [done |].
  intros fs. rewrite replay_app. simpl.
  generalize 0. revert fs.
  induction (chunks body) as [|c cs IH]; intros fs n; [done |]. apply IH.
Qed.

(** To a named file: nothing on standard output. *)
Lemma download_events_file w total body outPath :
  outPath <> "-" -> ending body = EndEOF ->
  let tr := download_events w total body outPath in
  stdout_of tr = [] /\ tr = file_download_events w total body outPath.
Proof.
  intros Hout Hend tr. unfold tr, download_events.
  apply String.eqb_neq in Hout. rewrite Hout. split; [| done].
  unfold file_download_events, io_Copy_events. rewrite Hend, app_nil_r.
  rewrite stdout_of_app.
  assert (stdout_of (mkdir_events (output_dir w)) = []) as ->.
  { unfold mkdir_events. by destruct (needs_mkdir _). }
  change (Fs (Create ?p) :: ?l) with ([Fs (Create p)] ++ l).
  by rewrite !stdout_of_app, stdout_of_copy_file.
Qed.

Lemma job_file_not_marker jobID : jobID +:+ ".mp4" <> "-".
Proof. destruct jobID as [|c [|c' r]]; discriminate. Qed.

End DownloadObservations.

(** ** The destination of the download *)

Section DestinationProperties.

Context (fl : Flags) (w : World) (apiKey model prompt jobID : string).

(** What a successful run does by destination. *)
Lemma trackJob_by_destination total body s :
  polling_succeeds w -> download_succeeds w total body ->
  let outcome := trackJob fl w apiKey model prompt jobID s in
  let out := destination fl jobID in
  result_of outcome = Val tt /\
  st_store (state_of outcome)
  = (addToHistory (st_store s) (history_entry fl w jobID prompt model out)).1 /\
  (out = "-" ->
     stdout_of (trace_of outcome) = concat (chunks body) /\
     count is_fs (trace_of outcome) = 0%nat /\
     st_fs (state_of outcome) = st_fs s) /\
  (out <> "-" ->
     stdout_of (trace_of outcome) = [] /\
     st_fs (state_of outcome) !! out = Some (concat (chunks body)) /\
     st_fs (state_of outcome) !! (out +:+ ".part") = None).
Proof.
  intros Hpoll Hdl outcome out.
  destruct (trackJob_success fl w apiKey model prompt jobID total body s Hpoll Hdl)
    as (tr_poll & tr_end & Hrun & Hp & He).
  fold out in Hrun. unfold outcome. rewrite Hrun.
  unfold result_of, state_of, trace_of. cbn [fst snd st_fs st_store].
  pose proof Hdl as (_ & Hend & _).
  split; [done |]. split; [done |].
  rewrite !stdout_of_app, (polling_only_stdout _ _ Hp).
  change (Net ?r :: ?l) with ([Net r] ++ l).
  rewrite !stdout_of_app, !count_app, (report_only_stdout _ He), (report_only_fs _ He),
    (polling_only_fs _ _ Hp), app_nil_r.
  split.
  - intros ->. destruct (download_events_stream w total body Hend) as (H1 & H2 & H3).
    by rewrite H1, H2, H3.
  - intros Hout. destruct (download_events_file w total body out Hout Hend) as (H1 & H2).
    rewrite H1, H2.
    destruct (file_download_result w out total body (st_fs s) Hend) as (Hf & Ht & _).
    done.
Qed.

End DestinationProperties.

(** C7, as stated, fails on a run without [-o] and without [-O]: the
    download goes to standard output and no file is written. *)
Lemma default_destination_is_stdout :
  let w := sample_world [Poll (Response 200 "" (Some (sample_status "completed" 100)))] in
  let outcome := run_main sample_flags w ∅ (sample_store HistMissing) in
  output sample_flags = "" /\
  result_of outcome = Val tt /\
  stdout_of (trace_of outcome) = [x00; x00; x00; x18; x66; x74; x79; x70] /\
  count is_fs (trace_of outcome) = 0%nat /\
  st_fs (state_of outcome) = ∅.
Proof. vm_compute. repeat split. Qed.

(** C7, amended.  In a run whose polling ends in success and whose download
    does not fail: without a destination the body goes to standard output
    and no file is written, unless [-O] is given, and then it is in the file
    named by the job identifier with [.mp4]; with the destination ["-"] it
    goes to standard output and no file is written; with another
    destination it is in the file of that name. *)
Theorem destination_policy (fl : Flags) (w : World)
    (apiKey model prompt jobID : string) (total : Z) (body : Body) (s : State) :
  polling_succeeds w -> download_succeeds w total body ->
  let outcome := trackJob fl w apiKey model prompt jobID s in
  let streamed :=
    stdout_of (trace_of outcome) = concat (chunks body) /\
    count is_fs (trace_of outcome) = 0%nat /\ st_fs (state_of outcome) = st_fs s in
  let saved_as path :=
    st_fs (state_of outcome) !! path = Some (concat (chunks body)) /\
    stdout_of (trace_of outcome) = [] in
  (output fl = "" -> useRemote fl = false -> streamed) /\
  (output fl = "" -> useRemote fl = true -> saved_as (jobID +:+ ".mp4")) /\
  (output fl = "-" -> streamed) /\
  (output fl <> "" -> output fl <> "-" -> saved_as (output fl)).
Proof.
  intros Hpoll Hdl outcome streamed saved_as.
  destruct (trackJob_by_destination fl w apiKey model prompt jobID total body s Hpoll Hdl)
    as (_ & _ & Hstream & Hfile).
  unfold destination in Hstream, Hfile. fold outcome in Hstream, Hfile.
  split; [| split; [| split]].
  - intros Ho Hr. rewrite Ho, Hr in Hstream. by apply Hstream.
  - intros Ho Hr. rewrite Ho, Hr in Hfile.
    destruct (Hfile (job_file_not_marker jobID)) as (H1 & H2 & _). by split.
  - intros Ho. rewrite Ho in Hstream. by apply Hstream.
  - intros Ho Hm. apply String.eqb_neq in Ho. rewrite Ho in Hfile.
    destruct (Hfile Hm) as (H1 & H2 & _). by split.
Qed.

Section SampleRuns.

Lemma sample_polling_succeeds status progress :
  isSuccess (ToLower status) = true ->
  polling_succeeds (sample_world [Poll (Response 200 "" (Some (sample_status status progress)))]).
Proof.
  intros Hs. exists [], (Response 200 "" (Some (sample_status status progress))),
    (sample_status status progress), [].
  split; [reflexivity |]. split; [constructor |].
  split; [apply answers_intro; lia |].
  split; [by apply no_error_message_none |]. by apply isSuccess_names.
Defined.

Lemma sample_download_succeeds ts : download_succeeds (sample_world ts) 8 sample_body.
Proof.
  split; [| by repeat split].
  exists 200, "". split; [reflexivity | lia].
Defined.

End SampleRuns.

Lemma destination_policy_witness :
  let w := sample_world [Poll (Response 200 "" (Some (sample_status "completed" 100)))] in
  let remote := {| prompt := "a kite"; output := ""; useRemote := true;
                   model := "sora-2"; usePro := false;
                   baseURL := "https://api.openai.com/v1";
                   imageFile := ""; remixFrom := ""; listHistory := false;
                   seconds := "12"; portrait := false; landscape := false |} in
  stdout_of (trace_of (trackJob sample_flags w "sk-key" "sora-2" "a kite" "video_1"
                         sample_state))
  = [x00; x00; x00; x18; x66; x74; x79; x70] /\
  st_fs (state_of (trackJob remote w "sk-key" "sora-2" "a kite" "video_1" sample_state))
    !! "video_1.mp4"
  = Some [x00; x00; x00; x18; x66; x74; x79; x70].
Proof.
  intros w remote.
  assert (Hp : polling_succeeds w) by (by apply sample_polling_succeeds).
  pose proof (sample_download_succeeds (ticks w)) as Hd.
  split.
  - destruct (destination_policy sample_flags w "sk-key" "sora-2" "a kite" "video_1"
                8 sample_body sample_state Hp Hd) as (Hdefault & _).
    exact (proj1 (Hdefault eq_refl eq_refl)).
  - destruct (destination_policy remote w "sk-key" "sora-2" "a kite" "video_1"
                8 sample_body sample_state Hp Hd) as (_ & Hremote & _).
    exact (proj1 (Hremote eq_refl eq_refl)).
Defined.

(** ** Streaming to standard output *)

(** C8, as stated, fails on the history entry: after a run that streams to
    standard output the entry recorded holds the marker ["-"] as its output
    file, not the empty string. *)
Lemma streamed_entry_names_marker :
  let w := sample_world [Poll (Response 200 "" (Some (sample_status "completed" 100)))] in
  let streaming := {| prompt := "a kite"; output := "-"; useRemote := false;
                      model := "sora-2"; usePro := false;
                      baseURL := "https://api.openai.com/v1";
                      imageFile := ""; remixFrom := ""; listHistory := false;
                      seconds := "12"; portrait := false; landscape := false |} in
  let outcome := run_main streaming w ∅ (sample_store HistMissing) in
  result_of outcome = Val tt /\
  exists entry,
    hist_file (st_store (state_of outcome)) = HistData {| Videos := [entry] |} /\
    ID entry = "video_1" /\ OutputFile entry = "-" /\ OutputFile entry <> "".
Proof.
  split; [reflexivity |].
  eexists. split; [vm_compute; reflexivity |]. by repeat split.
Qed.

(** C8, amended.  In a run whose destination is ["-"], whose polling ends
    in success and whose download does not fail, no file operation takes
    place and the files are as before; from the polling on, standard output
    receives the bytes of the body and nothing else; the entry given to the
    history has the job identifier and ["-"] as its output file, and when
    the history can be read and written the entry at position 0 afterwards
    is that entry as the file format holds it (the entry itself when its
    strings are UTF-8 text), with ["-"] as its output file. *)
Theorem stream_sink (fl : Flags) (w : World)
    (apiKey model prompt jobID : string) (total : Z) (body : Body) (s : State) :
  polling_succeeds w -> download_succeeds w total body ->
  destination fl jobID = "-" ->
  let outcome := trackJob fl w apiKey model prompt jobID s in
  let entry := history_entry fl w jobID prompt model "-" in
  count is_fs (trace_of outcome) = 0%nat /\
  st_fs (state_of outcome) = st_fs s /\
  stdout_of (trace_of outcome) = concat (chunks body) /\
  ID entry = jobID /\ OutputFile entry = "-" /\
  st_store (state_of outcome) = (addToHistory (st_store s) entry).1 /\
  (forall h, loadHistory (st_store s) = Ok h ->
     mkdir_ok (st_store s) = true -> write_ok (st_store s) = true ->
     exists h', loadHistory (st_store (state_of outcome)) = Ok h' /\
                Videos h' !! 0%nat = Some (json_entry entry) /\
                OutputFile (json_entry entry) = "-" /\
                (ValidEntry entry = true -> Videos h' !! 0%nat = Some entry)).
Proof.
  intros Hpoll Hdl Hout outcome entry.
  destruct (trackJob_by_destination fl w apiKey model prompt jobID total body s Hpoll Hdl)
    as (_ & Hstore & Hstream & _).
  fold outcome in Hstore, Hstream. rewrite Hout in Hstore, Hstream.
  destruct (Hstream eq_refl) as (Hbytes & Hfs & Hfiles).
  repeat split; try done.
  intros h Hl Hm Hw. rewrite Hstore. fold entry.
  rewrite (addToHistory_loads _ entry _ Hl Hm Hw).
  eexists. split; [reflexivity |]. cbn [Videos].
  split; [reflexivity |]. split; [reflexivity |].
  intros Hv. by rewrite (json_entry_valid _ Hv).
Qed.

Lemma stream_sink_witness :
  let w := sample_world [Poll (Response 200 "" (Some (sample_status "completed" 100)))] in
  let outcome := trackJob sample_flags w "sk-key" "sora-2" "a kite" "video_1" sample_state in
  count is_fs (trace_of outcome) = 0%nat /\
  stdout_of (trace_of outcome) = [x00; x00; x00; x18; x66; x74; x79; x70] /\
  exists h', loadHistory (st_store (state_of outcome)) = Ok h' /\
             OutputFile <$> Videos h' !! 0%nat = Some "-".
Proof.
  intros w outcome.
  assert (Hp : polling_succeeds w) by (by apply sample_polling_succeeds).
  pose proof (sample_download_succeeds (ticks w)) as Hd.
  destruct (stream_sink sample_flags w "sk-key" "sora-2" "a kite" "video_1"
              8 sample_body sample_state Hp Hd eq_refl)
    as (Hfs & _ & Hout & _ & _ & _ & Hhist).
  split; [exact Hfs |]. split; [exact Hout |].
  destruct (Hhist {| Videos := [] |} eq_refl eq_refl eq_refl) as (h' & Hl & H0 & Hfile & _).
  exists h'. split; [exact Hl |]. unfold outcome. rewrite H0. cbn [fmap option_fmap option_map].
  by rewrite Hfile.
Defined.

(** ** Base64 *)

Ltac n_arith := zify; Z.to_euclidean_division_equations; lia.

Section Base64Properties.

Lemma b64_alphabet i :
  (i < 64)%N -> b64_index (b64_char i) = Some i /\ Ascii.eqb (b64_char i) pad = false.
Proof.
  intros Hi.
  assert (Hall : forallb b64_checks (seq 0 64) = true) by (vm_compute; reflexivity).
  rewrite forallb_forall in Hall.
  specialize (Hall (N.to_nat i)). unfold b64_checks in Hall.
  rewrite N2Nat.id in Hall.
  assert (Hin : In (N.to_nat i) (seq 0 64)) by (apply in_seq; lia).
  apply Hall in Hin. apply andb_prop in Hin as [H1 H2].
  destruct (b64_index (b64_char i)) as [j|]; [| discriminate].
  apply N.eqb_eq in H1. subst. by apply negb_true_iff in H2.
Qed.

Lemma byte_bound b : (Byte.to_N b < 256)%N.
Proof. pose proof (Byte.to_N_bounded b). lia. Qed.

Lemma byte_of_to_N b : byte_of_N (Byte.to_N b) = Some b.
Proof. apply Byte.of_to_N. Qed.

Lemma decode_group a b c rest :
  DecodeString (EncodeToString (a :: b :: c :: rest))
  = tl ← DecodeString (EncodeToString rest); Some (a :: b :: c :: tl).
Proof.
  cbn [EncodeToString DecodeString].
  pose proof (byte_bound a). pose proof (byte_bound b). pose proof (byte_bound c).
  remember (Byte.to_N a) as na eqn:Ea.
  remember (Byte.to_N b) as nb eqn:Eb.
  remember (Byte.to_N c) as nc eqn:Ec.
  destruct (b64_alphabet (na / 4)) as [-> _]; [n_arith |].
  destruct (b64_alphabet (na mod 4 * 16 + nb / 16)) as [-> _];
    [n_arith |].
  destruct (b64_alphabet (nb mod 16 * 4 + nc / 64)) as [-> ->];
    [n_arith |].
  destruct (b64_alphabet (nc mod 64)) as [-> ->]; [n_arith |].
  cbn [mbind option_bind].
  replace (na / 4 * 4 + (na mod 4 * 16 + nb / 16) / 16)%N with na
    by n_arith.
  replace ((na mod 4 * 16 + nb / 16) mod 16 * 16 + (nb mod 16 * 4 + nc / 64) / 4)%N
    with nb by n_arith.
  replace ((nb mod 16 * 4 + nc / 64) mod 4 * 64 + nc mod 64)%N with nc
    by n_arith.
  subst na nb nc. rewrite !byte_of_to_N. reflexivity.
Qed.

Lemma decode_one a : DecodeString (EncodeToString [a]) = Some [a].
Proof.
  cbn [EncodeToString DecodeString].
  pose proof (byte_bound a). remember (Byte.to_N a) as na eqn:Ea.
  destruct (b64_alphabet (na / 4)) as [-> _]; [n_arith |].
  destruct (b64_alphabet (na mod 4 * 16)) as [-> _]; [n_arith |].
  cbn [mbind option_bind].
  replace (na / 4 * 4 + na mod 4 * 16 / 16)%N with na by n_arith.
  subst na. rewrite byte_of_to_N. reflexivity.
Qed.

Lemma decode_two a b : DecodeString (EncodeToString [a; b]) = Some [a; b].
Proof.
  cbn [EncodeToString DecodeString].
  pose proof (byte_bound a). pose proof (byte_bound b).
  remember (Byte.to_N a) as na eqn:Ea. remember (Byte.to_N b) as nb eqn:Eb.
  destruct (b64_alphabet (na / 4)) as [-> _]; [n_arith |].
  destruct (b64_alphabet (na mod 4 * 16 + nb / 16)) as [-> _]; [n_arith |].
  destruct (b64_alphabet (nb mod 16 * 4)) as [-> ->]; [n_arith |].
  cbn [mbind option_bind].
  replace (na / 4 * 4 + (na mod 4 * 16 + nb / 16) / 16)%N with na by n_arith.
  replace ((na mod 4 * 16 + nb / 16) mod 16 * 16 + nb mod 16 * 4 / 4)%N with nb by n_arith.
  subst na nb. rewrite !byte_of_to_N. reflexivity.
Qed.

(** Decoding gives back the bytes that were encoded. *)
Lemma DecodeString_EncodeToString src :
  DecodeString (EncodeToString src) = Some src.
Proof.
  assert (H : forall n l, (length l <= n)%nat ->
                          DecodeString (EncodeToString l) = Some l).
  { induction n as [|n IH]; intros l Hl.
    - destruct l; [done | simpl in Hl; lia].
    - destruct l as [|a [|b [|c rest]]].
      + done.
      + apply decode_one.
      + apply decode_two.
      + rewrite decode_group, IH; [done |]. simpl in Hl. lia. }
  by apply (H (length src)).
Qed.

End Base64Properties.

(** ** The image input *)

(** C3, as stated, fails on every image that does not already have the
    target geometry: for a PNG file of one pixel the data URI carries the
    file as it is, so the image sent has one pixel, and the request asks for
    1280x720 beside it. *)
Lemma image_is_not_resized :
  let fs : FileSystem := {[ "tiny.png" := tiny_png ]} in
  let fl := {| prompt := "a kite"; output := ""; useRemote := false;
               model := "sora-2"; usePro := false;
               baseURL := "https://api.openai.com/v1";
               imageFile := "tiny.png"; remixFrom := ""; listHistory := false;
               seconds := "12"; portrait := false; landscape := false |} in
  pngDims tiny_png = Some (1, 1) /\
  encodeImageToDataURI fs "tiny.png" = Ok ("data:image/png;base64," +:+ tiny_png_base64) /\
  (pngDims <$> DecodeString tiny_png_base64) = Some (Some (1, 1)) /\
  exists body rest,
    requests_of (trace_of (run_main fl (sample_world []) fs (sample_store HistMissing)))
    = PostVideos "https://api.openai.com/v1/videos" "sk-key" body :: rest /\
    req_Image body = Some ("data:image/png;base64," +:+ tiny_png_base64) /\
    req_Size body = Some "1280x720".
Proof.
  split; [reflexivity |]. split; [vm_compute; reflexivity |].
  split; [vm_compute; reflexivity |].
  eexists _, _. split; [vm_compute; reflexivity |]. split; reflexivity.
Qed.

(** C3, amended.  The image step reads the file and, when its extension is
    one of the table, gives the data URI of the bytes of the file as they
    are: the payload decodes to exactly these bytes, so the image sent has
    the geometry of the file whatever size is requested; no target geometry
    enters the function.  Otherwise it fails: the file cannot be read, or
    the extension is not in the table. *)
Theorem image_bytes_pass_through (fs : FileSystem) (filePath : string) :
  match encodeImageToDataURI fs filePath with
  | Ok uri =>
      exists data mimeType,
        fs !! filePath = Some data /\
        mimeTypes !! ToLower (Ext filePath) = Some mimeType /\
        uri = "data:" +:+ mimeType +:+ ";base64," +:+ EncodeToString data /\
        DecodeString (EncodeToString data) = Some data
  | Err e =>
      (fs !! filePath = None /\ e = ErrReadFile filePath) \/
      (default "" (mimeTypes !! ToLower (Ext filePath)) = "" /\
       e = ErrUnsupportedFormat (ToLower (Ext filePath)))
  end.
Proof.
  unfold encodeImageToDataURI.
  destruct (fs !! filePath) as [data|]; [| by left].
  destruct (mimeTypes !! ToLower (Ext filePath)) as [mimeType|] eqn:Hm; simpl.
  - destruct (String.eqb mimeType "") eqn:He.
    + right. apply String.eqb_eq in He. by subst.
    + exists data, mimeType. by rewrite DecodeString_EncodeToString.
  - by right.
Qed.

(** ** The submission *)

Section MainProperties.

Lemma bind_val {A B} (m : M A) (k : A -> M B) s a s1 tr1 :
  m s = (Val a, s1, tr1) -> bind m k s = after_events tr1 (k a s1).
Proof.
  intros H. unfold bind, after_events. rewrite H.
  by destruct (k a s1) as [[x s2] tr2].
Qed.

Lemma bind_exit {A B} (m : M A) (k : A -> M B) s c s1 tr1 :
  m s = (Exit c, s1, tr1) -> bind m k s = (Exit c, s1, tr1).
Proof. intros H. unfold bind. by rewrite H. Qed.

Lemma fetchVideoStatus_run r baseURL apiKey id s :
  exists v tr, fetchVideoStatus r baseURL apiKey id s = (Val v, s, tr).
Proof.
  unfold fetchVideoStatus, bind. destruct r as [| |code text payload].
  - by eexists _, _.
  - rewrite emit_quiet by done. by eexists _, _.
  - rewrite emit_quiet by done.
    destruct (negb (is_2xx code)); [by eexists _, _ |].
    destruct payload; by eexists _, _.
Qed.

(** The polling loop ends the run with status 1 only. *)
Lemma pollLoop_exit baseURL apiKey jobID ts s c :
  result_of (pollLoop baseURL apiKey jobID ts s) = Exit c -> c = 1.
Proof.
  revert s. induction ts as [|t ts IH]; intros s.
  - cbn. by intros [= <-].
  - destruct t as [|r]; [cbn; by intros [= <-] |].
    cbn [pollLoop].
    destruct (fetchVideoStatus_run r baseURL apiKey jobID s) as (v & tr & Hf).
    rewrite (bind_val _ _ _ _ _ _ Hf). unfold after_events, result_of. cbn [fst snd].
    destruct v as [st | e].
    + destruct (has_message (vs_Error st)).
      { unfold bind, os_Exit. rewrite emit_quiet by done. cbn. by intros [= <-]. }
      unfold bind at 1. rewrite bar_when.
      destruct (isSuccess _); [unfold bind, ret; rewrite !emit_quiet by done; cbn; discriminate |].
      destruct (isFailure _).
      { unfold bind, os_Exit. rewrite emit_quiet by done. cbn. by intros [= <-]. }
      destruct (pollLoop baseURL apiKey jobID ts s) as [[x s1] tr1] eqn:Hp.
      intros Hx. apply (IH s). rewrite Hp. exact Hx.
    + unfold bind at 1. rewrite emit_quiet by done.
      destruct (pollLoop baseURL apiKey jobID ts s) as [[x s1] tr1] eqn:Hp.
      intros Hx. apply (IH s). rewrite Hp. exact Hx.
Qed.

Lemma trackJob_exit fl w apiKey model prompt jobID s c :
  result_of (trackJob fl w apiKey model prompt jobID s) = Exit c -> c = 1.
Proof.
  unfold trackJob.
  destruct (pollLoop (baseURL fl) apiKey jobID (ticks w) s) as [[[url|c'] s1] tr1] eqn:Hp.
  - rewrite (bind_val _ _ _ _ _ _ Hp). unfold after_events, result_of. cbn [fst snd].
    destruct (downloadFile_tame w apiKey url (destination fl jobID) s1) as (err & tr & Hd & _).
    rewrite (bind_val _ _ _ _ _ _ Hd). unfold after_events. cbn [fst snd].
    destruct err as [e|].
    + unfold bind, os_Exit, emit. cbn. by intros [= <-].
    + unfold bind at 1.
      destruct (when _ _ _) as [[[[]|c1] s2] tr2] eqn:Hw.
      2:{ unfold when, infof, emit, ret in Hw. by destruct (negb _). }
      destruct (recordHistory_store
                  (history_entry fl w jobID prompt model (destination fl jobID)) s2)
        as (tr3 & Hr & _).
      rewrite (bind_val _ _ _ _ _ _ Hr). unfold after_events. cbn [fst snd].
      destruct ((addToHistory (st_store s2) _).2); cbn; discriminate.
  - rewrite (bind_exit _ _ _ _ _ _ Hp). unfold result_of. cbn [fst].
    intros [= <-]. apply (pollLoop_exit (baseURL fl) apiKey jobID (ticks w) s).
    by rewrite Hp.
Qed.

Lemma readPrompt_run fl w s :
  (exists p tr, readPrompt fl w s = (Val p, s, tr) /\ no_request tr) \/
  (exists tr, readPrompt fl w s = (Exit 1, s, tr) /\ no_request tr /\
     prompt fl = "" /\ (stdin_prompt w = None \/ stdin_prompt w = Some "")).
Proof.
  unfold readPrompt. destruct (String.eqb (prompt fl) "") eqn:Hp.
  - apply String.eqb_eq in Hp.
    unfold promptInteractive, bind. rewrite emit_quiet by done.
    destruct (stdin_prompt w) as [line|]; cbn -[emit].
    + destruct (String.eqb line "") eqn:Hl.
      * right. apply String.eqb_eq in Hl. subst line.
        rewrite emit_quiet by done.
        eexists. split; [reflexivity |]. split; [done |]. split; [done | by right].
      * left. by eexists _, _.
    + right. rewrite emit_quiet by done.
      eexists. split; [reflexivity |]. split; [done |]. split; [done | by left].
  - left. by eexists _, _.
Qed.

Lemma readPrompt_ready fl w s :
  ready fl w -> exists p tr, readPrompt fl w s = (Val p, s, tr) /\ no_request tr.
Proof.
  intros (_ & _ & _ & _ & _ & Hp).
  destruct (readPrompt_run fl w s) as [H | (tr & _ & _ & He & Hs)]; [done |].
  destruct Hp as [Hp | (line & Hl & Hne)]; [done |].
  rewrite Hl in Hs. by destruct Hs as [? | [= ->]].
Qed.

Lemma processImage_run fl s :
  (exists img, processImage fl s = (Val img, s, []) /\
     (imageFile fl <> "" -> exists uri,
        encodeImageToDataURI (st_fs s) (imageFile fl) = Ok uri /\ img = Some uri)) \/
  (exists e, processImage fl s = (Exit 1, s, [Stderr (MImageFailed e)]) /\
     imageFile fl <> "" /\ encodeImageToDataURI (st_fs s) (imageFile fl) = Err e).
Proof.
  unfold processImage. destruct (String.eqb (imageFile fl) "") eqn:Hi; cbn [negb].
  - left. apply String.eqb_eq in Hi. by exists None.
  - apply String.eqb_neq in Hi. unfold bind, get_fs. cbn -[emit encodeImageToDataURI].
    destruct (encodeImageToDataURI (st_fs s) (imageFile fl)) as [uri | e].
    + left. exists (Some uri). split; [done |]. by exists uri.
    + right. exists e. by rewrite emit_quiet by done.
Qed.

Lemma resolveRemix_run fl s :
  (remixFrom fl = "" /\ resolveRemix fl s = (Val None, s, [])) \/
  (exists id, remixFrom fl <> "" /\
     resolveRemixVideoID (st_store s) (remixFrom fl) = Ok id /\
     resolveRemix fl s = (Val (Some id), s, [Stderr (MRemixingFrom id)])) \/
  (exists e, remixFrom fl <> "" /\
     resolveRemixVideoID (st_store s) (remixFrom fl) = Err e /\
     resolveRemix fl s = (Exit 1, s, [Stderr (MResolveFailed e)])).
Proof.
  unfold resolveRemix. destruct (String.eqb (remixFrom fl) "") eqn:Hr; cbn [negb].
  - left. apply String.eqb_eq in Hr. by split.
  - right. apply String.eqb_neq in Hr. unfold bind, get_store, infof.
    cbn -[emit resolveRemixVideoID].
    destruct (resolveRemixVideoID (st_store s) (remixFrom fl)) as [id | e].
    + left. exists id. by rewrite emit_quiet by done.
    + right. exists e. by rewrite emit_quiet by done.
Qed.

Lemma submitAndTrack_run fl w apiKey model prompt image remix size secs s :
  let request :=
    PostVideos (TrimRightSlash (baseURL fl) +:+ "/videos") apiKey
      {| req_Model := model; req_Prompt := prompt; req_Image := image;
         req_RemixFromVideoID := remix; req_Size := size; req_Seconds := secs |} in
  let outcome := submitAndTrack fl w apiKey model prompt image remix size secs s in
  (forall c, result_of outcome = Exit c -> c = 1) /\
  (requests_of (trace_of outcome) = [] \/
   exists rest, requests_of (trace_of outcome) = request :: rest) /\
  (create_result w <> BadRequest ->
   exists rest, requests_of (trace_of outcome) = request :: rest).
Proof.
  intros request outcome. unfold outcome, submitAndTrack.
  destruct (createVideoJob_run (baseURL fl) apiKey model prompt image remix size secs
              (create_result w) s) as (job & sent & Hc & Hsent).
  rewrite (bind_val _ _ _ _ _ _ Hc). unfold after_events, result_of, trace_of.
  cbn [fst snd].
  assert (Hbad : create_result w <> BadRequest -> sent = [Net request]).
  { intros Hne. destruct Hsent as [-> | ->]; [| done].
    unfold createVideoJob, bind in Hc.
    destruct (create_result w) as [| |code text payload]; [done | |].
    - by rewrite emit_quiet in Hc.
    - rewrite emit_quiet in Hc by done.
      destruct (negb (is_2xx code)); [done |].
      destruct payload as [out|]; [| done].
      destruct (has_message (cr_Error out)); [done |].
      by destruct (String.eqb (cr_ID out) ""). }
  destruct job as [jobID | e].
  - unfold bind at 1, infof. rewrite emit_quiet by done.
    destruct (trackJob fl w apiKey model prompt jobID s) as [[x s1] tr1] eqn:Ht.
    cbn [fst snd]. split; [| split].
    + intros c ->. apply (trackJob_exit fl w apiKey model prompt jobID s).
      by rewrite Ht.
    + destruct Hsent as [-> | ->].
      * exfalso. unfold createVideoJob, bind in Hc.
        destruct (create_result w) as [| |code text payload]; [done | |].
        -- by rewrite emit_quiet in Hc.
        -- rewrite emit_quiet in Hc by done. repeat case_match; discriminate.
      * right. eexists. by rewrite requests_of_app.
    + intros Hne. rewrite (Hbad Hne). eexists. by rewrite requests_of_app.
  - unfold bind, os_Exit. rewrite emit_quiet by done. cbn [fst snd].
    split; [by intros c [= <-] | split].
    + destruct Hsent as [-> | ->]; [by left | right]. by eexists.
    + intros Hne. rewrite (Hbad Hne). by eexists.
Qed.

Lemma trace_of_after {A} tr (x : res A * State * list Event) :
  trace_of (after_events tr x) = tr ++ trace_of x.
Proof. done. Qed.

Lemma result_of_after {A} tr (x : res A * State * list Event) :
  result_of (after_events tr x) = result_of x.
Proof. done. Qed.

(** The requests of [generate]: none, or first the submission with the
    model, the size and the seconds of the flags, whether a remix is asked
    for or not. *)
Lemma generate_requests fl w model videoSize s :
  let outcome := generate fl w model videoSize s in
  (forall c, result_of outcome = Exit c -> c = 1) /\
  (requests_of (trace_of outcome) = [] \/
   exists p img remix rest,
     requests_of (trace_of outcome)
     = PostVideos (TrimRightSlash (baseURL fl) +:+ "/videos") (env_apiKey w)
         {| req_Model := model; req_Prompt := p; req_Image := img;
            req_RemixFromVideoID := remix;
            req_Size := opt_nonempty videoSize;
            req_Seconds := opt_nonempty (seconds fl) |} :: rest /\
     (remixFrom fl <> "" ->
      exists id, resolveRemixVideoID (st_store s) (remixFrom fl) = Ok id /\
                 remix = Some id)) /\
  (ready fl w ->
   (imageFile fl <> "" ->
    exists uri, encodeImageToDataURI (st_fs s) (imageFile fl) = Ok uri) ->
   (remixFrom fl <> "" ->
    exists id, resolveRemixVideoID (st_store s) (remixFrom fl) = Ok id) ->
   create_result w <> BadRequest ->
   requests_of (trace_of outcome) <> []).
Proof.
  intros outcome. unfold outcome, generate.
  destruct (String.eqb (env_apiKey w) "") eqn:Hk.
  { unfold bind, os_Exit. rewrite emit_quiet by done.
    apply String.eqb_eq in Hk.
    split; [by intros c [= <-] |]. split; [by left |].
    by intros (_ & _ & _ & _ & Hne & _). }
  destruct (readPrompt_run fl w s) as [(p & tr0 & Hp & Hq0) | (tr0 & Hp & Hq0 & He & Hs)].
  2:{ rewrite (bind_exit _ _ _ _ _ _ Hp).
      split; [by intros c [= <-] |]. split; [by left |].
      intros Hready. destruct (readPrompt_ready fl w s Hready) as (p & tr & Hp' & _).
      congruence. }
  rewrite (bind_val _ _ _ _ _ _ Hp), trace_of_after, result_of_after, requests_of_app, Hq0.
  cbn [app].
  destruct (processImage_run fl s) as [(img & Hi & Himg) | (e & Hi & Hne & He)].
  2:{ rewrite (bind_exit _ _ _ _ _ _ Hi).
      split; [by intros c [= <-] |]. split; [by left |].
      intros _ Himage. destruct (Himage Hne) as (uri & Hu). congruence. }
  rewrite (bind_val _ _ _ _ _ _ Hi), trace_of_after, result_of_after. cbn [app].
  destruct (submitAndTrack_run fl w (env_apiKey w) model p img None
              (opt_nonempty videoSize) (opt_nonempty (seconds fl)) s)
    as (Hexit0 & Hreq0 & Hsend0).
  destruct (resolveRemix_run fl s)
    as [(Hr & Hres) | [(id & Hr & Hid & Hres) | (e & Hr & He & Hres)]].
  - rewrite (bind_val _ _ _ _ _ _ Hres), trace_of_after, result_of_after. cbn [app].
    split; [exact Hexit0 |]. split.
    + destruct Hreq0 as [H0 | (rest & H0)]; [by left | right].
      exists p, img, None, rest. by split.
    + intros _ _ _ Hne. destruct (Hsend0 Hne) as (rest & ->). done.
  - destruct (submitAndTrack_run fl w (env_apiKey w) model p img (Some id)
                (opt_nonempty videoSize) (opt_nonempty (seconds fl)) s)
      as (Hexit1 & Hreq1 & Hsend1).
    rewrite (bind_val _ _ _ _ _ _ Hres), trace_of_after, result_of_after.
    rewrite requests_of_app. cbn [requests_of omap app].
    split; [exact Hexit1 |]. split.
    + destruct Hreq1 as [H1 | (rest & H1)]; [by left | right].
      exists p, img, (Some id), rest. split; [done |]. intros _. by exists id.
    + intros _ _ _ Hne. destruct (Hsend1 Hne) as (rest & ->). done.
  - rewrite (bind_exit _ _ _ _ _ _ Hres).
    split; [by intros c [= <-] |]. split; [by left |].
    intros _ _ Hremix. destruct (Hremix Hr) as (id & Hid). congruence.
Qed.

End MainProperties.


(** The branches of [main] before the credential is read. *)
Lemma main_cases fl w s :
  (valid_seconds (seconds fl) = false /\
   main fl w s = (Exit 2, s, [Stderr (MInvalidSeconds (seconds fl))])) \/
  (valid_seconds (seconds fl) = true /\ portrait fl && landscape fl = true /\
   main fl w s = (Exit 2, s, [Stderr MBothOrientations])) \/
  (valid_seconds (seconds fl) = true /\ portrait fl && landscape fl = false /\
   listHistory fl = true /\
   exists c tr, main fl w s = (Exit c, s, tr) /\ (c = 0 \/ c = 1) /\ requests_of tr = []) \/
  (valid_seconds (seconds fl) = true /\ portrait fl && landscape fl = false /\
   listHistory fl = false /\
   negb (String.eqb (output fl) "") && useRemote fl = true /\
   main fl w s = (Exit 2, s, [Stderr MOutputConflict])) \/
  (valid_seconds (seconds fl) = true /\ portrait fl && landscape fl = false /\
   listHistory fl = false /\
   negb (String.eqb (output fl) "") && useRemote fl = false /\
   main fl w s = generate fl w (effective_model fl) (effective_size fl) s).
Proof.
  unfold main.
  destruct (valid_seconds (seconds fl)) eqn:Hv; cbn [negb].
  2:{ left. unfold bind, os_Exit. by rewrite emit_quiet by done. }
  right. destruct (portrait fl && landscape fl) eqn:Ho.
  { left. unfold bind, os_Exit. by rewrite emit_quiet by done. }
  right. destruct (listHistory fl) eqn:Hl.
  { left. do 3 (split; [done |]).
    unfold bind at 1, get_store. cbn [fst snd].
    destruct (loadHistory (st_store s)) as [h | e];
      [destruct (length (Videos h) =? 0)%nat |];
      unfold bind, os_Exit; rewrite emit_quiet by done; eexists _, _; eauto. }
  right. destruct (negb (String.eqb (output fl) "") && useRemote fl) eqn:Hc.
  { left. unfold bind, os_Exit. by rewrite emit_quiet by done. }
  right. done.
Qed.



(** ** The temporary file *)

Section TemporaryFile.

Context (w : World) (apiKey downloadURL outPath : string).

Let tmp := outPath +:+ ".part".
Let content_request := Net (GetContent downloadURL apiKey).

Lemma confined_lookup e (fs : FileSystem) p :
  confined tmp e -> p <> tmp -> fs_of_event e fs !! p = fs !! p.
Proof.
  intros He Hp. destruct e as [| | |op|]; try done.
  destruct op; simpl in *; subst; try done.
  - by rewrite lookup_insert_ne.
  - by rewrite lookup_alter_ne.
  - by rewrite lookup_delete_ne.
Qed.

Lemma replay_confined tr (fs : FileSystem) p :
  Forall (confined tmp) tr -> p <> tmp -> replay tr fs !! p = fs !! p.
Proof.
  intros Htr Hp. revert fs. induction Htr as [|e tr He _ IH]; intros fs; [done |].
  unfold replay in *. cbn [foldl]. by rewrite IH, confined_lookup.
Qed.

Lemma count_remove_copy total n cs :
  count is_remove (copy_events (fun data => Fs (FWrite tmp data)) total n cs) = 0%nat.
Proof.
  revert n. induction cs as [|c cs IH]; intros n; [done |].
  cbn [copy_events]. by rewrite !count_cons, IH.
Qed.

(** The body is written and a later call fails: the error is returned and
    the temporary file stays, with the whole body in it. *)
Lemma downloadFile_unfinished total body s :
  fails_after_copy w total body -> outPath <> "-" ->
  downloadFile w apiKey downloadURL outPath s
  = (Val (Some (after_copy_error w)),
     with_fs s (replay (unfinished_download_events w total body outPath) (st_fs s)),
     content_request :: unfinished_download_events w total body outPath).
Proof.
  intros ((code & text & Hr & Hc) & Hend & Hmk & Hcr & Hfail) Hout.
  destruct (downloadFile w apiKey downloadURL outPath s) as [[r s'] tr] eqn:Hrun.
  destruct (downloadFile_state _ _ _ _ _ _ _ _ Hrun) as (tr' & -> & -> & _ & (err & ->)).
  revert Hrun. unfold downloadFile. rewrite Hr.
  unfold bind at 1. rewrite emit_quiet by done.
  apply is_2xx_iff in Hc. rewrite Hc. cbn [negb].
  apply String.eqb_neq in Hout. rewrite Hout.
  rewrite Hmk, Hcr. cbn [negb].
  unfold writeAndRename.
  unfold bind at 1.
  assert (Hmkdir : forall s0,
    when (needs_mkdir (output_dir w)) (emit (Fs (MkdirAll (output_dir w)))) s0
    = (Val tt, s0, mkdir_events (output_dir w))).
  { intros s0. unfold when, mkdir_events, emit, ret.
    destruct (needs_mkdir (output_dir w)); [| done]. simpl. by destruct s0. }
  rewrite Hmkdir. unfold bind at 1. unfold emit at 1.
  unfold bind at 1. unfold bind at 1. rewrite io_Copy_run. cbn [fst snd].
  rewrite Hend. cbn [ending_error].
  unfold unfinished_download_events, after_copy_events, after_copy_error. fold tmp.
  destruct (dl_sync_ok w); [destruct (dl_close_ok w); [destruct (dl_rename_ok w) |] |];
    try discriminate; cbn [negb];
    unfold bind, infof, emit, when, ret; cbn;
    intros [= <- _ <-]; rewrite ?app_nil_r, <- ?app_assoc; reflexivity.
Qed.

Lemma unfinished_download_result total body (fs : FileSystem) :
  ending body = EndEOF ->
  let fs' := replay (unfinished_download_events w total body outPath) fs in
  fs' !! tmp = Some (concat (chunks body)) /\
  (forall p, p <> tmp -> fs' !! p = fs !! p) /\
  count is_remove (unfinished_download_events w total body outPath) = 0%nat.
Proof.
  intros Hend fs'.
  assert (Hfs : fs' = <[tmp := concat (chunks body)]> fs).
  { unfold fs', unfinished_download_events. fold tmp. rewrite replay_app.
    assert (replay (mkdir_events (output_dir w)) fs = fs) as ->.
    { unfold mkdir_events. by destruct (needs_mkdir _). }
    change (Fs (Create tmp) :: ?l) with ([Fs (Create tmp)] ++ l).
    rewrite !replay_app. unfold io_Copy_events.
    rewrite Hend, app_nil_r, (replay_writes outPath). fold tmp.
    assert (forall fs0 : FileSystem,
              replay (Stderr (MDownloaded (body_size (chunks body)))
                        :: after_copy_events w tmp) fs0 = fs0) as ->.
    { intros fs0. unfold after_copy_events.
      destruct (negb (dl_sync_ok w)); [done |]. by destruct (negb (dl_close_ok w)). }
    unfold replay. cbn [foldl fs_of_event fs_apply].
    apply map_eq. intros p. destruct (decide (tmp = p)) as [<- | Hp].
    - by rewrite lookup_alter_eq, !lookup_insert_eq.
    - by rewrite lookup_alter_ne, !lookup_insert_ne. }
  rewrite Hfs. split; [apply lookup_insert_eq |]. split.
  - intros p Hp. by rewrite lookup_insert_ne.
  - unfold unfinished_download_events. fold tmp.
    rewrite count_app, count_cons, count_app, count_cons.
    assert (count is_remove (mkdir_events (output_dir w)) = 0%nat) as ->.
    { unfold mkdir_events. by destruct (needs_mkdir _). }
    assert (count is_remove (after_copy_events w tmp) = 0%nat) as ->.
    { unfold after_copy_events.
      destruct (negb (dl_sync_ok w)); [done |]. by destruct (negb (dl_close_ok w)). }
    assert (count is_remove
              (io_Copy_events (fun data => Fs (FWrite tmp data)) total body) = 0%nat) as ->.
    { unfold io_Copy_events. rewrite Hend, app_nil_r. apply count_remove_copy. }
    done.
Qed.

(** The copy fails: the error is returned and the temporary file is
    removed. *)
Lemma downloadFile_interrupted code text total body e s :
  download_result w = DlResponse code text total body -> 200 <= code < 300 ->
  outPath <> "-" ->
  needs_mkdir (output_dir w) && negb (dl_mkdir_ok w) = false ->
  dl_create_ok w = true ->
  ending_error (ending body) = Some e ->
  downloadFile w apiKey downloadURL outPath s
  = (Val (Some e),
     with_fs s (replay (interrupted_download_events w total body outPath) (st_fs s)),
     content_request :: interrupted_download_events w total body outPath).
Proof.
  intros Hr Hc Hout Hmk Hcr He.
  destruct (downloadFile w apiKey downloadURL outPath s) as [[r s'] tr] eqn:Hrun.
  destruct (downloadFile_state _ _ _ _ _ _ _ _ Hrun) as (tr' & -> & -> & _ & (err & ->)).
  revert Hrun. unfold downloadFile. rewrite Hr.
  unfold bind at 1. rewrite emit_quiet by done.
  apply is_2xx_iff in Hc. rewrite Hc. cbn [negb].
  apply String.eqb_neq in Hout. rewrite Hout.
  rewrite Hmk, Hcr. cbn [negb].
  unfold writeAndRename.
  unfold bind at 1.
  assert (Hmkdir : forall s0,
    when (needs_mkdir (output_dir w)) (emit (Fs (MkdirAll (output_dir w)))) s0
    = (Val tt, s0, mkdir_events (output_dir w))).
  { intros s0. unfold when, mkdir_events, emit, ret.
    destruct (needs_mkdir (output_dir w)); [| done]. simpl. by destruct s0. }
  rewrite Hmkdir. unfold bind at 1. unfold emit at 1.
  unfold bind at 1. unfold bind at 1. rewrite io_Copy_run. cbn [fst snd].
  rewrite He. unfold interrupted_download_events. fold tmp.
  unfold bind, infof, emit, when, ret. cbn.
  intros [= <- _ <-]. rewrite ?app_nil_r, <- ?app_assoc. reflexivity.
Qed.

Lemma copy_events_confined total n cs :
  Forall (confined tmp) (copy_events (fun data => Fs (FWrite tmp data)) total n cs).
Proof.
  revert n. induction cs as [|c cs IH]; intros n; [constructor |].
  cbn [copy_events]. constructor; [done |]. constructor; [done | apply IH].
Qed.

Lemma io_Copy_events_confined total body :
  Forall (confined tmp) (io_Copy_events (fun data => Fs (FWrite tmp data)) total body).
Proof.
  unfold io_Copy_events. apply Forall_app. split; [apply copy_events_confined |].
  destruct (ending body); simpl; [constructor | constructor |].
  constructor; [done | constructor].
Qed.

Lemma mkdir_events_confined : Forall (confined tmp) (mkdir_events (output_dir w)).
Proof.
  unfold mkdir_events. destruct (needs_mkdir _); [| constructor].
  constructor; [done | constructor].
Qed.

Lemma interrupted_events_confined total body :
  Forall (confined tmp) (interrupted_download_events w total body outPath).
Proof.
  unfold interrupted_download_events. fold tmp.
  apply Forall_app. split; [apply mkdir_events_confined |].
  constructor; [done |]. apply Forall_app. split; [apply io_Copy_events_confined |].
  constructor; [done |]. constructor; [done | constructor].
Qed.

Lemma unfinished_events_confined total body :
  Forall (confined tmp) (unfinished_download_events w total body outPath).
Proof.
  unfold unfinished_download_events, after_copy_events. fold tmp.
  apply Forall_app. split; [apply mkdir_events_confined |].
  constructor; [done |]. apply Forall_app. split; [apply io_Copy_events_confined |].
  constructor; [done |].
  destruct (negb (dl_sync_ok w)); [constructor; [done | constructor] |].
  destruct (negb (dl_close_ok w)); [constructor; [done | constructor] |].
  constructor; [done |]. constructor; [done | constructor].
Qed.

Lemma interrupted_download_result total body (fs : FileSystem) :
  let fs' := replay (interrupted_download_events w total body outPath) fs in
  fs' !! tmp = None /\ (forall p, p <> tmp -> fs' !! p = fs !! p).
Proof.
  intros fs'. split.
  - unfold fs', interrupted_download_events. fold tmp.
    change (Fs (Create tmp) :: ?l) with ([Fs (Create tmp)] ++ l).
    rewrite app_assoc, app_assoc, replay_app.
    unfold replay at 1. cbn [foldl fs_of_event fs_apply]. apply lookup_delete_eq.
  - intros p Hp. apply replay_confined; [apply interrupted_events_confined | done].
Qed.

(** Every download to a named file: its events after the request touch no
    file but the temporary one, unless nothing fails, and then the one
    event that touches the destination is the rename at the end. *)
Lemma downloadFile_file_cases s :
  outPath <> "-" ->
  exists tr,
    trace_of (downloadFile w apiKey downloadURL outPath s) = content_request :: tr /\
    (Forall (confined tmp) tr \/
     exists total body,
       download_succeeds w total body /\
       tr = file_download_events w total body outPath).
Proof.
  intros Hout.
  destruct (download_result w) as [|code text total body] eqn:Hr.
  { exists []. split; [| left; constructor].
    unfold downloadFile. rewrite Hr. unfold bind. by rewrite emit_quiet by done. }
  destruct (is_2xx code) eqn:Hc.
  2:{ exists []. split; [| left; constructor].
      unfold downloadFile. rewrite Hr. unfold bind. rewrite emit_quiet by done.
      by rewrite Hc. }
  pose proof Hc as Hc'. apply is_2xx_iff in Hc'.
  destruct (needs_mkdir (output_dir w) && negb (dl_mkdir_ok w)) eqn:Hmk.
  { exists []. split; [| left; constructor].
    unfold downloadFile. rewrite Hr. unfold bind. rewrite emit_quiet by done.
    rewrite Hc. cbn [negb]. apply String.eqb_neq in Hout. by rewrite Hout, Hmk. }
  destruct (dl_create_ok w) eqn:Hcr.
  2:{ exists (mkdir_events (output_dir w)). split; [| left; apply mkdir_events_confined].
      unfold downloadFile. rewrite Hr. unfold bind at 1. rewrite emit_quiet by done.
      rewrite Hc. cbn [negb]. apply String.eqb_neq in Hout. rewrite Hout, Hmk, Hcr.
      cbn [negb]. unfold mkdir_events, when, bind, emit, ret.
      by destruct (needs_mkdir (output_dir w)). }
  destruct (ending_error (ending body)) as [e|] eqn:He.
  { eexists. rewrite (downloadFile_interrupted code text total body e s) by done.
    split; [done |]. left. apply interrupted_events_confined. }
  assert (Hend : ending body = EndEOF) by (by destruct (ending body)).
  destruct (dl_sync_ok w && dl_close_ok w && dl_rename_ok w) eqn:Hops.
  - apply andb_prop in Hops as [Hops Hrn]. apply andb_prop in Hops as [Hsy Hcl].
    assert (Hok : download_succeeds w total body).
    { split; [by exists code, text |]. done. }
    eexists. rewrite (downloadFile_file_ok w apiKey downloadURL outPath total body s Hok Hout).
    split; [done |]. right. by exists total, body.
  - assert (Hbad : fails_after_copy w total body).
    { split; [by exists code, text |]. done. }
    eexists. rewrite (downloadFile_unfinished total body s Hbad Hout).
    split; [done |]. left. apply unfinished_events_confined.
Qed.

(** At no point of a download to a named file does the destination hold
    part of the body: after any number of its events the destination is as
    it was before, or, once every event has taken place in a download in
    which nothing failed, it holds the whole body. *)
Lemma final_path_is_never_partial s tr1 tr2 :
  outPath <> "-" ->
  trace_of (downloadFile w apiKey downloadURL outPath s) = tr1 ++ tr2 ->
  replay tr1 (st_fs s) !! outPath = st_fs s !! outPath \/
  (tr2 = [] /\ exists total body,
     download_succeeds w total body /\
     replay tr1 (st_fs s) !! outPath = Some (concat (chunks body))).
Proof.
  intros Hout Htr.
  pose proof (tmp_not_final outPath) as Hne. fold tmp in Hne.
  destruct (downloadFile_file_cases s Hout) as (tr & Htrace & [Hconf | Hok]).
  - left. rewrite Htrace in Htr.
    assert (Hall : Forall (confined tmp) (tr1 ++ tr2)).
    { rewrite <- Htr. by constructor. }
    apply Forall_app in Hall as [H1 _]. by apply replay_confined.
  - destruct Hok as (total & body & Hok & ->). rewrite Htrace in Htr.
    pose proof Hok as (_ & Hend & _).
    destruct tr2 as [|e tr2 _] using rev_ind.
    + right. split; [done |]. exists total, body. split; [done |].
      rewrite app_nil_r in Htr. subst tr1.
      change (content_request :: ?l) with ([content_request] ++ l).
      rewrite replay_app. change (replay [content_request] (st_fs s)) with (st_fs s).
      by destruct (file_download_result w outPath total body (st_fs s) Hend) as (-> & _).
    + left. unfold file_download_events in Htr. fold tmp in Htr.
      assert (Hsplit : content_request
                :: mkdir_events (output_dir w) ++
                   Fs (Create tmp)
                   :: io_Copy_events (fun data => Fs (FWrite tmp data)) total body ++
                      [Stderr (MDownloaded (body_size (chunks body)));
                       Fs (Sync tmp); Fs (Close tmp); Fs (Rename tmp outPath)]
              = (content_request
                   :: mkdir_events (output_dir w) ++
                      Fs (Create tmp)
                      :: io_Copy_events (fun data => Fs (FWrite tmp data)) total body ++
                         [Stderr (MDownloaded (body_size (chunks body)));
                          Fs (Sync tmp); Fs (Close tmp)])
                ++ [Fs (Rename tmp outPath)]).
      { cbn [app]. rewrite <- !app_assoc. cbn [app]. rewrite <- !app_assoc. done. }
      rewrite Hsplit, app_assoc in Htr. apply app_inj_tail in Htr as [Hpre _].
      assert (Hall : Forall (confined tmp) (tr1 ++ tr2)).
      { rewrite <- Hpre. constructor; [done |].
        apply Forall_app. split; [apply mkdir_events_confined |].
        constructor; [done |]. apply Forall_app. split; [apply io_Copy_events_confined |].
        constructor; [done |]. constructor; [done |]. constructor; [done | constructor]. }
      apply Forall_app in Hall as [H1 _]. by apply replay_confined.
Qed.

End TemporaryFile.

(** C9 fails on a download whose body is written in full and whose
    [f.Sync] then fails: the error is returned and the temporary file is
    left behind with the body in it, no [os.Remove] takes place; with a
    failing read of the body instead, the temporary file is removed. *)
Lemma sync_failure_leaves_temporary_file :
  let url := "https://api.openai.com/v1/videos/video_1/content" in
  let synced := downloadFile (download_world false true true sample_body)
                  "sk-key" url "clip.mp4" sample_state in
  let interrupted :=
    downloadFile (download_world true true true
                    {| chunks := [[x00; x00; x00; x18]]; ending := EndReadError |})
      "sk-key" url "clip.mp4" sample_state in
  result_of synced = Val (Some ErrSync) /\
  st_fs (state_of synced) !! "clip.mp4.part"
  = Some [x00; x00; x00; x18; x66; x74; x79; x70] /\
  st_fs (state_of synced) !! "clip.mp4" = None /\
  count is_remove (trace_of synced) = 0%nat /\
  result_of interrupted = Val (Some ErrCopyRead) /\
  st_fs (state_of interrupted) !! "clip.mp4.part" = None /\
  count is_remove (trace_of interrupted) = 1%nat.
Proof. vm_compute. repeat split. Qed.

(** * Further properties of the history store *)

Section ResolveMore.

Lemma not_at_not_last ref : HasPrefix ref "@" = false -> String.eqb ref "@last" = false.
Proof.
  intros H. apply String.eqb_neq. intros ->. discriminate.
Qed.

Lemma matchOutputFile_first ref pre v rest :
  (forall u, u ∈ pre -> ~ file_matches ref u) -> file_matches ref v ->
  matchOutputFile ref (pre ++ v :: rest) = Some (ID v).
Proof.
  intros Hpre Hv. induction pre as [|u pre IH]; simpl.
  - destruct Hv as [-> | ->]; rewrite String.eqb_refl; [done | by rewrite orb_true_r].
  - assert (Hu : ~ file_matches ref u) by (apply Hpre; left).
    destruct (String.eqb (OutputFile u) ref) eqn:E1.
    { apply String.eqb_eq in E1. destruct Hu. by left. }
    destruct (String.eqb (Base (OutputFile u)) ref) eqn:E2.
    { apply String.eqb_eq in E2. destruct Hu. by right. }
    simpl. apply IH. intros u' Hu'. apply Hpre. by right.
Qed.

Lemma matchOutputFile_Some ref vs id :
  matchOutputFile ref vs = Some id ->
  exists v, v ∈ vs /\ ID v = id /\ file_matches ref v.
Proof.
  induction vs as [|u vs IH]; simpl; [done |].
  destruct (String.eqb (OutputFile u) ref || String.eqb (Base (OutputFile u)) ref) eqn:E.
  - intros [= <-]. exists u. split; [left |]. split; [done |].
    apply orb_true_iff in E as [E | E]; apply String.eqb_eq in E; [by left | by right].
  - intros H. destruct (IH H) as (v & Hin & Hid & Hm). exists v. split; [by right | done].
Qed.

Lemma matchOutputFile_None ref vs :
  matchOutputFile ref vs = None -> forall v, v ∈ vs -> ~ file_matches ref v.
Proof.
  induction vs as [|u vs IH]; simpl; intros H v Hin; [by apply elem_of_nil in Hin |].
  destruct (String.eqb (OutputFile u) ref || String.eqb (Base (OutputFile u)) ref) eqn:E;
    [done |].
  apply orb_false_iff in E as [E1 E2]. apply String.eqb_neq in E1, E2.
  apply elem_of_cons in Hin as [-> | Hin]; [| by apply IH].
  by intros [? | ?].
Qed.

Lemma resolve_not_at s h ref :
  loadHistory s = Ok h -> Videos h <> [] -> HasPrefix ref "@" = false ->
  resolveRemixVideoID s ref
  = Ok (default ref (matchOutputFile ref (Videos h))).
Proof.
  intros Hl Hne Hat. unfold resolveRemixVideoID. rewrite Hl.
  destruct (Videos h) as [|first rest] eqn:Hv; [done |].
  rewrite (not_at_not_last ref Hat), Hat.
  by destruct (matchOutputFile ref (first :: rest)).
Qed.

Lemma resolve_first_match s h ref pre v rest :
  loadHistory s = Ok h -> HasPrefix ref "@" = false ->
  Videos h = pre ++ v :: rest ->
  (forall u, u ∈ pre -> ~ file_matches ref u) -> file_matches ref v ->
  resolveRemixVideoID s ref = Ok (ID v).
Proof.
  intros Hl Hat Hv Hpre Hm.
  rewrite (resolve_not_at s h ref Hl) by (by rewrite ?Hv; destruct pre).
  by rewrite Hv, (matchOutputFile_first ref pre v rest Hpre Hm).
Qed.

Lemma is_letter_scan c r : is_letter c = true -> Sscanf_d (String c r) = None.
Proof.
  destruct c as [[|] [|] [|] [|] [|] [|] [|] [|]]; try discriminate; reflexivity.
Qed.






(** For a reference that starts with ["@"] only the identifiers of the
    history count. *)
Lemma resolve_by_ids s1 s2 h1 h2 ref :
  loadHistory s1 = Ok h1 -> loadHistory s2 = Ok h2 ->
  ID <$> Videos h1 = ID <$> Videos h2 -> HasPrefix ref "@" = true ->
  resolveRemixVideoID s1 ref = resolveRemixVideoID s2 ref.
Proof.
  intros Hl1 Hl2 Hids Hat. unfold resolveRemixVideoID. rewrite Hl1, Hl2.
  assert (Hlen : length (Videos h1) = length (Videos h2)).
  { by rewrite <- (length_fmap ID (Videos h1)), Hids, length_fmap. }
  assert (Hlook : forall i, ID <$> (Videos h1 !! i) = ID <$> (Videos h2 !! i)).
  { intros i. by rewrite <- !list_lookup_fmap, Hids. }
  destruct (Videos h1) as [|f1 r1] eqn:Hv1, (Videos h2) as [|f2 r2] eqn:Hv2;
    try discriminate; [done |].
  destruct (String.eqb ref "@last").
  { f_equal. by injection Hids. }
  rewrite Hat.
  destruct (Sscanf_d (TrimPrefix ref "@")) as [idx|]; [| done].
  rewrite Hlen.
  destruct ((idx <? 0) || (Z.of_nat (length (f2 :: r2)) <=? idx)); [done |].
  specialize (Hlook (Z.to_nat idx)).
  destruct ((f1 :: r1) !! Z.to_nat idx), ((f2 :: r2) !! Z.to_nat idx);
    cbn in Hlook; congruence.
Qed.

End ResolveMore.

(** X1.  A reference that does not start with ["@"] and names the output file of
    a recorded video, by its path or by the last element of its path, gives
    the identifier of the most recent such video. *)
Theorem resolve_by_output_file (s : Store) (h : history) (ref : string)
    (pre : list videoHistoryEntry) (v : videoHistoryEntry)
    (rest : list videoHistoryEntry) :
  loadHistory s = Ok h ->
  HasPrefix ref "@" = false ->
  Videos h = pre ++ v :: rest ->
  (forall u, u ∈ pre -> ~ file_matches ref u) ->
  file_matches ref v ->
  resolveRemixVideoID s ref = Ok (ID v).
Proof.
  intros Hl Hat Hv Hpre Hm. by apply (resolve_first_match s h ref pre v rest).
Qed.

Lemma resolve_by_output_file_witness :
  resolveRemixVideoID (sample_store (HistData two_videos)) "b.mp4" = Ok "video_b" /\
  resolveRemixVideoID (sample_store (HistData two_videos)) "-" = Ok "video_a".
Proof.
  split.
  - apply (resolve_by_output_file (sample_store (HistData two_videos)) two_videos "b.mp4"
             [] (sample_entry "video_b" "out/b.mp4") [sample_entry "video_a" "-"]);
      [reflexivity | reflexivity | reflexivity | | by right].
    intros u Hu. by apply elem_of_nil in Hu.
  - apply (resolve_by_output_file (sample_store (HistData two_videos)) two_videos "-"
             [sample_entry "video_b" "out/b.mp4"] (sample_entry "video_a" "-") []);
      [reflexivity | reflexivity | reflexivity | | by left].
    intros u Hu. apply list_elem_of_singleton in Hu as ->.
    intros [H | H]; vm_compute in H; discriminate.
Defined.

(** X2.  Where the identifier that [resolveRemixVideoID] returns comes from.
    For a reference that starts with ["@"] it is the identifier of the most
    recent video when the reference is ["@last"], and otherwise the
    identifier at the position that [Sscanf] reads after the ["@"]; the
    reference is never matched against file names nor returned as it is:
    the result is the same on every history with the same identifiers,
    whatever its output files.  For any other reference it is the
    identifier of a recorded video whose output file the reference names,
    or, when there is none, the reference itself. *)
Theorem resolve_result_origin (s : Store) (h : history) (ref id : string) :
  loadHistory s = Ok h ->
  resolveRemixVideoID s ref = Ok id ->
  Videos h <> [] /\
  (HasPrefix ref "@" = true ->
   ((ref = "@last" /\ exists first rest, Videos h = first :: rest /\ id = ID first) \/
    (ref <> "@last" /\
     exists idx v, Sscanf_d (TrimPrefix ref "@") = Some idx /\
       0 <= idx < Z.of_nat (length (Videos h)) /\
       Videos h !! Z.to_nat idx = Some v /\ id = ID v)) /\
   (forall s' h', loadHistory s' = Ok h' ->
      ID <$> Videos h' = ID <$> Videos h -> resolveRemixVideoID s' ref = Ok id)) /\
  (HasPrefix ref "@" = false ->
   (exists v, v ∈ Videos h /\ ID v = id /\ file_matches ref v) \/
   (id = ref /\ forall v, v ∈ Videos h -> ~ file_matches ref v)).
Proof.
  intros Hl Hr.
  assert (Hne : Videos h <> []).
  { intros Hv. by rewrite (resolve_empty s h ref Hl Hv) in Hr. }
  split; [done |]. split.
  - intros Hat. split.
    + unfold resolveRemixVideoID in Hr. rewrite Hl in Hr.
      destruct (Videos h) as [|first rest] eqn:Hv; [done |].
      destruct (String.eqb_spec ref "@last") as [-> | Hnl].
      { injection Hr as <-. left. split; [done |]. by exists first, rest. }
      right. split; [done |]. rewrite Hat in Hr.
      destruct (Sscanf_d (TrimPrefix ref "@")) as [idx|]; [| done].
      destruct ((idx <? 0) || (Z.of_nat (length (first :: rest)) <=? idx)) eqn:Hrange;
        [done |].
      apply orb_false_iff in Hrange as [H0 Hn].
      apply Z.ltb_ge in H0. apply Z.leb_gt in Hn.
      destruct ((first :: rest) !! Z.to_nat idx) as [v|] eqn:Hi; [| done].
      injection Hr as <-. by exists idx, v.
    + intros s' h' Hl' Hids. rewrite <- Hr.
      apply (resolve_by_ids s' s h' h ref Hl' Hl Hids Hat).
  - intros Hat. rewrite (resolve_not_at s h ref Hl Hne Hat) in Hr.
    destruct (matchOutputFile ref (Videos h)) as [id'|] eqn:Hm; injection Hr as <-.
    + left. by apply matchOutputFile_Some.
    + right. split; [done |]. by apply matchOutputFile_None.
Qed.

Lemma resolve_result_origin_witness :
  resolveRemixVideoID (sample_store (HistData at_named)) "@1" = Ok "video_a" /\
  resolveRemixVideoID (sample_store (HistData two_videos)) "@1" = Ok "video_a" /\
  exists idx v, Sscanf_d "1" = Some idx /\ 0 <= idx < 2 /\
    Videos at_named !! Z.to_nat idx = Some v /\ "video_a" = ID v.
Proof.
  destruct (resolve_result_origin (sample_store (HistData at_named)) at_named
              "@1" "video_a" eq_refl eq_refl) as (_ & Hat & _).
  destruct (Hat eq_refl) as ([[H _] | [_ Hidx]] & Hids); [discriminate |].
  split; [reflexivity |].
  split; [exact (Hids (sample_store (HistData two_videos)) two_videos eq_refl eq_refl) |].
  exact Hidx.
Defined.



(** X4.  A reference that starts with ["@"] and is neither ["@last"] nor a
    number is refused as an invalid index: nothing after the ["@"], a word,
    or a number beyond the range of [int]. *)
Theorem resolve_invalid_index (s : Store) (h : history) (tok : string) :
  loadHistory s = Ok h -> Videos h <> [] -> tok <> "last" ->
  tok = "" \/ (exists c r, tok = String c r /\ is_letter c = true) \/
  (exists n, numeral tok n /\ maxInt < n) ->
  resolveRemixVideoID s ("@" +:+ tok) = Err (ErrInvalidIndex ("@" +:+ tok)).
Proof.
  intros Hl Hne Hnl Htok.
  change ("@" +:+ tok) with (String "@" tok).
  rewrite (resolve_at s h tok Hl Hne Hnl).
  assert (Sscanf_d tok = None) as ->; [| done].
  destruct Htok as [-> | [(c & r & -> & Hc) | (n & Hn & Hbig)]].
  - reflexivity.
  - by apply is_letter_scan.
  - by apply (Sscanf_d_overflow tok n).
Qed.

Lemma resolve_invalid_index_witness :
  let s := sample_store (HistData two_videos) in
  resolveRemixVideoID s "@" = Err (ErrInvalidIndex "@") /\
  resolveRemixVideoID s "@first" = Err (ErrInvalidIndex "@first") /\
  resolveRemixVideoID s "@9223372036854775808"
  = Err (ErrInvalidIndex "@9223372036854775808").
Proof.
  intros s.
  assert (Hne : Videos two_videos <> []) by discriminate.
  split; [| split].
  - apply (resolve_invalid_index s two_videos "" eq_refl Hne); [discriminate | by left].
  - apply (resolve_invalid_index s two_videos "first" eq_refl Hne); [discriminate |].
    right. left. by exists "f"%char, "irst".
  - apply (resolve_invalid_index s two_videos "9223372036854775808" eq_refl Hne);
      [discriminate |].
    right. right. exists 9223372036854775808. split.
    + split; [discriminate | reflexivity].
    + unfold maxInt, intBits. lia.
Defined.

Section AddMore.

Lemma take_cons_take {A} n (x : A) l : take (S n) (x :: take (S n) l) = take (S n) (x :: l).
Proof.
  cbn [take]. f_equal. rewrite take_take. f_equal. lia.
Qed.

Lemma addToHistory_ok_flags s e h :
  loadHistory s = Ok h -> mkdir_ok s = true -> write_ok s = true ->
  let s' := (addToHistory s e).1 in
  loadHistory s' = Ok {| Videos := take 100 (json_entry e :: Videos h) |} /\
  mkdir_ok s' = true /\ write_ok s' = true.
Proof.
  intros Hl Hm Hw s'. unfold s'. split; [by apply addToHistory_loads |].
  by rewrite (addToHistory_saves s e h Hl Hm Hw).
Qed.

Lemma addAll_load s h es :
  loadHistory s = Ok h -> mkdir_ok s = true -> write_ok s = true ->
  es <> [] ->
  loadHistory (addAll s es)
  = Ok {| Videos := take 100 (rev (json_entry <$> es) ++ Videos h) |} /\
  mkdir_ok (addAll s es) = true /\ write_ok (addAll s es) = true.
Proof.
  intros Hl Hm Hw Hne.
  induction es as [|e es IH] using rev_ind; [done |].
  unfold addAll. rewrite foldl_app. cbn [foldl]. fold (addAll s es).
  rewrite fmap_app, rev_app_distr. cbn [fmap list_fmap rev app].
  destruct es as [|e0 es0].
  - cbn [addAll foldl rev app fmap list_fmap]. by apply addToHistory_ok_flags.
  - destruct IH as (Hl' & Hm' & Hw'); [done |].
    destruct (addToHistory_ok_flags (addAll s (e0 :: es0)) e _ Hl' Hm' Hw') as (H1 & H2 & H3).
    split; [| by split]. rewrite H1. cbn [Videos]. do 2 f_equal.
    apply (take_cons_take 99).
Qed.

Lemma json_entries_valid es :
  Forall (fun e => ValidEntry e = true) es -> json_entry <$> es = es.
Proof.
  induction 1 as [| e es He _ IH]; [done |].
  by rewrite fmap_cons, IH, (json_entry_valid e He).
Qed.

End AddMore.

(** X5.  The history keeps the latest hundred: after any sequence of additions
    to a store that can be read and written, the history holds the entries
    added, the last one first and each in the form the file format gives it
    (every byte that is no UTF-8 text replaced by U+FFFD), followed by the
    entries it held before, cut after the first hundred; entries whose
    strings are text are held as they were given. *)
Theorem history_keeps_latest (s : Store) (h : history) (es : list videoHistoryEntry) :
  loadHistory s = Ok h -> mkdir_ok s = true -> write_ok s = true ->
  es <> [] ->
  loadHistory (addAll s es)
  = Ok {| Videos := take 100 (rev (json_entry <$> es) ++ Videos h) |} /\
  (Forall (fun e => ValidEntry e = true) es ->
   loadHistory (addAll s es) = Ok {| Videos := take 100 (rev es ++ Videos h) |}).
Proof.
  intros Hl Hm Hw Hne. destruct (addAll_load s h es Hl Hm Hw Hne) as (Hload & _).
  split; [done |]. intros Hv. by rewrite Hload, (json_entries_valid es Hv).
Qed.

Lemma history_keeps_latest_witness :
  let es := [sample_entry "video_1" "one.mp4"; sample_entry "video_2" "two.mp4"] in
  loadHistory (addAll (sample_store (HistData full_history)) es)
  = Ok {| Videos := sample_entry "video_2" "two.mp4" :: sample_entry "video_1" "one.mp4"
                    :: replicate 98 (sample_entry "video_kept" "kept.mp4") |}.
Proof.
  intros es.
  destruct (history_keeps_latest (sample_store (HistData full_history)) full_history es
              eq_refl eq_refl eq_refl ltac:(discriminate)) as (_ & Hvalid).
  rewrite Hvalid; [reflexivity |].
  repeat constructor.
Defined.

(** X6.  What is added to the history can be referred to at once: after a
    successful addition ["@last"] and ["@0"] give the identifier of the new
    entry, so does the name of its output file, and the index of every
    older entry has moved up by one.  The identifier and the file name are
    those of the entry as the file format holds it, which is the entry
    given when its strings are UTF-8 text. *)
Theorem added_entry_resolves (s : Store) (h : history) (e : videoHistoryEntry) :
  loadHistory s = Ok h -> mkdir_ok s = true -> write_ok s = true ->
  let s' := (addToHistory s e).1 in
  let e' := json_entry e in
  (ValidEntry e = true -> e' = e) /\
  resolveRemixVideoID s' "@last" = Ok (ID e') /\
  resolveRemixVideoID s' "@0" = Ok (ID e') /\
  (forall ref, HasPrefix ref "@" = false -> file_matches ref e' ->
     resolveRemixVideoID s' ref = Ok (ID e')) /\
  (forall ds n ds' v, numeral ds n -> numeral ds' (n + 1) -> n + 1 < 100 ->
     Videos h !! Z.to_nat n = Some v ->
     resolveRemixVideoID s' ("@" +:+ ds') = Ok (ID v)).
Proof.
  intros Hl Hm Hw s' e'.
  destruct (addToHistory_ok_flags s e h Hl Hm Hw) as (Hl' & _ & _). fold s' e' in Hl'.
  set (h' := {| Videos := take 100 (e' :: Videos h) |}) in *.
  assert (Hv' : Videos h' = e' :: take 99 (Videos h)) by reflexivity.
  assert (Hne : Videos h' <> []) by (by rewrite Hv').
  split; [apply json_entry_valid |].
  split; [| split; [| split]].
  - by apply (resolve_last s' h' e' (take 99 (Videos h))).
  - change "@0" with (String "@" "0").
    rewrite (resolve_at s' h' "0" Hl' Hne) by discriminate.
    change (Sscanf_d "0") with (Some 0). cbn zeta. rewrite Hv'. cbn [length].
    destruct ((0 <? 0) || (Z.of_nat (S (length (take 99 (Videos h)))) <=? 0)) eqn:E; [| done].
    apply orb_true_iff in E as [E | E]; [done |]. apply Z.leb_le in E. lia.
  - intros ref Hat Hmatch.
    apply (resolve_first_match s' h' ref [] e' (take 99 (Videos h))); try done.
    intros u Hu. by apply elem_of_nil in Hu.
  - intros ds n ds' v Hn Hn' Hlt Hv.
    assert (0 <= n) by (destruct Hn as [_ Hp]; by apply (parse_digits_nonneg 0 ds n)).
    change ("@" +:+ ds') with (String "@" ds').
    rewrite (resolve_at s' h' ds' Hl' Hne (numeral_not_last ds' _ Hn')).
    rewrite (Sscanf_d_numeral ds' (n + 1) Hn') by (unfold maxInt, intBits; lia).
    cbn zeta.
    assert (Hi : Videos h' !! Z.to_nat (n + 1) = Some v).
    { rewrite Hv'. replace (Z.to_nat (n + 1)) with (S (Z.to_nat n)) by lia.
      change ((e' :: take 99 (Videos h)) !! S (Z.to_nat n))
        with (take 99 (Videos h) !! Z.to_nat n).
      rewrite lookup_take_lt by lia. done. }
    rewrite Hi.
    assert (Hlen : (Z.to_nat (n + 1) < length (Videos h'))%nat).
    { apply lookup_lt_is_Some. by rewrite Hi. }
    destruct ((n + 1 <? 0) || (Z.of_nat (length (Videos h')) <=? n + 1)) eqn:E; [| done].
    apply orb_true_iff in E as [E | E]; [apply Z.ltb_lt in E | apply Z.leb_le in E]; lia.
Qed.

Lemma added_entry_resolves_witness :
  let s := sample_store (HistData two_videos) in
  let s' := (addToHistory s (sample_entry "video_c" "clips/c.mp4")).1 in
  resolveRemixVideoID s' "@last" = Ok "video_c" /\
  resolveRemixVideoID s' "c.mp4" = Ok "video_c" /\
  resolveRemixVideoID s "@0" = Ok "video_b" /\
  resolveRemixVideoID s' "@1" = Ok "video_b".
Proof.
  intros s s'.
  destruct (added_entry_resolves s two_videos (sample_entry "video_c" "clips/c.mp4")
              eq_refl eq_refl eq_refl) as (_ & Hlast & _ & Hfile & Hshift).
  split; [exact Hlast |]. split; [| split; [reflexivity |]].
  - apply (Hfile "c.mp4"); [reflexivity | right; reflexivity].
  - assert (H0 : numeral "0" 0) by (split; [discriminate | reflexivity]).
    assert (H1 : numeral "1" (0 + 1)) by (split; [discriminate | reflexivity]).
    exact (Hshift "0" 0 "1" (sample_entry "video_b" "out/b.mp4") H0 H1
             ltac:(lia) eq_refl).
Defined.

(** * Further properties of the controller *)

Section PollShape.

Context (baseURL apiKey jobID : string).

Let statusURL := TrimRightSlash baseURL +:+ "/videos/" +:+ jobID.
Let contentURL := TrimRightSlash baseURL +:+ "/videos/" +:+ jobID +:+ "/content".
Let status_request := Net (GetStatus statusURL apiKey).

Lemma poll_cases r : poll_fails r \/ exists st, answers r st.
Proof.
  destruct r as [| |code text [st|]].
  - left. intros st (c & t & H & _). discriminate.
  - left. intros st (c & t & H & _). discriminate.
  - destruct (decide (200 <= code < 300)) as [Hc | Hc].
    + right. exists st, code, text. by split.
    + left. intros st' (c & t & H & Hr). injection H as <- <- <-. lia.
  - left. intros st (c & t & H & _). discriminate.
Qed.

Lemma status_cases st :
  (exists m, reports_error st m) \/
  (no_error_message st /\
   (names (vs_Status st) successStatuses \/
    names (vs_Status st) failureStatuses \/
    (~ names (vs_Status st) successStatuses /\ ~ names (vs_Status st) failureStatuses))).
Proof.
  destruct (has_message (vs_Error st)) eqn:Hm.
  - left. apply has_message_true in Hm as (a & Ha & Hne). exists (Message a), a. by split.
  - right. split; [by apply has_message_false |].
    destruct (isSuccess (ToLower (vs_Status st))) eqn:Hs.
    { left. by apply isSuccess_names. }
    destruct (isFailure (ToLower (vs_Status st))) eqn:Hf.
    { right. left. by apply isFailure_names. }
    right. right. split; intros H.
    + apply isSuccess_names in H. congruence.
    + apply isFailure_names in H. congruence.
Qed.

Lemma polling_only_app tr1 tr2 :
  polling_only status_request tr1 -> polling_only status_request tr2 ->
  polling_only status_request (tr1 ++ tr2).
Proof. unfold polling_only. intros. by apply Forall_app. Qed.

(** The polling loop on any turns: it leaves the state alone, ends with the
    content URL or with status 1, sends status requests only, at most one
    for each turn. *)
Lemma pollLoop_shape ts s :
  exists r tr,
    pollLoop baseURL apiKey jobID ts s = (r, s, tr) /\
    (r = Exit 1 \/ (r = Val contentURL /\ requests_of tr <> [])) /\
    polling_only status_request tr /\
    (length (requests_of tr) <= length ts)%nat.
Proof.
  induction ts as [|t ts IH].
  { exists (Exit 1), [Stderr MContextDone]. destruct s. split; [done |].
    split; [by left |]. split; [| simpl; lia]. constructor; [by right | constructor]. }
  destruct t as [|r].
  { exists (Exit 1), [Stderr MContextDone]. destruct s. split; [done |].
    split; [by left |]. split; [| simpl; lia]. constructor; [by right | constructor]. }
  destruct IH as (r0 & tr0 & Hrun & Hres & Honly & Hlen).
  destruct (poll_cases r) as [Hfail | (st & Ha)].
  - destruct (pollLoop_retry baseURL apiKey jobID r ts s Hfail) as (e & sent & Heq & Hsent).
    exists r0, ((sent ++ [Stderr (MPollError e)]) ++ tr0).
    rewrite Heq, Hrun. split; [done |]. split.
    { destruct Hres as [-> | [-> Hne]]; [by left | right]. split; [done |].
      rewrite requests_of_app. intros [_ H]%app_eq_nil. done. }
    split.
    + apply polling_only_app; [| done]. apply Forall_app. split.
      * destruct Hsent as [-> | ->]; [constructor |]. constructor; [by left | constructor].
      * constructor; [by right | constructor].
    + rewrite !requests_of_app. rewrite !length_app.
      destruct Hsent as [-> | ->]; simpl; lia.
  - destruct (status_cases st) as [(m & Hm) | (Hno & [Hs | [Hf | [Hns Hnf]]])].
    + exists (Exit 1), [status_request; Stderr (MJobError m)].
      rewrite (pollLoop_job_error baseURL apiKey jobID r st m ts s Ha Hm).
      split; [done |]. split; [by left |]. split; [| simpl; lia].
      constructor; [by left |]. constructor; [by right | constructor].
    + eexists (Val contentURL), _.
      rewrite (pollLoop_success baseURL apiKey jobID r st ts s Ha Hno Hs).
      split; [reflexivity |]. split; [right; by split |]. split.
      * constructor; [by left |]. apply Forall_app. split; [apply bar_events_stderr |].
        constructor; [by right |]. constructor; [by right | constructor].
      * unfold status_request. rewrite requests_of_net, requests_of_app.
        rewrite (requests_of_quiet (bar_events _)).
        2:{ unfold bar_events. destruct (0 <? _); repeat constructor. }
        simpl. lia.
    + eexists (Exit 1), _.
      rewrite (pollLoop_failure baseURL apiKey jobID r st ts s Ha Hno Hf).
      split; [reflexivity |]. split; [by left |]. split.
      * constructor; [by left |]. apply Forall_app. split; [apply bar_events_stderr |].
        constructor; [by right | constructor].
      * unfold status_request. rewrite requests_of_net, requests_of_app.
        rewrite (requests_of_quiet (bar_events _)).
        2:{ unfold bar_events. destruct (0 <? _); repeat constructor. }
        simpl. lia.
    + exists r0, ((status_request :: bar_events (vs_Progress st)) ++ tr0).
      rewrite (pollLoop_other baseURL apiKey jobID r st ts s Ha Hno Hns Hnf), Hrun.
      split; [done |]. split.
      { destruct Hres as [-> | [-> Hne]]; [by left | right]. by split. }
      split.
      * apply polling_only_app; [| done]. constructor; [by left |]. apply bar_events_stderr.
      * unfold status_request. rewrite requests_of_app, length_app, requests_of_net.
        rewrite (requests_of_quiet (bar_events _)).
        2:{ unfold bar_events. destruct (0 <? _); repeat constructor. }
        simpl. lia.
Qed.

End PollShape.

Section TrackShape.

Context (fl : Flags) (w : World) (apiKey model prompt jobID : string).

Let statusURL := TrimRightSlash (baseURL fl) +:+ "/videos/" +:+ jobID.
Let contentURL := TrimRightSlash (baseURL fl) +:+ "/videos/" +:+ jobID +:+ "/content".
Let status_request := Net (GetStatus statusURL apiKey).
Let content_request := Net (GetContent contentURL apiKey).
Let out := destination fl jobID.
Let entry := history_entry fl w jobID prompt model out.

Lemma recordHistory_events e s :
  let r := addToHistory (st_store s) e in
  recordHistory e s
  = (Val r.2, {| st_fs := st_fs s; st_store := r.1 |},
     match r.2, hist_file r.1 with
     | None, HistData h => [HistorySaved h]
     | _, _ => []
     end).
Proof.
  intros r. unfold recordHistory, bind, get_store, put_store. cbn -[addToHistory].
  fold r. destruct (r.2) as [err|]; [done |].
  destruct (hist_file r.1); done.
Qed.

(** What follows a download that succeeded: the message that names the
    file, the addition to the history, the warning when that failed. *)
Lemma after_download s :
  let r := addToHistory (st_store s) entry in
  (run when (negb (String.eqb out "-")) (infof (MSaved out));
   do err <- recordHistory entry;
   match err with
   | Some e => infof (MHistoryWarning e)
   | None => ret tt
   end) s
  = (Val tt, {| st_fs := st_fs s; st_store := r.1 |},
     saved_events out ++ history_events r).
Proof.
  intros r.
  assert (Hsaved : when (negb (String.eqb out "-")) (infof (MSaved out)) s
                   = (Val tt, s, saved_events out)).
  { unfold saved_events, when, infof. destruct (String.eqb out "-"); [done |].
    cbn [negb]. by rewrite emit_quiet. }
  rewrite (bind_val _ _ s tt s _ Hsaved).
  rewrite (bind_val _ _ s _ _ _ (recordHistory_events entry s)). fold r.
  unfold history_events, after_events.
  destruct (r.2) as [e|] eqn:Hr.
  - unfold infof. rewrite emit_quiet by done. cbn [fst snd]. by rewrite app_nil_l.
  - unfold ret. cbn [fst snd]. by rewrite app_nil_r.
Qed.

(** [main] once the polling has ended in success: the download is asked
    for once; when it fails the run ends with status 1; when it succeeds
    the addition to the history follows. *)
Lemma trackJob_downloads s tr_poll :
  pollLoop (baseURL fl) apiKey jobID (ticks w) s = (Val contentURL, s, tr_poll) ->
  exists err tr_dl,
    downloadFile w apiKey contentURL out s
    = (Val err, with_fs s (replay tr_dl (st_fs s)), content_request :: tr_dl) /\
    Forall quiet tr_dl /\
    trackJob fl w apiKey model prompt jobID s
    = match err with
      | Some e =>
          (Exit 1, with_fs s (replay tr_dl (st_fs s)),
           tr_poll ++ content_request :: tr_dl ++ [Stderr (MDownloadFailed e)])
      | None =>
          let r := addToHistory (st_store s) entry in
          (Val tt, {| st_fs := replay tr_dl (st_fs s); st_store := r.1 |},
           tr_poll ++ content_request :: tr_dl ++ saved_events out ++ history_events r)
      end.
Proof.
  intros Hrun.
  destruct (downloadFile w apiKey contentURL out s) as [[rd sd] trd] eqn:Hdl.
  destruct (downloadFile_state w apiKey contentURL out s rd sd trd Hdl)
    as (tr_dl & -> & -> & Hquiet & err & ->).
  exists err, tr_dl. split; [done |]. split; [done |].
  unfold trackJob. rewrite (bind_val _ _ s _ s tr_poll Hrun). fold out. fold contentURL.
  rewrite (bind_val _ _ s _ _ _ Hdl). fold entry.
  destruct err as [e|].
  - unfold bind, os_Exit. rewrite emit_quiet by done. unfold after_events. cbn [fst snd].
    reflexivity.
  - rewrite after_download. unfold after_events. cbn [fst snd with_fs st_fs st_store].
    reflexivity.
Qed.

(** [main] from the polling on, whatever the surroundings answer: the
    polling ends the run, or the download is asked for once. *)
Lemma trackJob_shape s :
  exists tr_poll,
    polling_only status_request tr_poll /\
    (length (requests_of tr_poll) <= length (ticks w))%nat /\
    (trackJob fl w apiKey model prompt jobID s = (Exit 1, s, tr_poll) \/
     exists err tr_dl,
       requests_of tr_poll <> [] /\
       downloadFile w apiKey contentURL out s
       = (Val err, with_fs s (replay tr_dl (st_fs s)), content_request :: tr_dl) /\
       Forall quiet tr_dl /\
       trackJob fl w apiKey model prompt jobID s
       = match err with
         | Some e =>
             (Exit 1, with_fs s (replay tr_dl (st_fs s)),
              tr_poll ++ content_request :: tr_dl ++ [Stderr (MDownloadFailed e)])
         | None =>
             let r := addToHistory (st_store s) entry in
             (Val tt, {| st_fs := replay tr_dl (st_fs s); st_store := r.1 |},
              tr_poll ++ content_request :: tr_dl ++ saved_events out ++ history_events r)
         end).
Proof.
  destruct (pollLoop_shape (baseURL fl) apiKey jobID (ticks w) s)
    as (r & tr_poll & Hrun & Hres & Honly & Hlen).
  exists tr_poll. split; [done |]. split; [done |].
  destruct Hres as [-> | [-> Hne]].
  { left. unfold trackJob. by rewrite (bind_exit _ _ s 1 s tr_poll Hrun). }
  right. destruct (trackJob_downloads s tr_poll Hrun) as (err & tr_dl & Hdl & Hq & Ht).
  by exists err, tr_dl.
Qed.

(** When the polling succeeds the loop returns the content URL. *)
Lemma pollLoop_succeeds s :
  polling_succeeds w ->
  exists tr_poll,
    pollLoop (baseURL fl) apiKey jobID (ticks w) s = (Val contentURL, s, tr_poll) /\
    polling_only status_request tr_poll.
Proof.
  intros (pre & r & st & rest & Ht & Hpre & Ha & Hno & Hs).
  destruct (pollLoop_pending (baseURL fl) apiKey jobID pre (Poll r :: rest) s Hpre)
    as (tr0 & Hskip & Hpoll).
  rewrite Ht, Hskip, (pollLoop_success _ _ _ r st rest s Ha Hno Hs).
  eexists. split; [reflexivity |].
  apply Forall_app. split; [done |]. constructor; [by left |].
  apply Forall_app. split; [apply bar_events_stderr |].
  constructor; [by right |]. constructor; [by right | constructor].
Qed.

End TrackShape.

Section MainShape.

Context (fl : Flags) (w : World).

Lemma readPrompt_events s :
  readPrompt fl w s
  = if String.eqb (prompt fl) "" then
      match stdin_prompt w with
      | None => (Exit 1, s, [Stdout prompt_text; Stderr MPromptReadFailed])
      | Some line =>
          if String.eqb line ""
          then (Exit 1, s, [Stdout prompt_text; Stderr MPromptEmpty])
          else (Val line, s, [Stdout prompt_text])
      end
    else (Val (prompt fl), s, []).
Proof.
  unfold readPrompt. destruct (String.eqb (prompt fl) ""); [| done].
  unfold promptInteractive, bind. rewrite emit_quiet by done.
  destruct (stdin_prompt w) as [line|]; cbn -[emit].
  - destruct (String.eqb line ""); [| done]. by rewrite emit_quiet by done.
  - by rewrite emit_quiet by done.
Qed.

Lemma ready_prompt s :
  (prompt fl <> "" \/ exists line, stdin_prompt w = Some line /\ line <> "") ->
  readPrompt fl w s = (Val (effective_prompt fl w), s, prompt_events fl).
Proof.
  intros Hp. rewrite readPrompt_events. unfold effective_prompt, prompt_events.
  destruct (String.eqb (prompt fl) "") eqn:E; [| done].
  apply String.eqb_eq in E. destruct Hp as [Hp | (line & Hl & Hne)]; [done |].
  rewrite Hl. apply String.eqb_neq in Hne. by rewrite Hne.
Qed.

Lemma classic_prompt :
  (prompt fl <> "" \/ exists line, stdin_prompt w = Some line /\ line <> "") \/
  ~ (prompt fl <> "" \/ exists line, stdin_prompt w = Some line /\ line <> "").
Proof.
  destruct (decide (prompt fl = "")) as [Hp | Hp]; [| by left; left].
  destruct (stdin_prompt w) as [line|].
  - destruct (decide (line = "")) as [Hl | Hl].
    + right. intros [H | (l & [= <-] & H)]; done.
    + left. right. by exists line.
  - right. intros [H | (l & H & _)]; done.
Qed.

Lemma processImage_param s :
  processImage fl s
  = match image_param fl (st_fs s) with
    | Ok img => (Val img, s, [])
    | Err e => (Exit 1, s, [Stderr (MImageFailed e)])
    end.
Proof.
  unfold processImage, image_param.
  destruct (String.eqb (imageFile fl) ""); cbn [negb]; [done |].
  unfold bind, get_fs. cbn -[emit encodeImageToDataURI].
  destruct (encodeImageToDataURI (st_fs s) (imageFile fl)); [done |].
  by rewrite emit_quiet by done.
Qed.

Lemma resolveRemix_param s :
  resolveRemix fl s
  = match remix_param fl (st_store s) with
    | Ok remix => (Val remix, s, remix_events remix)
    | Err e => (Exit 1, s, [Stderr (MResolveFailed e)])
    end.
Proof.
  unfold resolveRemix, remix_param.
  destruct (String.eqb (remixFrom fl) ""); cbn [negb]; [done |].
  unfold bind, get_store, infof. cbn -[emit resolveRemixVideoID].
  destruct (resolveRemixVideoID (st_store s) (remixFrom fl));
    by rewrite emit_quiet by done.
Qed.

Lemma valid_seconds_nonempty sec : valid_seconds sec = true -> opt_nonempty sec = Some sec.
Proof.
  unfold valid_seconds, opt_nonempty. destruct (String.eqb sec "") eqn:E; [| done].
  apply String.eqb_eq in E. by subst sec.
Qed.

Lemma effective_size_nonempty : opt_nonempty (effective_size fl) = Some (effective_size fl).
Proof. unfold effective_size. by destruct (portrait fl). Qed.

(** A run that is not ready, or whose image or remix reference fails, ends
    before the submission. *)
Lemma generate_stops model videoSize s :
  ~ (env_apiKey w <> "" /\
     (prompt fl <> "" \/ exists line, stdin_prompt w = Some line /\ line <> "") /\
     (exists img, image_param fl (st_fs s) = Ok img) /\
     (exists remix, remix_param fl (st_store s) = Ok remix)) ->
  exists tr, generate fl w model videoSize s = (Exit 1, s, tr) /\ Forall is_talk tr.
Proof.
  intros Hnot. unfold generate.
  destruct (String.eqb (env_apiKey w) "") eqn:Hk.
  { unfold bind, os_Exit. rewrite emit_quiet by done. eexists. split; [reflexivity |].
    constructor; [by left | constructor]. }
  apply String.eqb_neq in Hk.
  assert (Htalk : Forall is_talk (prompt_events fl)).
  { unfold prompt_events. destruct (String.eqb (prompt fl) ""); [| constructor].
    constructor; [by right | constructor]. }
  destruct (classic_prompt) as [Hp | Hp].
  2:{ pose proof (readPrompt_events s) as Hrp.
      destruct (String.eqb (prompt fl) "") eqn:E.
      2:{ destruct Hp. left. by apply String.eqb_neq. }
      destruct (stdin_prompt w) as [line|] eqn:Hl.
      - destruct (String.eqb line "") eqn:Hline.
        + rewrite (bind_exit _ _ s _ s _ Hrp). eexists. split; [reflexivity |].
          constructor; [by right |]. constructor; [by left | constructor].
        + destruct Hp. right. exists line. split; [done |]. by apply String.eqb_neq.
      - rewrite (bind_exit _ _ s _ s _ Hrp). eexists. split; [reflexivity |].
        constructor; [by right |]. constructor; [by left | constructor]. }
  rewrite (bind_val _ _ s _ s _ (ready_prompt s Hp)). cbv beta.
  pose proof (processImage_param s) as Hpi.
  destruct (image_param fl (st_fs s)) as [img|e] eqn:Hi.
  2:{ rewrite (bind_exit _ _ s _ s _ Hpi). unfold after_events. cbn [fst snd].
      eexists. split; [reflexivity |]. apply Forall_app. split; [done |].
      constructor; [by left | constructor]. }
  rewrite (bind_val _ _ s _ s _ Hpi). cbv beta.
  pose proof (resolveRemix_param s) as Hrr.
  destruct (remix_param fl (st_store s)) as [remix|e] eqn:Hr.
  { destruct Hnot. split; [done |]. split; [done |]. split; by eexists. }
  rewrite (bind_exit _ _ s _ s _ Hrr). unfold after_events. cbn [fst snd].
  eexists. split; [reflexivity |]. rewrite app_nil_l. apply Forall_app. split; [done |].
  constructor; [by left | constructor].
Qed.

(** A run that is ready goes on to the submission. *)
Lemma generate_submits model videoSize img remix s :
  env_apiKey w <> "" ->
  (prompt fl <> "" \/ exists line, stdin_prompt w = Some line /\ line <> "") ->
  image_param fl (st_fs s) = Ok img ->
  remix_param fl (st_store s) = Ok remix ->
  generate fl w model videoSize s
  = after_events (prompt_events fl ++ remix_events remix)
      (submitAndTrack fl w (env_apiKey w) model (effective_prompt fl w) img remix
         (opt_nonempty videoSize) (opt_nonempty (seconds fl)) s).
Proof.
  intros Hk Hp Hi Hr. unfold generate.
  apply String.eqb_neq in Hk. rewrite Hk.
  rewrite (bind_val _ _ s _ s _ (ready_prompt s Hp)).
  rewrite (bind_val _ _ s img s []) by (by rewrite processImage_param, Hi).
  rewrite (bind_val _ _ s remix s (remix_events remix))
    by (by rewrite resolveRemix_param, Hr).
  rewrite !after_events_app. by rewrite ?app_nil_r, ?app_nil_l.
Qed.

(** The submission and what follows it. *)
Lemma submitAndTrack_cases apiKey model prompt img remix size secs s :
  let post :=
    Net (PostVideos (TrimRightSlash (baseURL fl) +:+ "/videos") apiKey
           {| req_Model := model; req_Prompt := prompt; req_Image := img;
              req_RemixFromVideoID := remix; req_Size := size; req_Seconds := secs |}) in
  let outcome := submitAndTrack fl w apiKey model prompt img remix size secs s in
  (create_result w = BadRequest /\
   outcome = (Exit 1, s, [Stderr (MCreateFailed ErrNewRequest)])) \/
  (create_result w <> BadRequest /\ (forall jobID, ~ creation_succeeds w jobID) /\
   exists e, outcome = (Exit 1, s, [post; Stderr (MCreateFailed e)])) \/
  (exists jobID, creation_succeeds w jobID /\
     outcome = after_events [post; Stderr (MCreatedJob jobID)]
                 (trackJob fl w apiKey model prompt jobID s)).
Proof.
  intros post outcome. unfold outcome, submitAndTrack.
  destruct (create_result w) as [| |code text [out|]] eqn:Hc.
  - left. split; [done |]. unfold createVideoJob, bind, ret, os_Exit.
    by rewrite emit_quiet by done.
  - right. left. split; [done |]. split.
    { intros jobID (c & t & o & H & _). congruence. }
    exists ErrTransport. unfold createVideoJob, bind, ret, os_Exit.
    by rewrite !emit_quiet by done.
  - destruct (decide (200 <= code < 300)) as [H2 | H2].
    + rewrite (bind_val _ _ s _ s _
                 (createVideoJob_answer (baseURL fl) apiKey model prompt img remix size secs
                    code text out s H2)).
      destruct (has_message (cr_Error out)) eqn:Hm.
      { right. left. split; [done |]. split.
        { intros jobID (c & t & o & H & _ & Hno & _). rewrite Hc in H. injection H as <- <- <-.
          apply has_message_true in Hm as (a & Ha & Hne). by apply Hne, Hno. }
        eexists. unfold bind, os_Exit, after_events. rewrite emit_quiet by done.
        reflexivity. }
      destruct (String.eqb (cr_ID out) "") eqn:Hid.
      { right. left. split; [done |]. split.
        { intros jobID (c & t & o & H & _ & _ & <- & Hne). rewrite Hc in H. injection H as <- <- <-.
          by apply String.eqb_eq in Hid. }
        eexists. unfold bind, os_Exit, after_events. rewrite emit_quiet by done.
        reflexivity. }
      right. right. exists (cr_ID out). split.
      { exists code, text, out. split; [done |]. split; [done |]. split.
        - intros a Ha. destruct (String.eqb (Message a) "") eqn:E;
            [by apply String.eqb_eq in E |].
          unfold has_message in Hm. rewrite Ha, E in Hm. done.
        - split; [done |]. by apply String.eqb_neq. }
      unfold infof. rewrite (bind_val _ _ s tt s [Stderr (MCreatedJob (cr_ID out))])
        by (by rewrite emit_quiet).
      by rewrite after_events_app.
    + right. left. split; [done |]. split.
      { intros jobID (c & t & o & H & Hr & _). rewrite Hc in H. injection H as <- <- <-. lia. }
      exists (ErrAPI code text). unfold createVideoJob, bind, ret, os_Exit.
      rewrite !emit_quiet by done.
      destruct (is_2xx code) eqn:E; [apply is_2xx_iff in E; lia |].
      cbn [negb]. by rewrite emit_quiet by done.
  - right. left. split; [done |]. split.
    { intros jobID (c & t & o & H & _). congruence. }
    unfold createVideoJob, bind, ret, os_Exit. rewrite !emit_quiet by done.
    destruct (negb (is_2xx code)); eexists; by rewrite emit_quiet by done.
Qed.

End MainShape.

Section RunCases.

Context (fl : Flags) (w : World) (fs : FileSystem) (st : Store).

Let s := initial fs st.

Lemma is_talk_counts tr :
  Forall is_talk tr ->
  requests_of tr = [] /\ count is_history_write tr = 0%nat /\
  count is_download tr = 0%nat /\ count is_fs tr = 0%nat.
Proof.
  induction 1 as [|e tr He _ IH]; [done |].
  destruct IH as (H1 & H2 & H3 & H4).
  rewrite !count_cons, H2, H3, H4.
  destruct He as [He | ->]; [| done]. by destruct e.
Qed.

(** [--list]: the history is read and written to standard error, nothing
    else happens. *)
Lemma main_list :
  valid_seconds (seconds fl) = true -> portrait fl && landscape fl = false ->
  listHistory fl = true ->
  exists c m,
    main fl w s = (Exit c, s, [Stderr m]) /\
    ((c = 0 /\ exists h, loadHistory st = Ok h) \/
     (c = 1 /\ exists e, loadHistory st = Err e /\ m = MListLoadFailed e)).
Proof.
  intros Hv Ho Hl. unfold main. rewrite Hv, Ho, Hl. cbn [negb].
  unfold bind at 1, get_store. cbn [fst snd s initial st_store].
  destruct (loadHistory st) as [h | e].
  - destruct (length (Videos h) =? 0)%nat; unfold bind, os_Exit;
      rewrite emit_quiet by done; eexists 0, _; (split; [reflexivity |]); left; eauto.
  - unfold bind, os_Exit. rewrite emit_quiet by done.
    eexists 1, _. split; [reflexivity |]. right. eauto.
Qed.

Lemma creation_unique j j' : creation_succeeds w j -> creation_succeeds w j' -> j = j'.
Proof.
  intros (c & t & o & H & _ & _ & <- & _) (c' & t' & o' & H' & _ & _ & <- & _).
  rewrite H in H'. by injection H' as <- <- <-.
Qed.

(** Every run: it ends before the submission, having only written text; or
    the submission fails; or the job is created and tracked. *)
Lemma run_cases :
  (~ submits fl w fs st /\
   exists c tr, run_main fl w fs st = (Exit c, s, tr) /\ Forall is_talk tr) \/
  (exists img remix,
     ready fl w /\ image_param fl fs = Ok img /\ remix_param fl st = Ok remix /\
     create_result w <> BadRequest /\
     let tr0 := prompt_events fl ++ remix_events remix in
     (((forall jobID, ~ creation_succeeds w jobID) /\
       exists e, run_main fl w fs st
                 = (Exit 1, s, tr0 ++ [Net (submission fl w img remix);
                                       Stderr (MCreateFailed e)])) \/
      (exists jobID, creation_succeeds w jobID /\
         run_main fl w fs st
         = after_events (tr0 ++ [Net (submission fl w img remix);
                                 Stderr (MCreatedJob jobID)])
             (trackJob fl w (env_apiKey w) (effective_model fl)
                (effective_prompt fl w) jobID s)))).
Proof.
  unfold run_main. fold s.
  destruct (main_cases fl w s)
    as [(Hv & Hm) | [(Hv & Ho & Hm) | [(Hv & Ho & Hl & _) |
        [(Hv & Ho & Hl & Hc & Hm) | (Hv & Ho & Hl & Hc & Hm)]]]].
  - left. split.
    { intros ((Hv' & _) & _). congruence. }
    eexists _, _. split; [exact Hm |]. constructor; [by left | constructor].
  - left. split.
    { intros ((_ & Ho' & _) & _). congruence. }
    eexists _, _. split; [exact Hm |]. constructor; [by left | constructor].
  - left. split.
    { intros ((_ & _ & Hl' & _) & _). congruence. }
    destruct (main_list Hv Ho Hl) as (c & m & Hm & _).
    eexists _, _. split; [exact Hm |]. constructor; [by left | constructor].
  - left. split.
    { intros ((_ & _ & _ & Hc' & _) & _). congruence. }
    eexists _, _. split; [exact Hm |]. constructor; [by left | constructor].
  - rewrite Hm.
    destruct (decide (env_apiKey w = "")) as [Hk | Hk].
    { left. split; [by intros ((_ & _ & _ & _ & Hk' & _) & _) |].
      destruct (generate_stops fl w (effective_model fl) (effective_size fl) s)
        as (tr & Hg & Ht); [by intros (Hk' & _) | eauto]. }
    destruct (classic_prompt fl w) as [Hp | Hp].
    2:{ left. split; [by intros ((_ & _ & _ & _ & _ & Hp') & _) |].
        destruct (generate_stops fl w (effective_model fl) (effective_size fl) s)
          as (tr & Hg & Ht); [by intros (_ & Hp' & _) | eauto]. }
    destruct (image_param fl fs) as [img | e] eqn:Hi.
    2:{ left. split; [intros (_ & (img & Hi') & _); congruence |].
        destruct (generate_stops fl w (effective_model fl) (effective_size fl) s)
          as (tr & Hg & Ht); [| eauto].
        intros (_ & _ & (img & Hi') & _). cbn [s initial st_fs] in Hi'. congruence. }
    destruct (remix_param fl st) as [remix | e] eqn:Hr.
    2:{ left. split; [intros (_ & _ & (remix & Hr') & _); congruence |].
        destruct (generate_stops fl w (effective_model fl) (effective_size fl) s)
          as (tr & Hg & Ht); [| eauto].
        intros (_ & _ & _ & (remix & Hr')). cbn [s initial st_store] in Hr'. congruence. }
    rewrite (generate_submits fl w (effective_model fl) (effective_size fl) img remix s Hk Hp)
      by done.
    rewrite effective_size_nonempty, (valid_seconds_nonempty _ Hv).
    assert (Hready : ready fl w) by done.
    destruct (submitAndTrack_cases fl w (env_apiKey w) (effective_model fl)
                (effective_prompt fl w) img remix (Some (effective_size fl))
                (Some (seconds fl)) s)
      as [(Hbad & Hrun) | [(Hgood & Hno & e & Hrun) | (jobID & Hjob & Hrun)]].
    + left. split; [by intros (_ & _ & _ & Hne) |].
      rewrite Hrun. unfold after_events. cbn [fst snd].
      eexists _, _. split; [reflexivity |].
      apply Forall_app. split; [apply Forall_app; split |].
      * unfold prompt_events. destruct (String.eqb (prompt fl) ""); [| constructor].
        constructor; [by right | constructor].
      * destruct remix; [| constructor]. constructor; [by left | constructor].
      * constructor; [by left | constructor].
    + right. exists img, remix. split; [exact Hready |]. split; [reflexivity |].
      split; [reflexivity |]. split; [exact Hgood |]. left. split; [exact Hno |].
      exists e. rewrite Hrun. unfold after_events. cbn [fst snd]. reflexivity.
    + right. exists img, remix. split; [exact Hready |]. split; [reflexivity |].
      split; [reflexivity |]. split.
      { destruct Hjob as (c & t & o & H & _). congruence. }
      right. exists jobID. split; [done |]. rewrite Hrun. by rewrite after_events_app.
Qed.

End RunCases.

Section Counting.

Lemma count_stderr p tr :
  (forall m, p (Stderr m) = false) ->
  Forall (fun e => is_stderr e = true) tr -> count p tr = 0%nat.
Proof.
  intros Hp. induction 1 as [|e tr He _ IH]; [done |].
  rewrite count_cons, IH. destruct e; try done. by rewrite Hp.
Qed.

Lemma saved_events_stderr out : Forall (fun e => is_stderr e = true) (saved_events out).
Proof. unfold saved_events. destruct (String.eqb out "-"); repeat constructor. Qed.

Lemma count_nil p : count p [] = 0%nat.
Proof. done. Qed.

Lemma history_events_count r : (count is_history_write (history_events r) <= 1)%nat.
Proof.
  unfold history_events. destruct (r.2); [| destruct (hist_file r.1)];
    rewrite ?count_cons, ?count_nil; cbn; lia.
Qed.

Lemma history_events_download r : count is_download (history_events r) = 0%nat.
Proof.
  unfold history_events. destruct (r.2); [| destruct (hist_file r.1)];
    rewrite ?count_cons, ?count_nil; cbn; lia.
Qed.



Lemma prompt_events_talk fl : Forall is_talk (prompt_events fl).
Proof.
  unfold prompt_events. destruct (String.eqb (prompt fl) ""); [| constructor].
  constructor; [by right | constructor].
Qed.

Lemma remix_events_talk remix : Forall is_talk (remix_events remix).
Proof. destruct remix; [| constructor]. constructor; [by left | constructor]. Qed.


End Counting.

(** ** Before the submission *)

(** X7.  Flags that are refused end the run at once: one message on standard
    error and status 2, whatever the surroundings are; nothing is read,
    written or sent. *)
Theorem refused_flags_stop_at_once (fl : Flags) (w : World) (fs : FileSystem) (st : Store) :
  refused_flags fl ->
  exists m, run_main fl w fs st = (Exit 2, initial fs st, [Stderr m]).
Proof.
  intros Href. unfold run_main.
  destruct (main_cases fl w (initial fs st))
    as [(Hv & Hm) | [(Hv & Ho & Hm) | [(Hv & Ho & Hl & _) |
        [(Hv & Ho & Hl & Hc & Hm) | (Hv & Ho & Hl & Hc & Hm)]]]]; eauto.
  - destruct Href as [H | [H | (H & _)]]; congruence.
  - destruct Href as [H | [H | (_ & Hout & Hr)]]; [congruence | congruence |].
    apply String.eqb_neq in Hout. rewrite Hout, Hr in Hc. done.
Qed.

Lemma refused_flags_stop_at_once_witness :
  let fl := {| prompt := "a kite"; output := "kite.mp4"; useRemote := true;
               model := "sora-2"; usePro := false; baseURL := "https://api.openai.com/v1";
               imageFile := ""; remixFrom := ""; listHistory := false;
               seconds := "12"; portrait := false; landscape := false |} in
  exists m, run_main fl (sample_world []) ∅ (sample_store HistCorrupt)
            = (Exit 2, initial ∅ (sample_store HistCorrupt), [Stderr m]).
Proof.
  intros fl. apply (refused_flags_stop_at_once fl).
  right. right. split; [reflexivity |]. split; [discriminate | reflexivity].
Defined.

(** X8.  [--list] only reads the history: with flags that pass the checks of the
    duration and the orientation, the run writes one message on standard
    error and ends with status 0 when the history can be loaded, empty or
    not, and with status 1 when it cannot; no credential is needed, nothing
    is sent and nothing is written. *)
Theorem list_is_read_only (fl : Flags) (w : World) (fs : FileSystem) (st : Store) :
  valid_seconds (seconds fl) = true -> portrait fl && landscape fl = false ->
  listHistory fl = true ->
  exists c m,
    run_main fl w fs st = (Exit c, initial fs st, [Stderr m]) /\
    ((c = 0 /\ exists h, loadHistory st = Ok h) \/
     (c = 1 /\ exists e, loadHistory st = Err e /\ m = MListLoadFailed e)).
Proof. intros Hv Ho Hl. by apply main_list. Qed.

Lemma list_is_read_only_witness :
  let fl := {| prompt := ""; output := "a.mp4"; useRemote := true;
               model := "sora-2"; usePro := false; baseURL := "https://api.openai.com/v1";
               imageFile := ""; remixFrom := ""; listHistory := true;
               seconds := "12"; portrait := false; landscape := false |} in
  let w := {| env_apiKey := ""; stdin_prompt := None; now := "";
              create_result := TransportError; ticks := [];
              download_result := DlTransportError; output_dir := ".";
              dl_mkdir_ok := false; dl_create_ok := false; dl_sync_ok := false;
              dl_close_ok := false; dl_rename_ok := false |} in
  exists c m,
    run_main fl w ∅ (sample_store (HistData two_videos))
    = (Exit c, initial ∅ (sample_store (HistData two_videos)), [Stderr m]) /\
    c = 0.
Proof.
  intros fl w.
  destruct (list_is_read_only fl w ∅ (sample_store (HistData two_videos))
              eq_refl eq_refl eq_refl) as (c & m & Hrun & [(Hc & _) | (_ & e & He & _)]).
  - by exists c, m.
  - discriminate He.
Defined.

(** X9.  The ways a run ends: [main] returns, or it calls [os.Exit] with
    0, 1 or 2.  [os.Exit(0)] is the end of a listing alone: the flags pass
    the checks of the duration and the orientation, [--list] is given and
    the history can be loaded.  A run that is to generate a video ends by
    returning from [main] or with status 1 or 2, and a run that returns
    from [main] was not a listing. *)
Theorem exit_status (fl : Flags) (w : World) (fs : FileSystem) (st : Store) :
  let r := result_of (run_main fl w fs st) in
  (r = Val tt \/ r = Exit 0 \/ r = Exit 1 \/ r = Exit 2) /\
  (r = Exit 0 <->
   valid_seconds (seconds fl) = true /\ portrait fl && landscape fl = false /\
   listHistory fl = true /\ exists h, loadHistory st = Ok h) /\
  (r = Val tt -> listHistory fl = false).
Proof.
  intros r. unfold r, run_main.
  destruct (main_cases fl w (initial fs st))
    as [(Hv & Hm) | [(Hv & Ho & Hm) | [(Hv & Ho & Hl & _) |
        [(Hv & Ho & Hl & Hc & Hm) | (Hv & Ho & Hl & Hc & Hm)]]]].
  - rewrite Hm. unfold result_of. cbn [fst].
    split; [by right; right; right |]. split; [| done].
    split; [done |]. intros (Hv' & _). congruence.
  - rewrite Hm. unfold result_of. cbn [fst].
    split; [by right; right; right |]. split; [| done].
    split; [done |]. intros (_ & Ho' & _). congruence.
  - destruct (main_list fl w fs st Hv Ho Hl)
      as (c & m & Hm & [(-> & h & Hh) | (-> & e & He & _)]);
      rewrite Hm; unfold result_of; cbn [fst].
    + split; [by right; left |]. split; [| done]. split; [| done].
      intros _. do 3 (split; [done |]). by exists h.
    + split; [by right; right; left |]. split; [| done].
      split; [done |]. intros (_ & _ & _ & h & Hh). congruence.
  - rewrite Hm. unfold result_of. cbn [fst].
    split; [by right; right; right |]. split; [| done].
    split; [done |]. intros (_ & _ & Hl' & _). congruence.
  - rewrite Hm.
    destruct (generate_requests fl w (effective_model fl) (effective_size fl) (initial fs st))
      as (Hexit & _).
    destruct (result_of (generate fl w (effective_model fl) (effective_size fl)
                           (initial fs st))) as [[] | c] eqn:Hres.
    + split; [by left |]. split; [| done]. split; [done |].
      intros (_ & _ & Hl' & _). congruence.
    + rewrite (Hexit c eq_refl).
      split; [by right; right; left |]. split; [| done].
      split; [done |]. intros (_ & _ & Hl' & _). congruence.
Qed.

(** X10.  A run sends a request exactly when it gets as far as the submission:
    the flags are accepted and no listing is asked for, the credential is
    there, there is a prompt, the image, if any, can be encoded, the remix
    reference, if any, resolves, and the request can be built. *)
Theorem requests_need_a_ready_run (fl : Flags) (w : World) (fs : FileSystem) (st : Store) :
  requests_of (trace_of (run_main fl w fs st)) <> [] <-> submits fl w fs st.
Proof.
  destruct (run_cases fl w fs st)
    as [(Hnot & c & tr & Hrun & Htalk) |
        (img & remix & Hready & Hi & Hr & Hne & [(_ & e & Hrun) | (jobID & _ & Hrun)])].
  - rewrite Hrun. unfold trace_of. cbn [snd].
    destruct (is_talk_counts tr Htalk) as (-> & _). by split.
  - split; [| rewrite Hrun; unfold trace_of; cbn [snd]].
    + intros _. split; [done |]. split; [by exists img |]. split; [by exists remix | done].
    + intros _. rewrite !requests_of_app.
      destruct (is_talk_counts _ (prompt_events_talk fl)) as (-> & _).
      destruct (is_talk_counts _ (remix_events_talk remix)) as (-> & _). done.
  - split; [| rewrite Hrun, trace_of_after].
    + intros _. split; [done |]. split; [by exists img |]. split; [by exists remix | done].
    + intros _. rewrite !requests_of_app.
      destruct (is_talk_counts _ (prompt_events_talk fl)) as (-> & _).
      destruct (is_talk_counts _ (remix_events_talk remix)) as (-> & _). done.
Qed.


Ltac settle_counts :=
  rewrite ?count_cons, ?count_nil; cbn;
  first [done | lia | intros; first [done | lia | congruence]].

(** X12.  The history is written at most once in a run, and only by a run that
    returns normally; a run that returns normally has asked for the content
    exactly once; a run that ends otherwise leaves the history as it
    was. *)
Theorem history_is_written_last (fl : Flags) (w : World) (fs : FileSystem) (st : Store) :
  let outcome := run_main fl w fs st in
  (count is_history_write (trace_of outcome) <= 1)%nat /\
  (count is_history_write (trace_of outcome) = 1%nat -> result_of outcome = Val tt) /\
  (result_of outcome = Val tt -> count is_download (trace_of outcome) = 1%nat) /\
  (result_of outcome <> Val tt -> st_store (state_of outcome) = st).
Proof.
  intros outcome. unfold outcome.
  destruct (run_cases fl w fs st)
    as [(Hnot & c & tr & Hrun & Htalk) |
        (img & remix & Hready & Hi & Hr & Hne & [(_ & e & Hrun) | (jobID & Hjob & Hrun)])].
  { rewrite Hrun. unfold trace_of, result_of, state_of. cbn [fst snd].
    destruct (is_talk_counts tr Htalk) as (_ & -> & _). repeat split; settle_counts. }
  { rewrite Hrun. unfold trace_of, result_of, state_of. cbn [fst snd].
    rewrite !count_app.
    destruct (is_talk_counts _ (prompt_events_talk fl)) as (_ & -> & _).
    destruct (is_talk_counts _ (remix_events_talk remix)) as (_ & -> & _).
    repeat split; settle_counts. }
  rewrite Hrun.
  assert (Hh : forall x : res unit * State * list Event,
    count is_history_write (trace_of (after_events
      ((prompt_events fl ++ remix_events remix)
         ++ [Net (submission fl w img remix); Stderr (MCreatedJob jobID)]) x))
    = count is_history_write (trace_of x)).
  { intros x. rewrite trace_of_after, !count_app.
    destruct (is_talk_counts _ (prompt_events_talk fl)) as (_ & -> & _).
    by destruct (is_talk_counts _ (remix_events_talk remix)) as (_ & -> & _). }
  assert (Hd : forall x : res unit * State * list Event,
    count is_download (trace_of (after_events
      ((prompt_events fl ++ remix_events remix)
         ++ [Net (submission fl w img remix); Stderr (MCreatedJob jobID)]) x))
    = count is_download (trace_of x)).
  { intros x. rewrite trace_of_after, !count_app.
    destruct (is_talk_counts _ (prompt_events_talk fl)) as (_ & _ & -> & _).
    by destruct (is_talk_counts _ (remix_events_talk remix)) as (_ & _ & -> & _). }
  rewrite Hh, Hd, result_of_after.
  change (state_of (after_events ?tr ?x)) with (state_of x).
  destruct (trackJob_shape fl w (env_apiKey w) (effective_model fl) (effective_prompt fl w)
              jobID (initial fs st))
    as (tr_poll & Honly & Hlen & Hcases).
  destruct (polling_only_counts (baseURL fl) (env_apiKey w) jobID tr_poll Honly)
    as (Hpd & Hph & _).
  destruct Hcases as [Hexit | (err & tr_dl & Hne' & Hdl & Hq & Ht)].
  { rewrite Hexit. unfold trace_of, result_of, state_of. cbn [fst snd].
    rewrite Hph. repeat split; settle_counts. }
  rewrite Ht. destruct err as [e |]; unfold trace_of, result_of, state_of; cbn [fst snd].
  - rewrite !count_app, !count_cons, !count_app, Hph, (count_quiet_history tr_dl Hq).
    repeat split; settle_counts.
  - rewrite !count_app, !count_cons, !count_app, Hph, Hpd,
      (count_quiet_history tr_dl Hq), (count_quiet_download tr_dl Hq),
      (count_stderr is_history_write (saved_events _)) by
        (done || apply saved_events_stderr).
    rewrite (count_stderr is_download (saved_events _)) by
        (done || apply saved_events_stderr).
    rewrite history_events_download.
    pose proof (history_events_count
                  (addToHistory (st_store (initial fs st))
                     (history_entry fl w jobID (effective_prompt fl w) (effective_model fl)
                        (destination fl jobID)))) as Hle.
    repeat split; settle_counts.
Qed.

(** ** From the polling on *)

(** X13.  The deadline ends the run: when the turns before the deadline leave
    the job pending, the run ends with status 1 and the message of the
    deadline as its last event, whatever turns would have followed; only
    status requests were sent, nothing was downloaded, no file touched and
    the history not written. *)
Theorem deadline_ends_the_run (fl : Flags) (w : World)
    (apiKey model prompt jobID : string) (s : State) (pre rest : list Tick) :
  ticks w = pre \/ ticks w = pre ++ CtxDone :: rest ->
  Forall pending pre ->
  exists tr,
    trackJob fl w apiKey model prompt jobID s = (Exit 1, s, tr ++ [Stderr MContextDone]) /\
    (exists k, requests_of tr = replicate k (GetStatus (status_url fl jobID) apiKey)) /\
    count is_download tr = 0%nat /\ count is_history_write tr = 0%nat /\
    count is_fs tr = 0%nat /\ stdout_of tr = [].
Proof.
  intros Hticks Hpre.
  assert (Hend : exists ts, ticks w = pre ++ ts /\
            pollLoop (baseURL fl) apiKey jobID ts s = (Exit 1, s, [Stderr MContextDone])).
  { destruct Hticks as [-> | ->].
    - exists []. rewrite app_nil_r. split; [done |]. by destruct s.
    - exists (CtxDone :: rest). split; [done |]. by destruct s. }
  destruct Hend as (ts & Ht & Hlast).
  destruct (pollLoop_pending (baseURL fl) apiKey jobID pre ts s Hpre) as (tr & Hskip & Honly).
  exists tr. split.
  - unfold trackJob. rewrite Ht.
    apply bind_exit. by rewrite Hskip, Hlast.
  - split; [by apply polling_only_requests |].
    destruct (polling_only_counts (baseURL fl) apiKey jobID tr Honly) as (H1 & H2 & H3 & H4).
    done.
Qed.

Lemma deadline_ends_the_run_witness :
  let queued := Poll (Response 200 "" (Some (sample_status "queued" 0))) in
  let finished := Poll (Response 200 "" (Some (sample_status "completed" 100))) in
  exists tr,
    trackJob sample_flags (sample_world [queued; CtxDone; finished])
      "sk-key" "sora-2" "a kite" "video_1" sample_state
    = (Exit 1, sample_state, tr ++ [Stderr MContextDone]) /\
    count is_download tr = 0%nat.
Proof.
  intros queued finished.
  assert (Hq : pending queued).
  { apply pending_status; [lia | reflexivity | reflexivity]. }
  destruct (deadline_ends_the_run sample_flags (sample_world [queued; CtxDone; finished])
              "sk-key" "sora-2" "a kite" "video_1" sample_state [queued] [finished]
              (or_intror eq_refl) (Forall_cons_2 _ _ _ Hq (Forall_nil_2 _)))
    as (tr & Hrun & _ & Hd & _).
  by exists tr.
Defined.

(** X14.  A download that fails is not recorded: the run ends with status 1 and
    the history is left as it was; when the polling had succeeded the
    report of the failure is the last event. *)
Theorem failed_download_is_not_recorded (fl : Flags) (w : World)
    (apiKey model prompt jobID : string) (s : State) (e : error) :
  result_of (downloadFile w apiKey (content_url fl jobID) (destination fl jobID) s)
  = Val (Some e) ->
  let outcome := trackJob fl w apiKey model prompt jobID s in
  result_of outcome = Exit 1 /\
  st_store (state_of outcome) = st_store s /\
  count is_history_write (trace_of outcome) = 0%nat /\
  (polling_succeeds w ->
   exists tr, trace_of outcome = tr ++ [Stderr (MDownloadFailed e)]).
Proof.
  intros Hfail outcome. unfold outcome.
  destruct (pollLoop_shape (baseURL fl) apiKey jobID (ticks w) s)
    as (r & tr_poll & Hrun & Hres & Honly & Hlen).
  destruct (polling_only_counts (baseURL fl) apiKey jobID tr_poll Honly) as (_ & Hph & _).
  destruct Hres as [-> | [-> Hne]].
  { unfold trackJob. rewrite (bind_exit _ _ s 1 s tr_poll Hrun).
    unfold result_of, state_of, trace_of. cbn [fst snd].
    split; [done |]. split; [done |]. split; [done |].
    intros Hok.
    destruct (pollLoop_succeeds fl w apiKey jobID s Hok) as (tr' & Hrun' & _). congruence. }
  destruct (trackJob_downloads fl w apiKey model prompt jobID s tr_poll Hrun)
    as (err & tr_dl & Hdl & Hq & Ht).
  unfold content_url in Hfail. rewrite Hdl in Hfail. injection Hfail as ->.
  rewrite Ht. unfold result_of, state_of, trace_of. cbn [fst snd].
  split; [done |]. split; [done |]. split.
  - rewrite !count_app, !count_cons, !count_app, Hph, (count_quiet_history tr_dl Hq).
    settle_counts.
  - intros _. exists (tr_poll ++ Net (GetContent (content_url fl jobID) apiKey) :: tr_dl).
    rewrite <- app_assoc. reflexivity.
Qed.

Lemma failed_download_is_not_recorded_witness :
  let finished := Poll (Response 200 "" (Some (sample_status "completed" 100))) in
  let w := {| env_apiKey := "sk-key"; stdin_prompt := None; now := "2025-01-02T03:04:05Z";
              create_result := TransportError; ticks := [finished];
              download_result := DlResponse 404 "expired" 0 sample_body;
              output_dir := "."; dl_mkdir_ok := true; dl_create_ok := true;
              dl_sync_ok := true; dl_close_ok := true; dl_rename_ok := true |} in
  let outcome := trackJob sample_flags w "sk-key" "sora-2" "a kite" "video_1" sample_state in
  result_of outcome = Exit 1 /\
  st_store (state_of outcome) = sample_store HistMissing /\
  count is_history_write (trace_of outcome) = 0%nat.
Proof.
  intros finished w outcome.
  destruct (failed_download_is_not_recorded sample_flags w "sk-key" "sora-2" "a kite"
              "video_1" sample_state (ErrDownloadStatus 404 "expired") eq_refl)
    as (H1 & H2 & H3 & _).
  done.
Defined.

Section TrackOutcome.

Context (fl : Flags) (w : World) (apiKey model prompt jobID : string).

Lemma download_events_quiet total body out :
  Forall quiet (download_events w total body out).
Proof.
  unfold download_events. destruct (String.eqb out "-").
  - apply Forall_app. split; [by apply io_Copy_events_quiet | by repeat constructor].
  - unfold file_download_events. apply Forall_app. split.
    { unfold mkdir_events. destruct (needs_mkdir _); by repeat constructor. }
    constructor; [done |]. apply Forall_app. split; [by apply io_Copy_events_quiet |].
    by repeat constructor.
Qed.

(** The run from the polling on when the polling and the download
    succeed. *)
Lemma trackJob_completes total body s :
  polling_succeeds w -> download_succeeds w total body ->
  let out := destination fl jobID in
  let r := addToHistory (st_store s) (history_entry fl w jobID prompt model out) in
  exists tr_poll,
    polling_only (Net (GetStatus (status_url fl jobID) apiKey)) tr_poll /\
    trackJob fl w apiKey model prompt jobID s
    = (Val tt, {| st_fs := replay (download_events w total body out) (st_fs s);
                  st_store := r.1 |},
       tr_poll ++ Net (GetContent (content_url fl jobID) apiKey)
         :: download_events w total body out ++ saved_events out ++ history_events r).
Proof.
  intros Hpoll Hdl out r.
  destruct (pollLoop_succeeds fl w apiKey jobID s Hpoll) as (tr_poll & Hrun & Honly).
  exists tr_poll. split; [done |].
  destruct (trackJob_downloads fl w apiKey model prompt jobID s tr_poll Hrun)
    as (err & tr_dl & Hd & Hq & Ht).
  assert (Hknown : downloadFile w apiKey (content_url fl jobID) out s
            = (Val None, with_fs s (replay (download_events w total body out) (st_fs s)),
               Net (GetContent (content_url fl jobID) apiKey)
                 :: download_events w total body out)).
  { unfold download_events. destruct (String.eqb out "-") eqn:Hout.
    - apply String.eqb_eq in Hout. rewrite Hout.
      destruct Hdl as ((code & text & Hr & Hc) & Hend & _).
      apply is_2xx_iff in Hc.
      rewrite (downloadFile_stream w apiKey _ code text total body s Hr Hc).
      rewrite Hend. cbn [ending_error].
      destruct (download_events_stream w total body Hend) as (_ & _ & Hfs).
      unfold download_events in Hfs. cbn [String.eqb Ascii.eqb Bool.eqb] in Hfs.
      by rewrite Hfs, with_fs_id.
    - apply String.eqb_neq in Hout.
      by rewrite (downloadFile_file_ok w apiKey _ out total body s Hdl Hout). }
  unfold content_url, out in Hknown. rewrite Hd in Hknown.
  injection Hknown as -> Hfs ->. fold out in Ht |- *. fold r in Ht.
  rewrite Ht. reflexivity.
Qed.

End TrackOutcome.

(** X15.  A history that cannot be written does not fail the run: when the
    polling and the download succeed and the addition to the history
    fails, the run still returns normally, with the download where it was
    asked for, and its last event is a warning on standard error. *)
Theorem history_failure_is_not_fatal (fl : Flags) (w : World)
    (apiKey model prompt jobID : string) (total : Z) (body : Body) (s : State)
    (e : error) :
  polling_succeeds w -> download_succeeds w total body ->
  (addToHistory (st_store s)
     (history_entry fl w jobID prompt model (destination fl jobID))).2 = Some e ->
  let outcome := trackJob fl w apiKey model prompt jobID s in
  result_of outcome = Val tt /\
  (exists tr, trace_of outcome = tr ++ [Stderr (MHistoryWarning e)]) /\
  count is_history_write (trace_of outcome) = 0%nat /\
  (destination fl jobID = "-" -> stdout_of (trace_of outcome) = concat (chunks body)) /\
  (destination fl jobID <> "-" ->
   st_fs (state_of outcome) !! destination fl jobID = Some (concat (chunks body))).
Proof.
  intros Hpoll Hdl Hadd outcome.
  destruct (trackJob_by_destination fl w apiKey model prompt jobID total body s Hpoll Hdl)
    as (Hres & _ & Hstream & Hfile).
  fold outcome in Hres, Hstream, Hfile.
  split; [done |].
  destruct (trackJob_completes fl w apiKey model prompt jobID total body s Hpoll Hdl)
    as (tr_poll & Honly & Hrun).
  cbn zeta in Hrun. fold outcome in Hrun.
  assert (Hev : history_events
            (addToHistory (st_store s)
               (history_entry fl w jobID prompt model (destination fl jobID)))
          = [Stderr (MHistoryWarning e)]).
  { unfold history_events. by rewrite Hadd. }
  rewrite Hev in Hrun.
  split; [| split; [| split]].
  - rewrite Hrun. unfold trace_of. cbn [snd]. eexists.
    rewrite app_comm_cons, !app_assoc. reflexivity.
  - rewrite Hrun. unfold trace_of. cbn [snd].
    destruct (polling_only_counts (baseURL fl) apiKey jobID tr_poll Honly) as (_ & Hph & _).
    rewrite !count_app, !count_cons, !count_app, Hph.
    rewrite (count_stderr is_history_write (saved_events _)) by
      (done || apply saved_events_stderr).
    rewrite (count_quiet_history _ (download_events_quiet w total body _)).
    settle_counts.
  - intros Hout. by apply Hstream.
  - intros Hout. by apply Hfile.
Qed.

Lemma history_failure_is_not_fatal_witness :
  let w := sample_world [Poll (Response 200 "" (Some (sample_status "completed" 100)))] in
  let s := initial ∅ (sample_store HistCorrupt) in
  let outcome := trackJob sample_flags w "sk-key" "sora-2" "a kite" "video_1" s in
  result_of outcome = Val tt /\
  stdout_of (trace_of outcome) = [x00; x00; x00; x18; x66; x74; x79; x70] /\
  exists tr, trace_of outcome = tr ++ [Stderr (MHistoryWarning ErrParseHistory)].
Proof.
  intros w s outcome.
  assert (Hp : polling_succeeds w) by (by apply sample_polling_succeeds).
  pose proof (sample_download_succeeds (ticks w)) as Hd.
  destruct (history_failure_is_not_fatal sample_flags w "sk-key" "sora-2" "a kite" "video_1"
              8 sample_body s ErrParseHistory Hp Hd eq_refl)
    as (Hres & Htr & _ & Hout & _).
  split; [exact Hres |]. split; [exact (Hout eq_refl) | exact Htr].
Defined.

(** ** Runs that complete *)

Section Completion.

Context (fl : Flags) (w : World) (fs : FileSystem) (st : Store).
Context (img remix : option string) (jobID : string) (total : Z) (body : Body).

Let out := destination fl jobID.
Let entry :=
  history_entry fl w jobID (effective_prompt fl w) (effective_model fl) out.

(** The whole run when nothing fails. *)
Lemma main_completes :
  ready fl w -> image_param fl fs = Ok img -> remix_param fl st = Ok remix ->
  creation_succeeds w jobID -> polling_succeeds w -> download_succeeds w total body ->
  exists tr_poll,
    polling_only (Net (GetStatus (status_url fl jobID) (env_apiKey w))) tr_poll /\
    run_main fl w fs st
    = (Val tt,
       {| st_fs := replay (download_events w total body out) fs;
          st_store := (addToHistory st entry).1 |},
       (prompt_events fl ++ remix_events remix)
       ++ [Net (submission fl w img remix); Stderr (MCreatedJob jobID)]
       ++ tr_poll
       ++ Net (GetContent (content_url fl jobID) (env_apiKey w))
          :: download_events w total body out
       ++ saved_events out ++ history_events (addToHistory st entry)).
Proof.
  intros Hready Hi Hr Hjob Hpoll Hdl.
  destruct (run_cases fl w fs st)
    as [(Hnot & _) |
        (img' & remix' & _ & Hi' & Hr' & Hne & [(Hno & _) | (jobID' & Hjob' & Hrun)])].
  - destruct Hnot. split; [done |]. split; [by exists img |]. split; [by exists remix |].
    destruct Hjob as (c & t & o & H & _). congruence.
  - by destruct (Hno jobID).
  - rewrite Hi in Hi'. injection Hi' as <-. rewrite Hr in Hr'. injection Hr' as <-.
    rewrite (creation_unique w jobID' jobID Hjob' Hjob) in Hrun.
    destruct (trackJob_completes fl w (env_apiKey w) (effective_model fl)
                (effective_prompt fl w) jobID total body (initial fs st) Hpoll Hdl)
      as (tr_poll & Honly & Htrack).
    exists tr_poll. split; [done |].
    rewrite Hrun, Htrack. unfold after_events. cbn [fst snd initial st_fs st_store].
    fold out. fold entry. by rewrite <- !app_assoc.
Qed.

End Completion.

(** X16.  What a run that completes writes to standard output: the text that
    asks for the prompt when no [--prompt] is given, and then the bytes of
    the video when the destination is standard output; nothing else.  So
    with [--prompt] and a destination that is a file standard output stays
    empty, and without [--prompt] the text of the question comes before the
    video. *)
Theorem completed_run_stdout (fl : Flags) (w : World) (fs : FileSystem) (st : Store)
    (img remix : option string) (jobID : string) (total : Z) (body : Body) :
  ready fl w -> image_param fl fs = Ok img -> remix_param fl st = Ok remix ->
  creation_succeeds w jobID -> polling_succeeds w -> download_succeeds w total body ->
  let outcome := run_main fl w fs st in
  result_of outcome = Val tt /\
  stdout_of (trace_of outcome)
  = (if String.eqb (prompt fl) "" then prompt_text else [])
    ++ (if String.eqb (destination fl jobID) "-" then concat (chunks body) else []).
Proof.
  intros Hready Hi Hr Hjob Hpoll Hdl outcome.
  destruct (main_completes fl w fs st img remix jobID total body Hready Hi Hr Hjob Hpoll Hdl)
    as (tr_poll & Honly & Hrun).
  unfold outcome. rewrite Hrun. unfold result_of, trace_of. cbn [fst snd].
  split; [done |].
  assert (Hend : ending body = EndEOF) by (by destruct Hdl as (_ & ? & _)).
  rewrite !stdout_of_app.
  change (stdout_of (Net ?r :: ?l)) with (stdout_of l).
  rewrite !stdout_of_app.
  rewrite (polling_only_stdout _ tr_poll Honly).
  assert (stdout_of (remix_events remix) = []) as -> by (by destruct remix).
  assert (stdout_of (saved_events (destination fl jobID)) = []) as ->.
  { unfold saved_events. by destruct (String.eqb _ "-"). }
  assert (stdout_of (history_events
            (addToHistory st
               (history_entry fl w jobID (effective_prompt fl w) (effective_model fl)
                  (destination fl jobID)))) = []) as ->.
  { unfold history_events. destruct (_.2); [done |]. by destruct (hist_file _). }
  assert (stdout_of (prompt_events fl)
          = if String.eqb (prompt fl) "" then prompt_text else []) as ->.
  { unfold prompt_events. destruct (String.eqb (prompt fl) ""); [| done].
    reflexivity. }
  assert (stdout_of (download_events w total body (destination fl jobID))
          = if String.eqb (destination fl jobID) "-" then concat (chunks body) else []) as ->.
  { destruct (String.eqb (destination fl jobID) "-") eqn:Hout.
    - apply String.eqb_eq in Hout. rewrite Hout.
      by destruct (download_events_stream w total body Hend).
    - apply String.eqb_neq in Hout.
      by destruct (download_events_file w total body _ Hout Hend). }
  change (stdout_of [Stderr (MCreatedJob jobID)]) with (@nil byte).
  cbn [app]. by rewrite !app_nil_r.
Qed.

Section SampleCompletion.

Lemma sample_ready fl ts :
  valid_seconds (seconds fl) = true -> portrait fl && landscape fl = false ->
  listHistory fl = false -> negb (String.eqb (output fl) "") && useRemote fl = false ->
  prompt fl <> "" -> ready fl (sample_world ts).
Proof. intros. do 5 (split; [done |]). by left. Qed.

Lemma sample_creation ts : creation_succeeds (sample_world ts) "video_1".
Proof.
  exists 200, "", {| cr_ID := "video_1"; cr_Status := "queued"; cr_Error := None |}.
  split; [reflexivity |]. split; [lia |]. split; [discriminate |]. split; [reflexivity |].
  discriminate.
Defined.

End SampleCompletion.

Lemma completed_run_stdout_witness :
  let w := sample_world [Poll (Response 200 "" (Some (sample_status "completed" 100)))] in
  let typed := {| env_apiKey := "sk-key"; stdin_prompt := Some "a kite";
                  now := "2025-01-02T03:04:05Z"; create_result := create_result w;
                  ticks := ticks w; download_result := download_result w;
                  output_dir := "."; dl_mkdir_ok := true; dl_create_ok := true;
                  dl_sync_ok := true; dl_close_ok := true; dl_rename_ok := true |} in
  let asking := {| prompt := ""; output := ""; useRemote := false;
                   model := "sora-2"; usePro := false;
                   baseURL := "https://api.openai.com/v1";
                   imageFile := ""; remixFrom := ""; listHistory := false;
                   seconds := "12"; portrait := false; landscape := false |} in
  stdout_of (trace_of (run_main sample_flags w ∅ (sample_store HistMissing)))
  = [x00; x00; x00; x18; x66; x74; x79; x70] /\
  stdout_of (trace_of (run_main asking typed ∅ (sample_store HistMissing)))
  = prompt_text ++ [x00; x00; x00; x18; x66; x74; x79; x70].
Proof.
  intros w typed asking.
  assert (Hp : polling_succeeds w) by (by apply sample_polling_succeeds).
  assert (Hp' : polling_succeeds typed) by exact Hp.
  pose proof (sample_download_succeeds (ticks w)) as Hd.
  assert (Hd' : download_succeeds typed 8 sample_body) by exact Hd.
  split.
  - assert (Hr : ready sample_flags w) by (by apply sample_ready).
    exact (proj2 (completed_run_stdout sample_flags w ∅ (sample_store HistMissing)
                    None None "video_1" 8 sample_body Hr eq_refl eq_refl
                    (sample_creation _) Hp Hd)).
  - assert (Hr : ready asking typed).
    { do 5 (split; [done |]). right. by exists "a kite". }
    exact (proj2 (completed_run_stdout asking typed ∅ (sample_store HistMissing)
                    None None "video_1" 8 sample_body Hr eq_refl eq_refl
                    (sample_creation _) Hp' Hd')).
Defined.



(** * Further properties of the job client *)

Section DownloadOutcome.

Context (w : World) (apiKey downloadURL outPath : string).

Let tmp := outPath +:+ ".part".
Let content_request := Net (GetContent downloadURL apiKey).


End DownloadOutcome.



(** X19.  A download to standard output, whatever the surroundings answer: no
    file is touched and the state is left as it was.  After a 2xx answer
    standard output has received what was copied of the body, also when the
    copy then fails, and the error of the copy is returned; after a failed
    exchange or another answer nothing is written to standard output. *)
Theorem stream_download_outcome (w : World) (apiKey downloadURL : string) (s : State) :
  let outcome := downloadFile w apiKey downloadURL "-" s in
  state_of outcome = s /\
  count is_fs (trace_of outcome) = 0%nat /\
  match download_result w with
  | DlTransportError =>
      result_of outcome = Val (Some ErrTransport) /\ stdout_of (trace_of outcome) = []
  | DlResponse code text total body =>
      if is_2xx code
      then result_of outcome = Val (ending_error (ending body)) /\
           stdout_of (trace_of outcome) = copied body
      else result_of outcome = Val (Some (ErrDownloadStatus code text)) /\
           stdout_of (trace_of outcome) = []
  end.
Proof.
  intros outcome. unfold outcome.
  destruct (download_result w) as [|code text total body] eqn:Hr.
  { unfold downloadFile. rewrite Hr. unfold bind. rewrite emit_quiet by done. done. }
  destruct (is_2xx code) eqn:Hc.
  2:{ unfold downloadFile. rewrite Hr. unfold bind. rewrite emit_quiet by done.
      rewrite Hc. done. }
  rewrite (downloadFile_stream w apiKey downloadURL code text total body s Hr Hc).
  unfold state_of, result_of, trace_of. cbn [fst snd].
  split; [done |].
  assert (Hcopy : stdout_of (io_Copy_events Stdout total body) = copied body).
  { unfold io_Copy_events, copied. rewrite stdout_of_app, stdout_of_copy_stream.
    destruct (ending body); cbn [ending_events]; [done | done |].
    unfold stdout_of. cbn. by rewrite app_nil_r. }
  assert (Hfs : count is_fs (io_Copy_events Stdout total body) = 0%nat).
  { unfold io_Copy_events. rewrite count_app, count_fs_copy_stream.
    destruct (ending body); cbn [ending_events]; by rewrite ?count_cons, ?count_nil. }
  split.
  - rewrite count_cons, count_app, Hfs. cbn [is_fs].
    destruct (ending_error (ending body)); by rewrite ?count_cons, ?count_nil.
  - split; [done |].
    change (stdout_of (Net ?r :: ?l)) with (stdout_of l).
    rewrite stdout_of_app, Hcopy.
    destruct (ending_error (ending body)); unfold stdout_of; cbn; by rewrite app_nil_r.
Qed.

Section CreateOutcome.

Context (baseURL apiKey model prompt : string)
        (image remixFromVideoID size seconds : option string).

Lemma createVideoJob_other r s :
  (forall code text out, r = Response code text (Some out) -> ~ 200 <= code < 300) ->
  exists e,
    result_of (createVideoJob r baseURL apiKey model prompt image remixFromVideoID
                 size seconds s) = Val (Err e) /\
    match r with
    | BadRequest => e = ErrNewRequest
    | TransportError => e = ErrTransport
    | Response code text payload =>
        if is_2xx code then e = ErrDecode else e = ErrAPI code text
    end.
Proof.
  intros Hno. destruct r as [| |code text payload].
  - by exists ErrNewRequest.
  - exists ErrTransport. unfold createVideoJob, bind. by rewrite emit_quiet by done.
  - unfold createVideoJob, bind. rewrite emit_quiet by done.
    destruct (is_2xx code) eqn:Hc; cbn [negb]; [| by eexists].
    destruct payload as [out|]; [| by eexists].
    apply is_2xx_iff in Hc. by destruct (Hno code text out).
Qed.

End CreateOutcome.

(** X20.  What [createVideoJob] returns.  It returns an identifier exactly when
    the answer is 2xx, decodes, carries no error message and names a job;
    the identifier is never empty.  An answer that is not 2xx is an error
    with the status and the text of the body, whatever the body holds; in
    a 2xx answer an error message comes before a missing identifier. *)
Theorem createVideoJob_result (r : HttpResult createVideoResponse)
    (baseURL apiKey model prompt : string)
    (image remixFromVideoID size seconds : option string) (s : State) :
  let outcome :=
    createVideoJob r baseURL apiKey model prompt image remixFromVideoID size seconds s in
  (forall id, result_of outcome = Val (Ok id) <->
     exists code text out,
       r = Response code text (Some out) /\ 200 <= code < 300 /\
       (forall a, cr_Error out = Some a -> Message a = "") /\
       cr_ID out = id /\ id <> "") /\
  (forall code text payload, r = Response code text payload -> ~ 200 <= code < 300 ->
     result_of outcome = Val (Err (ErrAPI code text))) /\
  (forall code text out a, r = Response code text (Some out) -> 200 <= code < 300 ->
     cr_Error out = Some a -> Message a <> "" ->
     result_of outcome = Val (Err (ErrMessage (Message a)))) /\
  state_of outcome = s.
Proof.
  intros outcome. unfold outcome. split; [| split; [| split]].
  - intros id. split.
    + intros Hres.
      destruct r as [| |code text [out|]].
      * discriminate Hres.
      * unfold createVideoJob, bind in Hres. rewrite emit_quiet in Hres by done.
        discriminate Hres.
      * destruct (decide (200 <= code < 300)) as [Hc | Hc].
        2:{ destruct (createVideoJob_other baseURL apiKey model prompt image
                        remixFromVideoID size seconds (Response code text (Some out)) s)
              as (e & He & _); [| congruence].
            intros c t o [= -> -> ->]. done. }
        rewrite (createVideoJob_answer baseURL apiKey model prompt image remixFromVideoID
                   size seconds code text out s Hc) in Hres.
        unfold result_of in Hres. cbn [fst] in Hres.
        destruct (has_message (cr_Error out)) eqn:Hm; [discriminate Hres |].
        destruct (String.eqb (cr_ID out) "") eqn:Hid; [discriminate Hres |].
        injection Hres as <-. exists code, text, out. split; [done |]. split; [done |].
        split; [| split; [done | by apply String.eqb_neq]].
        intros a Ha. destruct (String.eqb (Message a) "") eqn:E;
          [by apply String.eqb_eq in E |].
        unfold has_message in Hm. by rewrite Ha, E in Hm.
      * destruct (createVideoJob_other baseURL apiKey model prompt image
                    remixFromVideoID size seconds (Response code text None) s)
          as (e & He & _); [| congruence].
        intros c t o [=].
    + intros (code & text & out & -> & Hc & Hno & <- & Hne).
      rewrite (createVideoJob_answer baseURL apiKey model prompt image remixFromVideoID
                 size seconds code text out s Hc).
      unfold result_of. cbn [fst].
      assert (has_message (cr_Error out) = false) as ->.
      { unfold has_message. destruct (cr_Error out) as [a|]; [| done].
        by rewrite (Hno a eq_refl). }
      apply String.eqb_neq in Hne. by rewrite Hne.
  - intros code text payload -> Hc.
    destruct (createVideoJob_other baseURL apiKey model prompt image
                remixFromVideoID size seconds (Response code text payload) s)
      as (e & He & Hk).
    { intros c t o [= -> -> ->]. done. }
    destruct (is_2xx code) eqn:E; [apply is_2xx_iff in E; lia |]. by subst e.
  - intros code text out a -> Hc Ha Hne.
    rewrite (createVideoJob_answer baseURL apiKey model prompt image remixFromVideoID
               size seconds code text out s Hc).
    unfold result_of. cbn [fst].
    assert (has_message (cr_Error out) = true) as ->.
    { apply has_message_true. by exists a. }
    unfold error_message. by rewrite Ha.
  - destruct (createVideoJob_run baseURL apiKey model prompt image remixFromVideoID
                size seconds r s) as (job & sent & -> & _).
    done.
Qed.

Section BaseURL.

Lemma TrimRightSlash_slash b : TrimRightSlash (b +:+ "/") = TrimRightSlash b.
Proof.
  induction b as [|c b IH]; [done |].
  change (String c b +:+ "/") with (String c (b +:+ "/")).
  cbn [TrimRightSlash]. by rewrite IH.
Qed.

Lemma createVideoJob_base r b1 b2 apiKey model prompt image remix size secs :
  TrimRightSlash b1 = TrimRightSlash b2 ->
  createVideoJob r b1 apiKey model prompt image remix size secs
  = createVideoJob r b2 apiKey model prompt image remix size secs.
Proof. intros H. unfold createVideoJob. by rewrite H. Qed.

Lemma pollLoop_base b1 b2 apiKey jobID ts :
  TrimRightSlash b1 = TrimRightSlash b2 ->
  pollLoop b1 apiKey jobID ts = pollLoop b2 apiKey jobID ts.
Proof.
  intros H. induction ts as [|t ts IH]; [done |].
  destruct t as [|r]; [done |].
  cbn [pollLoop]. unfold fetchVideoStatus. by rewrite H, IH.
Qed.

Lemma bind_ext_at {A B} (m : M A) (k1 k2 : A -> M B) s :
  (forall a s', k1 a s' = k2 a s') -> bind m k1 s = bind m k2 s.
Proof.
  intros H. unfold bind. destruct (m s) as [[[a | c] s'] tr]; [| done]. by rewrite H.
Qed.

Context (fl : Flags) (w : World) (b : string).
Hypothesis Hb : TrimRightSlash b = TrimRightSlash (baseURL fl).

Lemma trackJob_base apiKey model prompt jobID s :
  trackJob (with_baseURL fl b) w apiKey model prompt jobID s
  = trackJob fl w apiKey model prompt jobID s.
Proof.
  unfold trackJob, destination, history_entry.
  cbn [with_baseURL output useRemote baseURL imageFile remixFrom].
  by rewrite (pollLoop_base b (baseURL fl)).
Qed.

Lemma submitAndTrack_base apiKey model prompt img remix size secs s :
  submitAndTrack (with_baseURL fl b) w apiKey model prompt img remix size secs s
  = submitAndTrack fl w apiKey model prompt img remix size secs s.
Proof.
  unfold submitAndTrack. cbn [with_baseURL baseURL].
  rewrite (createVideoJob_base (create_result w) b (baseURL fl)) by done.
  apply bind_ext_at. intros [jobID | e] s'; [| done].
  apply bind_ext_at. intros _ s''. apply trackJob_base.
Qed.

Lemma generate_base model videoSize s :
  generate (with_baseURL fl b) w model videoSize s = generate fl w model videoSize s.
Proof.
  unfold generate. destruct (String.eqb (env_apiKey w) ""); [done |].
  change (readPrompt (with_baseURL fl b) w) with (readPrompt fl w).
  change (processImage (with_baseURL fl b)) with (processImage fl).
  change (resolveRemix (with_baseURL fl b)) with (resolveRemix fl).
  cbn [with_baseURL seconds].
  apply bind_ext_at. intros p s1. apply bind_ext_at. intros img s2.
  apply bind_ext_at. intros remix s3. apply submitAndTrack_base.
Qed.

End BaseURL.

(** X21.  Slashes at the end of the base URL make no difference: two runs whose
    base URLs differ only there do the same, request for request. *)
Theorem base_url_trailing_slashes (fl : Flags) (w : World) (fs : FileSystem) (st : Store)
    (b : string) :
  TrimRightSlash b = TrimRightSlash (baseURL fl) ->
  run_main (with_baseURL fl b) w fs st = run_main fl w fs st.
Proof.
  intros H. unfold run_main, main.
  cbn [with_baseURL seconds usePro model portrait landscape listHistory output useRemote].
  destruct (negb (valid_seconds (seconds fl))); [done |].
  destruct (portrait fl && landscape fl); [done |].
  destruct (listHistory fl); [done |].
  destruct (negb (String.eqb (output fl) "") && useRemote fl); [done |].
  by apply generate_base.
Qed.

Lemma base_url_trailing_slashes_witness :
  let w := sample_world [Poll (Response 200 "" (Some (sample_status "completed" 100)))] in
  run_main (with_baseURL sample_flags "https://api.openai.com/v1") w ∅
    (sample_store HistMissing)
  = run_main sample_flags w ∅ (sample_store HistMissing).
Proof.
  intros w. apply base_url_trailing_slashes. reflexivity.
Defined.

(** * [humanBytes] *)

Section HumanBytesProperties.

Example humanBytes_ex :
  (humanBytes 0, humanBytes 1023, humanBytes 1024, humanBytes 1536,
   humanBytes 1048575, humanBytes 5242880, humanBytes (-5), humanBytes (1024 ^ 5))
  = ("0.0 B", "1023.0 B", "1.0 KiB", "1.5 KiB", "1024.0 KiB", "5.0 MiB", "-5.0 B",
     "1.0 TiB").
Proof. reflexivity. Qed.

Lemma float64_exact n : Z.abs n < 2 ^ 53 -> float64_of_int64 n = n.
Proof.
  intros Hn. unfold float64_of_int64. cbv zeta.
  destruct (Z.log2 (Z.abs n) + 1 <=? 53) eqn:E; [done |].
  apply Z.leb_gt in E.
  destruct (decide (Z.abs n = 0)) as [H0 | H0].
  { rewrite H0 in E. cbn in E. lia. }
  assert (Z.log2 (Z.abs n) < 53); [| lia].
  apply Z.log2_lt_pow2; lia.
Qed.

Lemma round_half_even_nearest num den :
  0 < den -> 2 * Z.abs (num - round_half_even num den * den) <= den.
Proof.
  intros Hd. unfold round_half_even. cbv zeta.
  pose proof (Z.div_mod num den ltac:(lia)) as Hdm.
  pose proof (Z.mod_pos_bound num den Hd) as Hr.
  set (q := num / den) in *. set (r := num mod den) in *.
  destruct ((den <? 2 * r) || ((2 * r =? den) && Z.odd q)) eqn:E.
  - assert (den <= 2 * r).
    { apply orb_true_iff in E as [E | E]; [apply Z.ltb_lt in E; lia |].
      apply andb_true_iff in E as [E _]. apply Z.eqb_eq in E. lia. }
    replace (num - (q + 1) * den) with (r - den) by lia. lia.
  - apply orb_false_iff in E as [E _]. apply Z.ltb_ge in E.
    replace (num - q * den) with r by lia. lia.
Qed.

End HumanBytesProperties.

(** X22.  Below 1024 TiB [humanBytes] gives the size in the largest unit that
    does not exceed it, to the nearest tenth: bytes below 1024, then KiB,
    MiB, GiB and TiB, each for sizes from one of the unit up to 1024 of
    them. *)
Theorem humanBytes_unit (n : Z) :
  0 <= n < 1024 ^ 5 ->
  exists t k unit,
    humanBytes_parts n = (t, unit) /\
    units !! k = Some unit /\
    n < 1024 ^ (Z.of_nat k + 1) /\ (k <> 0%nat -> 1024 ^ Z.of_nat k <= n) /\
    nearest_tenths t n (1024 ^ Z.of_nat k) /\
    (k = 0%nat -> t = 10 * n).
Proof.
  intros Hn. unfold humanBytes_parts.
  rewrite float64_exact by lia.
  cbn [humanBytes_loop units].
  change (1024 * 1) with 1024. change (1024 * 1024) with 1048576.
  change (1024 * 1048576) with 1073741824.
  change (1024 * 1073741824) with 1099511627776.
  change (1024 * 1099511627776) with 1125899906842624.
  change (1024 ^ 5) with 1125899906842624 in Hn.
  destruct (n <? 1024) eqn:E0.
  { apply Z.ltb_lt in E0. exists (round_half_even (10 * n) 1), 0%nat, "B".
    split; [done |]. split; [done |]. split; [cbn; lia |]. split; [done |].
    assert (Ht : round_half_even (10 * n) 1 = 10 * n).
    { unfold round_half_even. rewrite Z.div_1_r, Z.mod_1_r. reflexivity. }
    split; [| done]. unfold nearest_tenths. rewrite Ht. cbn. lia. }
  apply Z.ltb_ge in E0.
  destruct (n <? 1048576) eqn:E1.
  { apply Z.ltb_lt in E1. exists (round_half_even (10 * n) 1024), 1%nat, "KiB".
    split; [done |]. split; [done |]. split; [cbn; lia |]. split; [cbn; lia |].
    split; [| done]. apply (round_half_even_nearest (10 * n) 1024). lia. }
  apply Z.ltb_ge in E1.
  destruct (n <? 1073741824) eqn:E2.
  { apply Z.ltb_lt in E2. exists (round_half_even (10 * n) 1048576), 2%nat, "MiB".
    split; [done |]. split; [done |]. split; [cbn; lia |]. split; [cbn; lia |].
    split; [| done]. apply (round_half_even_nearest (10 * n) 1048576). lia. }
  apply Z.ltb_ge in E2.
  destruct (n <? 1099511627776) eqn:E3.
  { apply Z.ltb_lt in E3. exists (round_half_even (10 * n) 1073741824), 3%nat, "GiB".
    split; [done |]. split; [done |]. split; [cbn; lia |]. split; [cbn; lia |].
    split; [| done]. apply (round_half_even_nearest (10 * n) 1073741824). lia. }
  apply Z.ltb_ge in E3.
  destruct (n <? 1125899906842624) eqn:E4; [| apply Z.ltb_ge in E4; lia].
  exists (round_half_even (10 * n) 1099511627776), 4%nat, "TiB".
  split; [done |]. split; [done |]. split; [cbn; lia |]. split; [cbn; lia |].
  split; [| done]. apply (round_half_even_nearest (10 * n) 1099511627776). lia.
Qed.

Lemma humanBytes_unit_witness :
  exists t k unit,
    humanBytes_parts 1536 = (t, unit) /\
    units !! k = Some unit /\
    1536 < 1024 ^ (Z.of_nat k + 1) /\ (k <> 0%nat -> 1024 ^ Z.of_nat k <= 1536) /\
    nearest_tenths t 1536 (1024 ^ Z.of_nat k) /\
    (k = 0%nat -> t = 10 * 1536).
Proof. apply (humanBytes_unit 1536). lia. Defined.

(** X23.  From 1024 TiB on [humanBytes] is off by a factor of 1024: the loop
    divides once more after its last unit, so the number is the size in
    units of 1024 TiB while the unit printed is still TiB. *)
Theorem humanBytes_beyond_units (n : Z) :
  1024 ^ 5 <= n < 2 ^ 53 ->
  exists t,
    humanBytes_parts n = (t, "TiB") /\
    nearest_tenths t n (1024 ^ 5) /\
    ~ nearest_tenths t n (1024 ^ 4).
Proof.
  intros Hn. unfold humanBytes_parts.
  rewrite float64_exact by lia.
  cbn [humanBytes_loop units].
  change (1024 * 1) with 1024. change (1024 * 1024) with 1048576.
  change (1024 * 1048576) with 1073741824.
  change (1024 * 1073741824) with 1099511627776.
  change (1024 * 1099511627776) with 1125899906842624.
  change (1024 ^ 5) with 1125899906842624 in *.
  change (1024 ^ 4) with 1099511627776.
  change (2 ^ 53) with 9007199254740992 in Hn.
  destruct (n <? 1024) eqn:E0; [apply Z.ltb_lt in E0; lia |].
  destruct (n <? 1048576) eqn:E1; [apply Z.ltb_lt in E1; lia |].
  destruct (n <? 1073741824) eqn:E2; [apply Z.ltb_lt in E2; lia |].
  destruct (n <? 1099511627776) eqn:E3; [apply Z.ltb_lt in E3; lia |].
  destruct (n <? 1125899906842624) eqn:E4; [apply Z.ltb_lt in E4; lia |].
  exists (round_half_even (10 * n) 1125899906842624). split; [done |].
  pose proof (round_half_even_nearest (10 * n) 1125899906842624 ltac:(lia)) as Hnear.
  split; [exact Hnear |].
  unfold nearest_tenths. lia.
Qed.

Lemma humanBytes_beyond_units_witness :
  exists t,
    humanBytes_parts (1024 ^ 5) = (t, "TiB") /\
    nearest_tenths t (1024 ^ 5) (1024 ^ 5) /\
    ~ nearest_tenths t (1024 ^ 5) (1024 ^ 4).
Proof. apply (humanBytes_beyond_units (1024 ^ 5)). lia. Defined.
